(** * ccmanager: session-state detection, poll daemon, usage ledger and
      scoring trackers — a shallow embedding of the Go sources.

    The embedding comes first, one module per Go package:
    - [Go]      : the machine arithmetic of Go ([int64], [time.Duration],
                  [time.Time], [float64]) and the [strings] helpers used;
    - [Usage]   : internal/usage (types.go, parser.go, the price table);
    - [Json]    : [encoding/json], as far as the transcript records need it;
    - [Claude]  : internal/claude/detector.go, with its regular expressions;
    - [Game]    : internal/game ([APMTracker], [PomodoroTimer],
                  [ControlGroups], [StreakTracker]);
    - [Tmux], [Daemon] : the tmux data and internal/daemon/monitor.go;
    - [Tui]     : the path picker's [truncatePath];
    - [Fixtures]: the data of the repository's tests and small scenarios.
    The properties follow, in [GoFacts], [UsageProps], [ClaudeProps],
    [GameProps], [DaemonProps] and [TuiProps].                             *)

From Stdlib Require Import ZArith Lia Bool List Ascii String.
From Stdlib Require Import Floats.SpecFloat.
From stdpp Require Import gmap strings list fin_maps.
Import ListNotations.

Set Warnings "-register-all".

Local Open Scope string_scope.
Local Open Scope Z_scope.

(* ===================================================================== *)
(** * Go: machine integers, durations, instants                           *)
(* ===================================================================== *)
Module Go.

(** [int64] (and [int] on 64-bit targets, and [time.Duration]) is a
    two's-complement 64-bit integer: arithmetic wraps silently. *)
Definition minInt64 : Z := - 2 ^ 63.
Definition maxInt64 : Z := 2 ^ 63 - 1.

Definition wrap64 (z : Z) : Z := (z + 2 ^ 63) mod 2 ^ 64 - 2 ^ 63.

Definition add64 (a b : Z) : Z := wrap64 (a + b).
Definition sub64 (a b : Z) : Z := wrap64 (a - b).
Definition mul64 (a b : Z) : Z := wrap64 (a * b).
Definition neg64 (a : Z) : Z := wrap64 (- a).

Definition inInt64 (z : Z) : Prop := minInt64 <= z <= maxInt64.

(** [time.Duration] constants, in nanoseconds. *)
Definition Nanosecond  : Z := 1.
Definition Millisecond : Z := 1000000.
Definition Second      : Z := 1000000000.
Definition Minute      : Z := 60000000000.

(** [time.Time] is modelled as an unbounded count of nanoseconds since a
    fixed epoch (its representable range is far wider than that of a
    [Duration]).  [Time.Sub] saturates at the extreme durations,
    [Time.Add] shifts the instant, [After]/[Before] compare instants. *)
Definition Time := Z.

Definition Time_Sub (t u : Time) : Z :=
  if t - u <? minInt64 then minInt64
  else if maxInt64 <? t - u then maxInt64
  else t - u.

Definition Time_Add (t : Time) (d : Z) : Time := t + d.
Definition Time_After  (t u : Time) : bool := u <? t.
Definition Time_Before (t u : Time) : bool := t <? u.

(** [float64]: IEEE 754 binary64 on the Standard Library's [spec_float]. *)
Definition float64 := spec_float.
Definition f64_of_int (z : Z) : float64 := binary_normalize 53 1024 z 0 false.
Definition f64_mul : float64 -> float64 -> float64 := SFmul 53 1024.
Definition f64_div : float64 -> float64 -> float64 := SFdiv 53 1024.

(** [int(f)]: truncation toward zero.  For NaN, infinities and values
    outside [int64] Go leaves the result to the implementation; amd64
    yields the minimum integer, which is what is written here. *)
Definition int_of_f64 (f : float64) : Z :=
  match f with
  | S754_zero _ => 0
  | S754_finite sgn m e =>
      let v := if 0 <=? e then Z.pos m * 2 ^ e else Z.pos m / 2 ^ (- e) in
      let v := if sgn then - v else v in
      if (minInt64 <=? v) && (v <=? maxInt64) then v else minInt64
  | _ => minInt64
  end.

(** Bytes of a Go string. *)
Definition code (c : ascii) : Z := Z.of_N (N_of_ascii c).
Definition byte (n : N) : ascii := ascii_of_N n.
Definition newline : ascii := byte 10.

(** [strings.Split(s, "\n")]: always at least one piece. *)
Fixpoint splitLines (s : string) : list string :=
  match s with
  | EmptyString => [EmptyString]
  | String c s' =>
      if Ascii.eqb c newline then EmptyString :: splitLines s'
      else match splitLines s' with
           | h :: t => String c h :: t
           | [] => [String c EmptyString]
           end
  end.

(** [strings.Join(l, "\n")]. *)
Fixpoint joinLines (l : list string) : string :=
  match l with
  | [] => EmptyString
  | [x] => x
  | x :: rest => x ++ String newline (joinLines rest)
  end.

(** [strings.Contains]. *)
Fixpoint Contains (s sub : string) : bool :=
  String.prefix sub s ||
  match s with
  | String _ s' => Contains s' sub
  | EmptyString => false
  end.

(** [strings.ReplaceAll(s, ",", "")]. *)
Fixpoint dropCommas (s : string) : string :=
  match s with
  | EmptyString => EmptyString
  | String c s' => if Ascii.eqb c "," then dropCommas s' else String c (dropCommas s')
  end.

(** [strings.ToLower] on ASCII text. *)
Fixpoint ToLowerASCII (s : string) : string :=
  match s with
  | EmptyString => EmptyString
  | String c s' =>
      String (if (65 <=? code c) && (code c <=? 90) then byte (Z.to_N (code c + 32)) else c)
             (ToLowerASCII s')
  end.

(** [strings.TrimSpace]: leading, then trailing white space is removed,
    where white space is what [unicode.IsSpace] accepts: the six ASCII
    characters, U+0085, U+00A0, U+1680, U+2000..U+200A, U+2028, U+2029,
    U+202F, U+205F and U+3000, in their UTF-8 encodings. *)
Definition asciiSpace (c : ascii) : bool :=
  let n := code c in ((9 <=? n) && (n <=? 13)) || (n =? 32).

Definition space2 (a b : ascii) : bool :=
  (code a =? 194) && ((code b =? 133) || (code b =? 160)).

Definition space3 (a b c : ascii) : bool :=
  let x := code a in let y := code b in let z := code c in
  ((x =? 225) && (y =? 154) && (z =? 128))
  || ((x =? 226) && (y =? 128)
      && (((128 <=? z) && (z <=? 138)) || (z =? 168) || (z =? 169) || (z =? 175)))
  || ((x =? 226) && (y =? 129) && (z =? 159))
  || ((x =? 227) && (y =? 128) && (z =? 128)).

Fixpoint trimLeft (s : string) : string :=
  match s with
  | EmptyString => s
  | String a r1 =>
      if asciiSpace a then trimLeft r1
      else
        match r1 with
        | String b r2 =>
            if space2 a b then trimLeft r2
            else
              match r2 with
              | String c r3 => if space3 a b c then trimLeft r3 else s
              | EmptyString => s
              end
        | EmptyString => s
        end
  end.

(** The same from the end, on the reversed bytes. *)
Fixpoint trimLeftRev (l : list ascii) : list ascii :=
  match l with
  | [] => l
  | a :: r1 =>
      if asciiSpace a then trimLeftRev r1
      else
        match r1 with
        | b :: r2 =>
            if space2 b a then trimLeftRev r2
            else
              match r2 with
              | c :: r3 => if space3 c b a then trimLeftRev r3 else l
              | [] => l
              end
        | [] => l
        end
  end.

Definition TrimSpace (s : string) : string :=
  string_of_list_ascii
    (rev (trimLeftRev (rev (list_ascii_of_string (trimLeft s))))).

(** Decimal digits at the head of [s]: their value on top of [acc], their
    number on top of [n], and the rest. *)
Fixpoint readDigits (s : string) (acc : Z) (n : Z) : Z * Z * string :=
  match s with
  | String c s' =>
      if (48 <=? code c) && (code c <=? 57)
      then readDigits s' (acc * 10 + (code c - 48)) (n + 1)
      else (acc, n, s)
  | EmptyString => (acc, n, s)
  end.

(** [strconv.Atoi] on a string of decimal digits: an error ([None]) on the
    empty string, on any other character, and beyond the range of [int]. *)
Definition Atoi (s : string) : option Z :=
  let '(v, n, rest) := readDigits s 0 0 in
  match rest with
  | EmptyString => if (0 <? n) && (v <=? maxInt64) then Some v else None
  | _ => None
  end.

(** The [float64] nearest to m / 10^k (ties to even): the quotient is taken
    with 64 bits and more, and a sticky bit stands for its remainder. *)
Definition decimalToF64 (m k : Z) : float64 :=
  if m =? 0 then S754_zero false
  else
    let d := 10 ^ k in
    let sh := 65 + Z.log2 d in
    let n := m * 2 ^ sh in
    let sticky := if n mod d =? 0 then 0 else 1 in
    binary_normalize 53 1024 (2 * (n / d) + sticky) (- (sh + 1)) false.

(** [strconv.ParseFloat(s, 64)] on a string of digits and points: digits
    with at most one point among them, at least one digit; a value too
    large for a [float64] is reported as an error. *)
Definition ParseFloatDecimal (s : string) : option float64 :=
  let '(m1, n1, r1) := readDigits s 0 0 in
  let '(m, k, r2) :=
    match r1 with
    | String "." r => readDigits r m1 0
    | _ => (m1, 0, r1)
    end in
  match r2 with
  | EmptyString =>
      if n1 + k =? 0 then None
      else match decimalToF64 m k with
           | S754_infinity _ | S754_nan => None
           | f => Some f
           end
  | _ => None
  end.

Definition f64_add : float64 -> float64 -> float64 := SFadd 53 1024.

(** [strings.Split(s, sep)] for a separator of one byte. *)
Fixpoint SplitByte (sep : ascii) (s : string) : list string :=
  match s with
  | EmptyString => [EmptyString]
  | String c s' =>
      if Ascii.eqb c sep then EmptyString :: SplitByte sep s'
      else match SplitByte sep s' with
           | h :: t => String c h :: t
           | [] => [String c EmptyString]
           end
  end.

End Go.

(* ===================================================================== *)
(** * internal/usage: types.go and parser.go                              *)
(* ===================================================================== *)
Module Usage.
Import Go.

(** types.go: [TokenUsage], four [int64] counters. *)
Record TokenUsage := mkTokenUsage {
  InputTokens              : Z;
  OutputTokens             : Z;
  CacheCreationInputTokens : Z;
  CacheReadInputTokens     : Z
}.

Definition zeroUsage : TokenUsage := mkTokenUsage 0 0 0 0.

(** [func (t *TokenUsage) Add(other TokenUsage)]: the receiver after the
    four [+=]. *)
Definition Add (t other : TokenUsage) : TokenUsage :=
  {| InputTokens := add64 (InputTokens t) (InputTokens other);
     OutputTokens := add64 (OutputTokens t) (OutputTokens other);
     CacheCreationInputTokens :=
       add64 (CacheCreationInputTokens t) (CacheCreationInputTokens other);
     CacheReadInputTokens :=
       add64 (CacheReadInputTokens t) (CacheReadInputTokens other) |}.

(** [func (t *TokenUsage) TotalInput() int64]. *)
Definition TotalInput (t : TokenUsage) : Z :=
  add64 (add64 (InputTokens t) (CacheCreationInputTokens t))
        (CacheReadInputTokens t).

(** types.go: [SessionUsage]. *)
Record SessionUsage := mkSessionUsage {
  SessionID     : string;
  ProjectPath   : string;
  TotalUsage    : TokenUsage;
  EstimatedCost : float64;
  Model         : string;
  LastUpdated   : Time
}.

(** parser.go: the fields [json.Unmarshal] fills in a [jsonlMessage]. *)
Record jsonlMessage := mkMsg {
  msgType  : string;
  msgModel : string;
  msgUsage : TokenUsage
}.

(** What [bufio.Scanner] hands to the loop of [ParseSessionFile]: the lines
    it delivers, in order, and the value of [scanner.Err()] once [Scan]
    has returned false ([None] is a clean end of file; a line longer than
    the 10 MiB buffer ends the scan early with an error). *)
Record Scan := mkScan {
  scanLines : list string;
  scanErr   : option string
}.

Section Parser.

(** [encoding/json] on one line, into a fresh [jsonlMessage]; [None] when
    [json.Unmarshal] returns an error. *)
Variable jsonUnmarshal : string -> option jsonlMessage.
(** [path/filepath] and [strings.TrimSuffix]. *)
Variable filepath_Base filepath_Dir : string -> string.
Variable TrimSuffix : string -> string -> string.

Definition withTotal (u : SessionUsage) (t : TokenUsage) : SessionUsage :=
  mkSessionUsage (SessionID u) (ProjectPath u) t (EstimatedCost u) (Model u)
                 (LastUpdated u).

Definition withModel (u : SessionUsage) (m : string) : SessionUsage :=
  mkSessionUsage (SessionID u) (ProjectPath u) (TotalUsage u) (EstimatedCost u)
                 m (LastUpdated u).

(** One iteration of [for scanner.Scan() { ... }]. *)
Definition scanStep (usage : SessionUsage) (line : string) : SessionUsage :=
  if (String.length line =? 0)%nat then usage
  else match jsonUnmarshal line with
       | None => usage
       | Some msg =>
           if String.eqb (msgType msg) "assistant" then
             let usage := withTotal usage (Add (TotalUsage usage) (msgUsage msg)) in
             if negb (String.eqb (msgModel msg) "")
             then withModel usage (msgModel msg)
             else usage
           else usage
       end.

(** What an accepted assistant record does to the running usage. *)
Definition absorb (usage : SessionUsage) (msg : jsonlMessage) : SessionUsage :=
  let usage := withTotal usage (Add (TotalUsage usage) (msgUsage msg)) in
  if negb (String.eqb (msgModel msg) "") then withModel usage (msgModel msg) else usage.

Definition newSessionUsage (path : string) (now : Time) : SessionUsage :=
  {| SessionID := filepath_Base (TrimSuffix path ".jsonl");
     ProjectPath := filepath_Dir path;
     TotalUsage := zeroUsage;
     EstimatedCost := S754_zero false;
     Model := "";
     LastUpdated := now |}.

(** [ParseSessionFile(path)]: [file] is [None] when [os.Open] fails (the
    function then returns [nil, err]); otherwise the accumulated usage is
    returned together with [scanner.Err()]. *)
Definition ParseSessionFile (path : string) (now : Time) (file : option Scan)
  : option SessionUsage * option string :=
  match file with
  | None => (None, Some "open")
  | Some sc =>
      (Some (fold_left scanStep (scanLines sc) (newSessionUsage path now)),
       scanErr sc)
  end.

(** *** Specification side: what the transcript says

    The records that count are those of the lines that [json.Unmarshal]
    accepts and whose type is "assistant"; each counter of the total is the
    [int64] sum of that counter over them, and the model is that of the
    last of them that names one. *)
Definition assistantRecords (lines : list string) : list jsonlMessage :=
  flat_map (fun line =>
              match jsonUnmarshal line with
              | Some msg => if String.eqb (msgType msg) "assistant" then [msg] else []
              | None => []
              end) lines.

Definition sumZ (l : list Z) : Z := fold_right Z.add 0 l.

Definition counterSum (f : TokenUsage -> Z) (rs : list jsonlMessage) : Z :=
  wrap64 (sumZ (map (fun r => f (msgUsage r)) rs)).

Definition specTotal (rs : list jsonlMessage) : TokenUsage :=
  {| InputTokens := counterSum InputTokens rs;
     OutputTokens := counterSum OutputTokens rs;
     CacheCreationInputTokens := counterSum CacheCreationInputTokens rs;
     CacheReadInputTokens := counterSum CacheReadInputTokens rs |}.

Definition specModel (rs : list jsonlMessage) : string :=
  List.last (List.filter (fun m => negb (String.eqb m "")) (map msgModel rs)) "".

End Parser.

(** ** parser.go: the other readers of transcripts *)
Section Files.

Variable jsonUnmarshal : string -> option jsonlMessage.
Variable filepath_Base filepath_Dir : string -> string.
Variable TrimSuffix : string -> string -> string.

(** What [ParseSessionFileTail] sees of an opened file: the size that
    [file.Stat()] reports ([None] when it fails), what a scanner delivers
    after [file.Seek(-tailBytes, 2)] ([None] when the seek fails), and what
    [ParseSessionFile] gets when it opens the path again. *)
Record TailFile := mkTailFile {
  tfSize   : option Z;
  tfSeek   : option Scan;
  tfReopen : option Scan
}.

(** One iteration of the loop of [ParseSessionFileTail]: the first line
    delivered is skipped, the others are treated as [ParseSessionFile]
    treats them. *)
Definition tailStep (acc : bool * SessionUsage) (line : string) : bool * SessionUsage :=
  let '(first, usage) := acc in
  if first then (false, usage) else (false, scanStep jsonUnmarshal usage line).

Definition ParseSessionFileTail (path : string) (tailBytes : Z) (now : Time)
  (file : option TailFile) : option SessionUsage * option string :=
  match file with
  | None => (None, Some "open")
  | Some f =>
      match tfSize f with
      | None => (None, Some "stat")
      | Some size =>
          if size <=? tailBytes
          then ParseSessionFile jsonUnmarshal filepath_Base filepath_Dir TrimSuffix
                 path now (tfReopen f)
          else
            match tfSeek f with
            | None => (None, Some "seek")
            | Some sc =>
                (Some (snd (fold_left tailStep (scanLines sc)
                              (true, newSessionUsage filepath_Base filepath_Dir
                                       TrimSuffix path now))),
                 None)
            end
      end
  end.

(** [SumUsageFromDir(projectDir)]: [glob] is the answer of
    [FindSessionFiles] ([None] for an error), [fs] what opening each file
    gives.  A file that cannot be opened or whose scan ends in an error is
    passed over. *)
Definition SumUsageFromDir (glob : option (list string))
  (fs : string -> option Scan) (now : Time) : option TokenUsage :=
  match glob with
  | None => None
  | Some files =>
      Some (fold_left
              (fun total file =>
                 match ParseSessionFile jsonUnmarshal filepath_Base filepath_Dir
                         TrimSuffix file now (fs file) with
                 | (Some usage, None) => Add total (TotalUsage usage)
                 | _ => total
                 end) files zeroUsage)
  end.

(** The loop of [FindActiveSessionID]: [stat] gives the modification time
    of a file ([None] when [os.Stat] fails); the zero [time.Time] is the
    origin of [Time]. *)
Definition mostRecentFile (stat : string -> option Time) (files : list string)
  : string * Time :=
  fold_left
    (fun '(mostRecent, mostRecentTime) f =>
       match stat f with
       | None => (mostRecent, mostRecentTime)
       | Some modTime =>
           if Time_After modTime mostRecentTime then (f, modTime)
           else (mostRecent, mostRecentTime)
       end) files ("", 0).

(** [FindActiveSessionID(workingDir)]: [projectDir] is the answer of
    [FindProjectDir] and [glob] that of [FindSessionFiles]; [None] stands
    for a returned error. *)
Definition FindActiveSessionID (projectDir : option string)
  (glob : string -> option (list string)) (stat : string -> option Time)
  : option string :=
  match projectDir with
  | None => None
  | Some dir =>
      match glob dir with
      | None => None
      | Some files =>
          let mostRecent := fst (mostRecentFile stat files) in
          if String.eqb mostRecent "" then Some ""
          else Some (TrimSuffix (filepath_Base mostRecent) ".jsonl")
      end
  end.

End Files.

(** ** The price table *)
Record ModelPricing := mkPricing {
  Input      : float64;
  Output     : float64;
  CacheWrite : float64;
  CacheRead  : float64
}.

(** The constants are the [float64] values nearest to the decimals of the
    source: 15.0, 75.0, 18.75, 1.50; 3.0, 15.0, 3.75, 0.30; 0.80, 4.0,
    1.0, 0.08. *)
Definition modelPricing : gmap string ModelPricing :=
  <["opus" := mkPricing (f64_of_int 15) (f64_of_int 75)
                        (decimalToF64 1875 2) (decimalToF64 150 2)]>
  (<["sonnet" := mkPricing (f64_of_int 3) (f64_of_int 15)
                           (decimalToF64 375 2) (decimalToF64 30 2)]>
  (<["haiku" := mkPricing (decimalToF64 80 2) (f64_of_int 4)
                          (f64_of_int 1) (decimalToF64 8 2)]> ∅)).

(** The zero value of [ModelPricing], which indexing the map with a
    missing key gives. *)
Definition noPricing : ModelPricing :=
  mkPricing (S754_zero false) (S754_zero false) (S754_zero false) (S754_zero false).

Section Pricing.

(** [strings.ToLower]. *)
Variable ToLower : string -> string.

Definition NormalizeModelName (model : string) : string :=
  let model := ToLower model in
  if Contains model "opus" then "opus"
  else if Contains model "sonnet" then "sonnet"
  else if Contains model "haiku" then "haiku"
  else "sonnet".

(** [pricing, ok := modelPricing[normalizedModel]; if !ok { ... }]. *)
Definition lookupPricing (model : string) : ModelPricing :=
  match modelPricing !! NormalizeModelName model with
  | Some pricing => pricing
  | None => default noPricing (modelPricing !! "sonnet")
  end.

Definition GetPricing (model : string) : ModelPricing := lookupPricing model.

(** [CalculateCost(usage, model)]; the products and the sums are rounded
    one by one, in the order of the source, as the amd64 compiler does (a
    target with fused multiply-add may round a product and a sum at once). *)
Definition CalculateCost (usage : TokenUsage) (model : string) : float64 :=
  let pricing := lookupPricing model in
  let million := f64_of_int 1000000 in
  let inputM := f64_div (f64_of_int (InputTokens usage)) million in
  let outputM := f64_div (f64_of_int (OutputTokens usage)) million in
  let cacheWriteM := f64_div (f64_of_int (CacheCreationInputTokens usage)) million in
  let cacheReadM := f64_div (f64_of_int (CacheReadInputTokens usage)) million in
  f64_add
    (f64_add
       (f64_add (f64_mul inputM (Input pricing)) (f64_mul outputM (Output pricing)))
       (f64_mul cacheWriteM (CacheWrite pricing)))
    (f64_mul cacheReadM (CacheRead pricing)).

End Pricing.

(** The lines of a file that [SumUsageFromDir] takes into account: those
    of a file that opens and scans without error. *)
Definition readableLines (fs : string -> option Scan) (file : string) : list string :=
  match fs file with
  | Some sc => match scanErr sc with None => scanLines sc | Some _ => [] end
  | None => []
  end.

(** The four counters are [int64] values. *)
Definition countersInRange (t : TokenUsage) : Prop :=
  inInt64 (InputTokens t) /\ inInt64 (OutputTokens t)
  /\ inInt64 (CacheCreationInputTokens t) /\ inInt64 (CacheReadInputTokens t).

(** The body of the loop of [mostRecentFile]. *)
Definition recentStep (stat : string -> option Time) (acc : string * Time) (f : string)
  : string * Time :=
  match stat f with
  | None => acc
  | Some modTime => if Time_After modTime (snd acc) then (f, modTime) else acc
  end.

End Usage.

(* ===================================================================== *)
(** * encoding/json, as far as [jsonlMessage] needs it                    *)
(* ===================================================================== *)
Module Json.
Import Go Usage.

Inductive value :=
| JNull
| JBool (b : bool)
| JNum (literal : string)
| JStr (s : string)
| JArr (elems : list value)
| JObj (members : list (string * value)).

Definition isWs (c : ascii) : bool :=
  let n := code c in (n =? 32) || (n =? 9) || (n =? 10) || (n =? 13).

Definition isDigit (c : ascii) : bool :=
  let n := code c in (48 <=? n) && (n <=? 57).

Fixpoint skipWs (s : string) : string :=
  match s with
  | String c s' => if isWs c then skipWs s' else s
  | EmptyString => s
  end.

Definition hexVal (c : ascii) : option Z :=
  let n := code c in
  if (48 <=? n) && (n <=? 57) then Some (n - 48)
  else if (97 <=? n) && (n <=? 102) then Some (n - 87)
  else if (65 <=? n) && (n <=? 70) then Some (n - 55)
  else None.

Definition hex4 (a b c d : ascii) : option Z :=
  match hexVal a, hexVal b, hexVal c, hexVal d with
  | Some x, Some y, Some z, Some w => Some (((x * 16 + y) * 16 + z) * 16 + w)
  | _, _, _, _ => None
  end.

Definition chr (n : Z) : ascii := byte (Z.to_N n).

(** UTF-8 encoding of a code point. *)
Definition utf8 (n : Z) : string :=
  if n <? 128 then String (chr n) ""
  else if n <? 2048 then
    String (chr (192 + n / 64)) (String (chr (128 + n mod 64)) "")
  else if n <? 65536 then
    String (chr (224 + n / 4096))
      (String (chr (128 + (n / 64) mod 64)) (String (chr (128 + n mod 64)) ""))
  else
    String (chr (240 + n / 262144))
      (String (chr (128 + (n / 4096) mod 64))
        (String (chr (128 + (n / 64) mod 64)) (String (chr (128 + n mod 64)) ""))).

Definition isHighSurrogate (n : Z) : bool := (55296 <=? n) && (n <? 56320).
Definition isLowSurrogate (n : Z) : bool := (56320 <=? n) && (n <? 57344).
Definition replacementChar : Z := 65533.

(** The body of a string literal, after its opening quote: the unquoted
    text and what follows the closing quote.  Bytes that are not valid
    UTF-8 are kept as they are (Go substitutes U+FFFD for them). *)
Fixpoint parseString (s : string) : option (string * string) :=
  match s with
  | EmptyString => None
  | String "034" rest => Some (EmptyString, rest)
  | String "\" (String "u" (String a (String b (String c (String d rest))))) =>
      match hex4 a b c d with
      | None => None
      | Some hi =>
          if isHighSurrogate hi then
            match rest with
            | String "\" (String "u" (String a' (String b' (String c' (String d' rest'))))) =>
                match hex4 a' b' c' d' with
                | None => None
                | Some lo =>
                    if isLowSurrogate lo then
                      match parseString rest' with
                      | Some (t, r) =>
                          Some (utf8 (65536 + (hi - 55296) * 1024 + (lo - 56320)) ++ t, r)
                      | None => None
                      end
                    else
                      match parseString rest with
                      | Some (t, r) => Some (utf8 replacementChar ++ t, r)
                      | None => None
                      end
                end
            | _ =>
                match parseString rest with
                | Some (t, r) => Some (utf8 replacementChar ++ t, r)
                | None => None
                end
            end
          else
            match parseString rest with
            | Some (t, r) =>
                Some (utf8 (if isLowSurrogate hi then replacementChar else hi) ++ t, r)
            | None => None
            end
      end
  | String "\" (String e rest) =>
      let plain (c : ascii) :=
        match parseString rest with
        | Some (t, r) => Some (String c t, r)
        | None => None
        end in
      let n := code e in
      if n =? 34 then plain e
      else if n =? 92 then plain e
      else if n =? 47 then plain e
      else if n =? 98 then plain (byte 8)
      else if n =? 102 then plain (byte 12)
      else if n =? 110 then plain (byte 10)
      else if n =? 114 then plain (byte 13)
      else if n =? 116 then plain (byte 9)
      else None
  | String c rest =>
      if code c <? 32 then None
      else match parseString rest with
           | Some (t, r) => Some (String c t, r)
           | None => None
           end
  end.

Definition isNumChar (c : ascii) : bool :=
  let n := code c in
  isDigit c || (n =? 45) || (n =? 43) || (n =? 46) || (n =? 101) || (n =? 69).

Fixpoint spanNum (s : string) : string * string :=
  match s with
  | String c s' =>
      if isNumChar c then let '(l, r) := spanNum s' in (String c l, r)
      else (EmptyString, s)
  | EmptyString => (EmptyString, EmptyString)
  end.

Fixpoint skipDigits (s : string) : string :=
  match s with
  | String c s' => if isDigit c then skipDigits s' else s
  | EmptyString => s
  end.

Definition digits1 (s : string) : option string :=
  match s with
  | String c s' => if isDigit c then Some (skipDigits s') else None
  | EmptyString => None
  end.

(** The JSON grammar of a number: an optional minus sign; 0, or a nonzero
    digit and more digits; optionally a point and digits; optionally an
    exponent letter, a sign and digits. *)
Definition validNumber (l : string) : bool :=
  let l := match l with String "-" r => r | _ => l end in
  let afterInt :=
    match l with
    | String "0" r => Some r
    | String c r => if isDigit c then Some (skipDigits r) else None
    | EmptyString => None
    end in
  let afterFrac (r : string) :=
    match r with
    | String "." r' => digits1 r'
    | _ => Some r
    end in
  let afterExp (r : string) :=
    match r with
    | String c r' =>
        if (code c =? 101) || (code c =? 69) then
          match r' with
          | String "+" r'' => digits1 r''
          | String "-" r'' => digits1 r''
          | _ => digits1 r'
          end
        else Some r
    | EmptyString => Some r
    end in
  match afterInt with
  | Some r =>
      match afterFrac r with
      | Some r' =>
          match afterExp r' with
          | Some EmptyString => true
          | _ => false
          end
      | None => false
      end
  | None => false
  end.

Definition stripPrefix (p s : string) : option string :=
  if String.prefix p s
  then Some (String.substring (String.length p) (String.length s - String.length p) s)
  else None.

(** One JSON value at the head of [s]; [fuel] bounds the nesting depth. *)
Fixpoint parseValue (fuel : nat) (s : string) : option (value * string) :=
  match fuel with
  | O => None
  | S f =>
      match skipWs s with
      | EmptyString => None
      | String c r as s0 =>
          let n := code c in
          if n =? 34 then
            match parseString r with
            | Some (t, r') => Some (JStr t, r')
            | None => None
            end
          else if n =? 91 then
            match skipWs r with
            | String "]" r' => Some (JArr [], r')
            | _ =>
                (fix elems (g : nat) (r : string) (acc : list value) :=
                   match g with
                   | O => None
                   | S g' =>
                       match parseValue f r with
                       | Some (v, r1) =>
                           match skipWs r1 with
                           | String "," r2 => elems g' r2 (v :: acc)
                           | String "]" r2 => Some (JArr (rev (v :: acc)), r2)
                           | _ => None
                           end
                       | None => None
                       end
                   end) (S (String.length r)) r []
            end
          else if n =? 123 then
            match skipWs r with
            | String "}" r' => Some (JObj [], r')
            | _ =>
                (fix members (g : nat) (r : string) (acc : list (string * value)) :=
                   match g with
                   | O => None
                   | S g' =>
                       match skipWs r with
                       | String "034" rk =>
                           match parseString rk with
                           | Some (k, r0) =>
                               match skipWs r0 with
                               | String ":" r1 =>
                                   match parseValue f r1 with
                                   | Some (v, r2) =>
                                       match skipWs r2 with
                                       | String "," r3 => members g' r3 ((k, v) :: acc)
                                       | String "}" r3 =>
                                           Some (JObj (rev ((k, v) :: acc)), r3)
                                       | _ => None
                                       end
                                   | None => None
                                   end
                               | _ => None
                               end
                           | None => None
                           end
                       | _ => None
                       end
                   end) (S (String.length r)) r []
            end
          else
            match stripPrefix "null" s0, stripPrefix "true" s0, stripPrefix "false" s0 with
            | Some r', _, _ => Some (JNull, r')
            | _, Some r', _ => Some (JBool true, r')
            | _, _, Some r' => Some (JBool false, r')
            | _, _, _ =>
                let '(l, r') := spanNum s0 in
                if validNumber l then Some (JNum l, r') else None
            end
      end
  end.

(** A whole line: one value, surrounded by white space only. *)
Definition parse (s : string) : option value :=
  match parseValue (S (String.length s)) s with
  | Some (v, r) => match skipWs r with EmptyString => Some v | _ => None end
  | None => None
  end.

(** Field names are matched exactly or, failing that, under Unicode simple
    case folding: besides the two ASCII cases, U+017F folds to S and
    U+212A to K. *)
Definition upper (c : ascii) : ascii :=
  let n := code c in if (97 <=? n) && (n <=? 122) then chr (n - 32) else c.

Fixpoint foldName (s : string) : string :=
  match s with
  | EmptyString => EmptyString
  | String a rest =>
      match rest with
      | String b rest2 =>
          if (code a =? 197) && (code b =? 191) then String "S" (foldName rest2)
          else
            match rest2 with
            | String c rest3 =>
                if (code a =? 226) && (code b =? 132) && (code c =? 170)
                then String "K" (foldName rest3)
                else String (upper a) (foldName rest)
            | EmptyString => String (upper a) (foldName rest)
            end
      | EmptyString => String (upper a) EmptyString
      end
  end.

Definition fieldIs (key name : string) : bool :=
  String.eqb key name || String.eqb (foldName key) (foldName name).

Fixpoint digitsValue (s : string) (acc : Z) : option Z :=
  match s with
  | EmptyString => Some acc
  | String c s' => if isDigit c then digitsValue s' (acc * 10 + (code c - 48)) else None
  end.

(** [strconv.ParseInt(literal, 10, 64)] on a JSON number literal. *)
Definition parseInt64 (l : string) : option Z :=
  let '(neg, ds) := match l with String "-" r => (true, r) | _ => (false, l) end in
  match ds with
  | EmptyString => None
  | _ =>
      match digitsValue ds 0 with
      | Some n =>
          let v := if neg then - n else n in
          if (minInt64 <=? v) && (v <=? maxInt64) then Some v else None
      | None => None
      end
  end.

(** Decoding into a field that already holds [cur]: [null] leaves it. *)
Definition decodeString (v : value) (cur : string) : option string :=
  match v with JStr s => Some s | JNull => Some cur | _ => None end.

Definition decodeInt64 (v : value) (cur : Z) : option Z :=
  match v with JNum l => parseInt64 l | JNull => Some cur | _ => None end.

Definition usageField (u : option TokenUsage) (kv : string * value) : option TokenUsage :=
  match u with
  | None => None
  | Some u =>
      let '(k, v) := kv in
      if fieldIs k "input_tokens" then
        option_map (fun n => mkTokenUsage n (OutputTokens u)
                      (CacheCreationInputTokens u) (CacheReadInputTokens u))
                   (decodeInt64 v (InputTokens u))
      else if fieldIs k "output_tokens" then
        option_map (fun n => mkTokenUsage (InputTokens u) n
                      (CacheCreationInputTokens u) (CacheReadInputTokens u))
                   (decodeInt64 v (OutputTokens u))
      else if fieldIs k "cache_creation_input_tokens" then
        option_map (fun n => mkTokenUsage (InputTokens u) (OutputTokens u) n
                      (CacheReadInputTokens u))
                   (decodeInt64 v (CacheCreationInputTokens u))
      else if fieldIs k "cache_read_input_tokens" then
        option_map (fun n => mkTokenUsage (InputTokens u) (OutputTokens u)
                      (CacheCreationInputTokens u) n)
                   (decodeInt64 v (CacheReadInputTokens u))
      else Some u
  end.

Definition decodeUsage (v : value) (cur : TokenUsage) : option TokenUsage :=
  match v with
  | JObj ms => fold_left usageField ms (Some cur)
  | JNull => Some cur
  | _ => None
  end.

(** The nested [Message] struct: its [Model] and [Usage]. *)
Definition messageField (m : option (string * TokenUsage)) (kv : string * value)
  : option (string * TokenUsage) :=
  match m with
  | None => None
  | Some (model, u) =>
      let '(k, v) := kv in
      if fieldIs k "model" then option_map (fun s => (s, u)) (decodeString v model)
      else if fieldIs k "usage" then option_map (fun u' => (model, u')) (decodeUsage v u)
      else Some (model, u)
  end.

Definition decodeMessage (v : value) (cur : string * TokenUsage)
  : option (string * TokenUsage) :=
  match v with
  | JObj ms => fold_left messageField ms (Some cur)
  | JNull => Some cur
  | _ => None
  end.

Definition topField (m : option jsonlMessage) (kv : string * value) : option jsonlMessage :=
  match m with
  | None => None
  | Some m =>
      let '(k, v) := kv in
      if fieldIs k "type" then
        option_map (fun s => mkMsg s (msgModel m) (msgUsage m)) (decodeString v (msgType m))
      else if fieldIs k "message" then
        option_map (fun mu => mkMsg (msgType m) (fst mu) (snd mu))
                   (decodeMessage v (msgModel m, msgUsage m))
      else Some m
  end.

(** [json.Unmarshal(line, &msg)] with [var msg jsonlMessage] fresh: the
    filled message, or [None] when an error is returned (a syntax error, or
    a value of the wrong JSON type for a field). *)
Definition Unmarshal (line : string) : option jsonlMessage :=
  match parse line with
  | Some (JObj ms) => fold_left topField ms (Some (mkMsg "" "" zeroUsage))
  | Some JNull => Some (mkMsg "" "" zeroUsage)
  | _ => None
  end.

End Json.

(* ===================================================================== *)
(** * internal/claude/detector.go                                         *)
(* ===================================================================== *)
Module Claude.
Import Go.

(** [SessionState] and its [iota] constants. *)
Inductive SessionState :=
| StateUnknown
| StateIdle
| StateActive
| StateThinking
| StateUrgent.

Definition SessionState_eqb (a b : SessionState) : bool :=
  match a, b with
  | StateUnknown, StateUnknown | StateIdle, StateIdle | StateActive, StateActive
  | StateThinking, StateThinking | StateUrgent, StateUrgent => true
  | _, _ => false
  end.

Definition SessionState_String (s : SessionState) : string :=
  match s with
  | StateIdle => "IDLE"
  | StateActive => "ACTIVE"
  | StateThinking => "THINKING"
  | StateUrgent => "URGENT"
  | StateUnknown => "UNKNOWN"
  end.

Record SessionInfo := mkSessionInfo {
  State        : SessionState;
  Tokens       : Z;
  ThinkingTime : Z;
  LastLine     : string
}.

(** ** Regular expressions (package [regexp], RE2 syntax)

    Patterns work on the bytes of the string.  Every pattern of the
    detector starts and ends on ASCII bytes or on whole UTF-8 literals, so
    matching bytes and matching runes agree. *)
Inductive regex :=
| Eps
| Byte (c : ascii)
| Class (p : ascii -> bool)
| Cat (r1 r2 : regex)
| Alt (r1 r2 : regex)
| Star (r : regex)
| EndLine
| Group (i : nat) (r : regex).

(** What the capturing groups have matched so far, the latest first. *)
Definition captures := list (nat * string).

Fixpoint submatch (i : nat) (caps : captures) : string :=
  match caps with
  | [] => EmptyString
  | (j, text) :: rest => if (i =? j)%nat then text else submatch i rest
  end.

(** The part of [s] that lies before its suffix [rest]. *)
Definition consumed (s rest : string) : string :=
  String.substring 0 (String.length s - String.length rest) s.

(** Backtracking matcher with the priorities of leftmost-first matching:
    [run r s caps k] matches [r] at the head of [s] and hands the rest and
    the captures to [k]; the first success wins, [Star] is greedy, and
    [EndLine] is the multi-line [$] (end of text, or just before a line
    feed). *)
Fixpoint run {A : Type} (r : regex) (s : string) (caps : captures)
  (k : string -> captures -> option A) {struct r} : option A :=
  match r with
  | Eps => k s caps
  | Byte c =>
      match s with
      | String c' s' => if Ascii.eqb c c' then k s' caps else None
      | EmptyString => None
      end
  | Class p =>
      match s with
      | String c' s' => if p c' then k s' caps else None
      | EmptyString => None
      end
  | Cat r1 r2 => run r1 s caps (fun s' caps' => run r2 s' caps' k)
  | Alt r1 r2 =>
      match run r1 s caps k with
      | Some a => Some a
      | None => run r2 s caps k
      end
  | Star r1 =>
      (fix loop (n : nat) (s : string) (caps : captures) : option A :=
         match n with
         | O => k s caps
         | S n' =>
             match run r1 s caps (fun s' caps' =>
                     if (String.length s' <? String.length s)%nat
                     then loop n' s' caps' else None) with
             | Some a => Some a
             | None => k s caps
             end
         end) (String.length s) s caps
  | EndLine =>
      match s with
      | EmptyString => k s caps
      | String c _ => if Ascii.eqb c newline then k s caps else None
      end
  | Group i r1 =>
      run r1 s caps (fun s' caps' => k s' ((i, consumed s s') :: caps'))
  end.

(** The rest of [s] after the match of [r] at its head, if there is one. *)
Definition matchPrefix (r : regex) (s : string) : option string :=
  run r s [] (fun s' _ => Some s').

(** [Regexp.MatchString]: a match starting anywhere. *)
Fixpoint MatchString (r : regex) (s : string) : bool :=
  match matchPrefix r s with
  | Some _ => true
  | None =>
      match s with
      | String _ s' => MatchString r s'
      | EmptyString => false
      end
  end.

(** [Regexp.FindStringSubmatch]: the text of the leftmost match and its
    captures; [None] stands for the nil slice. *)
Fixpoint FindStringSubmatch (r : regex) (s : string) : option (string * captures) :=
  match run r s [] (fun s' caps => Some (consumed s s', caps)) with
  | Some m => Some m
  | None =>
      match s with
      | String _ s' => FindStringSubmatch r s'
      | EmptyString => None
      end
  end.

(** [Regexp.ReplaceAllString] with an empty replacement, for a pattern
    that matches no empty string: successive leftmost matches are cut out,
    everything else is copied.  [skip] counts the bytes of the current
    match still to drop. *)
Fixpoint cutMatches (r : regex) (skip : nat) (s : string) : string :=
  match s with
  | EmptyString => EmptyString
  | String c s' =>
      match skip with
      | S n => cutMatches r n s'
      | O =>
          match matchPrefix r s with
          | Some rest =>
              match (String.length s - String.length rest)%nat with
              | O => String c (cutMatches r O s')
              | S n => cutMatches r n s'
              end
          | None => String c (cutMatches r O s')
          end
      end
  end.

Definition ReplaceAllEmpty (r : regex) (s : string) : string := cutMatches r O s.

(** Pattern syntax. *)
Fixpoint lit (s : string) : regex :=
  match s with
  | EmptyString => Eps
  | String c s' => Cat (Byte c) (lit s')
  end.

Definition isUpper (c : ascii) : bool := (65 <=? code c) && (code c <=? 90).
Definition isLower (c : ascii) : bool := (97 <=? code c) && (code c <=? 122).
Definition toUpper (c : ascii) : ascii :=
  if isLower c then byte (Z.to_N (code c - 32)) else c.
Definition toLower (c : ascii) : ascii :=
  if isUpper c then byte (Z.to_N (code c + 32)) else c.

(** U+212A KELVIN SIGN and U+017F LATIN SMALL LETTER LONG S, in UTF-8. *)
Definition kelvinSign : string := String (byte 226) (String (byte 132) (String (byte 170) "")).
Definition longS : string := String (byte 197) (String (byte 191) "").

(** One literal byte under [(?i)]: Go folds case with [unicode.SimpleFold],
    so a letter matches both its cases, and k and s also match the two
    non-ASCII members of their fold orbits. *)
Definition foldByte (c : ascii) : regex :=
  if isUpper c || isLower c then
    let both := Alt (Byte (toUpper c)) (Byte (toLower c)) in
    if Ascii.eqb (toLower c) "k" then Alt both (lit kelvinSign)
    else if Ascii.eqb (toLower c) "s" then Alt both (lit longS)
    else both
  else Byte c.

Fixpoint litFold (s : string) : regex :=
  match s with
  | EmptyString => Eps
  | String c s' => Cat (foldByte c) (litFold s')
  end.

Fixpoint alts (l : list regex) : regex :=
  match l with
  | [] => Class (fun _ => false)
  | [r] => r
  | r :: rest => Alt r (alts rest)
  end.

Definition plus (r : regex) : regex := Cat r (Star r).
Definition opt (r : regex) : regex := Alt r Eps.

Definition digit : regex := Class (fun c => (48 <=? code c) && (code c <=? 57)).
(** [\s] is the class of tab, line feed, form feed, carriage return, space. *)
Definition space : regex :=
  Class (fun c => let n := code c in
                  (n =? 9) || (n =? 10) || (n =? 12) || (n =? 13) || (n =? 32)).
(** [.] without the [s] flag: anything but a line feed. *)
Definition dot : regex := Class (fun c => negb (Ascii.eqb c newline)).

(** ** The detector's pattern tables ([NewDetector])

    Each entry is followed by the Go source of the pattern. *)
Definition urgentPatterns : list regex :=
  [ litFold "[Y/n]";                          (* (?i)\[Y/n\] *)
    litFold "[y/N]";                          (* (?i)\[y/N\] *)
    litFold "Permission requested";           (* (?i)Permission requested *)
    litFold "Allow?";                         (* (?i)Allow\? *)
    litFold "Proceed?";                       (* (?i)Proceed\? *)
    litFold "Are you sure";                   (* (?i)Are you sure *)
    litFold "Continue?";                      (* (?i)Continue\? *)
    litFold "(yes/no)";                       (* (?i)\(yes/no\) *)
    litFold "Press any key";                  (* (?i)Press any key *)
    litFold "Hit enter";                      (* (?i)Hit enter *)
    litFold "chat about this";                (* (?i)chat about this *)
    litFold "skip interview and plan";        (* (?i)skip interview and plan *)
    litFold "Ready to submit your answers" ]. (* (?i)Ready to submit your answers *)

Definition thinkingPatterns : list regex :=
  [ litFold "thinking...";                    (* (?i)thinking\.{3} *)
    litFold "thinking…";                      (* (?i)thinking… *)
    litFold "reasoning";                      (* (?i)reasoning *)
    alts (map lit ["⠋"; "⠙"; "⠹"; "⠸"; "⠼"; "⠴"; "⠦"; "⠧"; "⠇"; "⠏"]);
                                              (* ⠋|⠙|⠹|⠸|⠼|⠴|⠦|⠧|⠇|⠏ *)
    lit "Working...";                         (* Working\.\.\. *)
    lit "Processing...";                      (* Processing\.\.\. *)
    lit "(esc to cancel)";                    (* \(esc to cancel\) *)
    Cat (lit "(ctrl") (Cat (Star dot) (lit " to interrupt)"));
                                              (* \(ctrl.* to interrupt\) *)
    Cat (lit "thought for ") (plus digit);    (* thought for \d+ *)
    lit "thinking" ].                         (* thinking *)

Definition idlePatterns : list regex :=
  [ Cat (lit "❯") (Cat (Star space) EndLine);        (* (?m)❯\s*$ *)
    Cat (lit ">") (Cat (Star space) EndLine);        (* (?m)>\s*$ *)
    Cat (lit "claude>") (Cat (Star space) EndLine);  (* (?m)claude>\s*$ *)
    lit "↵ send";                                    (* ↵ send *)
    lit "⏵⏵";                                        (* ⏵⏵ *)
    lit "▐▛███▜▌" ].                                 (* ▐▛███▜▌ *)

Definition promptActivePatterns : list regex := [].

Definition claudePatterns : list regex :=
  [ lit "Claude Code";                        (* Claude Code *)
    lit "claude>";                            (* claude> *)
    lit "❯";                                  (* ❯ *)
    lit "ing... (ctrl" ].                     (* ing\.\.\. \(ctrl *)

(** The pattern \x1b\[[0-9;]*m of [ansiPattern]. *)
Definition ansiPattern : regex :=
  Cat (Byte (byte 27))
    (Cat (Byte "[")
       (Cat (Star (Class (fun c => ((48 <=? code c) && (code c <=? 57)) || (code c =? 59))))
            (Byte "m"))).

(** ** The detector's methods *)
Definition stripANSI (s : string) : string := ReplaceAllEmpty ansiPattern s.

Definition getLastLines (content : string) (n : nat) : string :=
  let lines := splitLines content in
  if (length lines <=? n)%nat then content
  else joinLines (skipn (length lines - n) lines).

(** [for _, pattern := range ps { if pattern.MatchString(s) { return ... } }] *)
Definition anyMatch (ps : list regex) (s : string) : bool :=
  existsb (fun p => MatchString p s) ps.

Definition IsClaudeSession (content : string) : bool :=
  anyMatch claudePatterns (stripANSI content).

Definition DetectState (content lastContent : string) (lastCapture : Time)
  : SessionState :=
  let content := stripANSI content in
  let lines := getLastLines content 20 in
  if anyMatch urgentPatterns lines then StateUrgent
  else if anyMatch thinkingPatterns lines then StateThinking
  else if anyMatch idlePatterns lines then StateIdle
  else StateActive.

(** The three remaining patterns of [NewDetector]. *)
(** tokenPattern: ↓\s*([\d,.]+)k?\s*tokens? *)
Definition tokenPattern : regex :=
  Cat (lit "↓")
    (Cat (Star space)
       (Cat (Group 1 (plus (Class (fun c => ((48 <=? code c) && (code c <=? 57))
                                            || (code c =? 44) || (code c =? 46)))))
          (Cat (opt (Byte "k"))
             (Cat (Star space) (Cat (lit "token") (opt (Byte "s"))))))).

(** thinkingPattern: Thinking, any run without an opening parenthesis, an
    opening parenthesis, (\d+), m?, \s*, (\d+)?, s?, a closing parenthesis. *)
Definition thinkingPattern : regex :=
  Cat (lit "Thinking")
    (Cat (Star (Class (fun c => negb (Ascii.eqb c "("))))
       (Cat (Byte "(")
          (Cat (Group 1 (plus digit))
             (Cat (opt (Byte "m"))
                (Cat (Star space)
                   (Cat (opt (Group 2 (plus digit)))
                      (Cat (opt (Byte "s")) (Byte ")")))))))).

(** modePattern:
    (?i)(plan|code|auto|accept[\s-]?edits?)\s+(?:mode\s+)?on\s+\(shift\+tab *)
Definition modePattern : regex :=
  Cat (Group 1
         (alts [ litFold "plan"; litFold "code"; litFold "auto";
                 Cat (litFold "accept")
                   (Cat (opt (Alt space (Byte "-")))
                      (Cat (litFold "edit") (opt (foldByte "s")))) ]))
    (Cat (plus space)
       (Cat (opt (Cat (litFold "mode") (plus space)))
          (Cat (litFold "on") (Cat (plus space) (litFold "(shift+tab"))))).

Fixpoint lastNonEmpty (revLines : list string) : string :=
  match revLines with
  | [] => EmptyString
  | line :: rest =>
      match TrimSpace line with
      | EmptyString => lastNonEmpty rest
      | trimmed => trimmed
      end
  end.

Definition getLastNonEmptyLine (content : string) : string :=
  lastNonEmpty (rev (splitLines content)).

(** The token count of [ParseInfo]. *)
Definition parseTokens (content : string) : Z :=
  match FindStringSubmatch tokenPattern content with
  | Some (whole, caps) =>
      let numStr := dropCommas (submatch 1 caps) in
      let multiplier := if Contains whole "k token" then 1000 else 1 in
      match ParseFloatDecimal numStr with
      | Some num => int_of_f64 (f64_mul num (f64_of_int multiplier))
      | None => 0
      end
  | None => 0
  end.

(** The thinking time of [ParseInfo], a [time.Duration]. *)
Definition parseThinkingTime (lines : string) : Z :=
  match FindStringSubmatch thinkingPattern lines with
  | Some (whole, caps) =>
      if Contains whole "m" then
        let duration :=
          match Atoi (submatch 1 caps) with
          | Some mins => add64 0 (mul64 mins Minute)
          | None => 0
          end in
        match submatch 2 caps with
        | EmptyString => duration
        | secs =>
            match Atoi secs with
            | Some n => add64 duration (mul64 n Second)
            | None => duration
            end
        end
      else
        match Atoi (submatch 1 caps) with
        | Some secs => add64 0 (mul64 secs Second)
        | None => 0
        end
  | None => 0
  end.

Definition ParseInfo (content : string) : SessionInfo :=
  let content := stripANSI content in
  let lines := getLastLines content 20 in
  {| State := DetectState content "" 0;
     Tokens := parseTokens content;
     ThinkingTime := parseThinkingTime lines;
     LastLine := getLastNonEmptyLine content |}.

Definition DetectMode (content : string) : string :=
  let content := stripANSI content in
  match FindStringSubmatch modePattern content with
  | Some (_, caps) =>
      let mode := ToLowerASCII (submatch 1 caps) in
      if Contains mode "accept" || Contains mode "edit" then "edit" else mode
  | None => EmptyString
  end.

(** The loop of [Star], by name: [run (Star r1) s caps k] is
    [starLoop r1 k (String.length s) s caps]. *)
Section StarLoop.
Context {A : Type}.
Variable r1 : regex.
Variable k : string -> captures -> option A.

Fixpoint starLoop (n : nat) (s : string) (caps : captures) : option A :=
  match n with
  | O => k s caps
  | S n' =>
      match run r1 s caps (fun s' caps' =>
              if (String.length s' <? String.length s)%nat
              then starLoop n' s' caps' else None) with
      | Some a => Some a
      | None => k s caps
      end
  end.
End StarLoop.

(** *** Specification side: what an SGR sequence is

    After the two bytes ESC and an opening bracket: digits and semicolons,
    then the letter m; [sgrRest] gives what follows the sequence. *)
Definition isParam (c : ascii) : bool :=
  ((48 <=? code c) && (code c <=? 57)) || (code c =? 59).

Fixpoint sgrRest (s : string) : option string :=
  match s with
  | EmptyString => None
  | String c s' =>
      if isParam c then sgrRest s'
      else if Ascii.eqb "m" c then Some s' else None
  end.

Definition ansiRest (s : string) : option string :=
  match s with
  | String e (String b s') =>
      if Ascii.eqb (byte 27) e && Ascii.eqb "[" b then sgrRest s' else None
  | _ => None
  end.

(** Whether a byte occurs in a string. *)
Fixpoint hasByte (c : ascii) (s : string) : bool :=
  match s with
  | EmptyString => false
  | String c' s' => Ascii.eqb c c' || hasByte c s'
  end.

Fixpoint allBytes (p : ascii -> bool) (s : string) : bool :=
  match s with
  | EmptyString => true
  | String c s' => p c && allBytes p s'
  end.

(** *** Specification side: what a pattern matches

    [Matches r s s'] : [r] matches at the head of [s] and leaves [s'];
    priorities and captures play no part in it. *)
Inductive Matches : regex -> string -> string -> Prop :=
| M_Eps s : Matches Eps s s
| M_Byte c s : Matches (Byte c) (String c s) s
| M_Class p c s : p c = true -> Matches (Class p) (String c s) s
| M_Cat r1 r2 s s1 s2 :
    Matches r1 s s1 -> Matches r2 s1 s2 -> Matches (Cat r1 r2) s s2
| M_AltL r1 r2 s s' : Matches r1 s s' -> Matches (Alt r1 r2) s s'
| M_AltR r1 r2 s s' : Matches r2 s s' -> Matches (Alt r1 r2) s s'
| M_StarNil r s : Matches (Star r) s s
| M_StarCons r s s1 s2 :
    Matches r s s1 -> Matches (Star r) s1 s2 -> Matches (Star r) s s2
| M_EndLineEnd : Matches EndLine EmptyString EmptyString
| M_EndLineFeed s : Matches EndLine (String newline s) (String newline s)
| M_Group i r s s' : Matches r s s' -> Matches (Group i r) s s'.

(** A pattern without capturing groups. *)
Fixpoint groupFree (r : regex) : bool :=
  match r with
  | Eps | Byte _ | Class _ | EndLine => true
  | Cat r1 r2 | Alt r1 r2 => groupFree r1 && groupFree r2
  | Star r1 => groupFree r1
  | Group _ _ => false
  end.

(** Lower-case ASCII letters other than k and s: under [(?i)] they match
    their two cases and nothing else. *)
Definition plainLetter (c : ascii) : bool :=
  isLower c && negb (Ascii.eqb c "k") && negb (Ascii.eqb c "s").

End Claude.

(* ===================================================================== *)
(** * internal/game: APMTracker, PomodoroTimer, ControlGroups            *)
(* ===================================================================== *)
Module Game.
Import Go.

(** ** APMTracker (apm.go) *)
Record APMTracker := mkAPM {
  actions       : list Time;
  current       : Z;
  windowSeconds : Z
}.

Definition NewAPMTracker (windowSeconds : Z) : APMTracker :=
  {| actions := []; current := 0; windowSeconds := windowSeconds |}.

(** [recalculate(now)]: prune, then re-estimate the rate. *)
Definition recalculate (a : APMTracker) (now : Time) : APMTracker :=
  let cutoff := Time_Add now (mul64 (neg64 (windowSeconds a)) Second) in
  let newActions := List.filter (fun t => Time_After t cutoff) (actions a) in
  let count := Z.of_nat (length newActions) in
  match newActions with
  | [] => {| actions := newActions; current := 0; windowSeconds := windowSeconds a |}
  | first :: _ =>
      let elapsed := Time_Sub now first in
      let elapsed := if elapsed <? Second then Second else elapsed in
      let cur :=
        if elapsed <? Minute
        then int_of_f64 (f64_div (f64_mul (f64_of_int count) (f64_of_int Minute))
                                 (f64_of_int elapsed))
        else count in
      {| actions := newActions; current := cur; windowSeconds := windowSeconds a |}
  end.

Definition RecordAction (a : APMTracker) (t : Time) : APMTracker :=
  recalculate {| actions := (actions a ++ [t])%list; current := current a;
                 windowSeconds := windowSeconds a |} t.

Definition APM_Tick (a : APMTracker) (now : Time) : APMTracker := recalculate a now.

Definition Current (a : APMTracker) : Z := current a.

(** ** PomodoroTimer *)
Inductive PomodoroState :=
| PomodoroStopped
| PomodoroPaused
| PomodoroWork
| PomodoroShortBreak
| PomodoroLongBreak.

Definition PomodoroState_String (s : PomodoroState) : string :=
  match s with
  | PomodoroPaused => "paused"
  | PomodoroWork => "work"
  | PomodoroShortBreak => "short_break"
  | PomodoroLongBreak => "long_break"
  | PomodoroStopped => "stopped"
  end.

(** The two callbacks are closures supplied by the caller; the timer only
    knows whether each is set, and a run records the calls it makes. *)
Inductive Callback :=
| CallOnComplete
| CallOnTick (state : PomodoroState) (remaining : Z).

Record PomodoroTimer := mkPomodoro {
  state       : PomodoroState;
  pausedState : PomodoroState;
  remaining   : Z;
  lastTick    : Time;
  completed   : Z;
  workMinutes             : Z;
  shortBreakMinutes       : Z;
  longBreakMinutes        : Z;
  sessionsBeforeLongBreak : Z;
  onComplete : bool;
  onTick     : bool
}.

Definition NewPomodoroTimer (work short long sessions : Z) (now : Time) : PomodoroTimer :=
  {| state := PomodoroStopped; pausedState := PomodoroStopped; remaining := 0;
     lastTick := now; completed := 0;
     workMinutes := work; shortBreakMinutes := short; longBreakMinutes := long;
     sessionsBeforeLongBreak := sessions; onComplete := false; onTick := false |}.

Definition setRun (p : PomodoroTimer) (s : PomodoroState) (rem : Z) (tick : Time)
  (done : Z) : PomodoroTimer :=
  {| state := s; pausedState := pausedState p; remaining := rem; lastTick := tick;
     completed := done;
     workMinutes := workMinutes p; shortBreakMinutes := shortBreakMinutes p;
     longBreakMinutes := longBreakMinutes p;
     sessionsBeforeLongBreak := sessionsBeforeLongBreak p;
     onComplete := onComplete p; onTick := onTick p |}.

Definition setPaused (p : PomodoroTimer) (s ps : PomodoroState) : PomodoroTimer :=
  {| state := s; pausedState := ps; remaining := remaining p; lastTick := lastTick p;
     completed := completed p;
     workMinutes := workMinutes p; shortBreakMinutes := shortBreakMinutes p;
     longBreakMinutes := longBreakMinutes p;
     sessionsBeforeLongBreak := sessionsBeforeLongBreak p;
     onComplete := onComplete p; onTick := onTick p |}.

(** [Start()]; [now] is the value of [time.Now()]. *)
Definition Start (p : PomodoroTimer) (now : Time) : PomodoroTimer :=
  match state p with
  | PomodoroStopped =>
      setRun p PomodoroWork (mul64 (workMinutes p) Minute) now (completed p)
  | _ => p
  end.

Definition Stop (p : PomodoroTimer) : PomodoroTimer :=
  setRun p PomodoroStopped 0 (lastTick p) (completed p).

Definition Pause (p : PomodoroTimer) : PomodoroTimer :=
  match state p with
  | PomodoroStopped | PomodoroPaused => p
  | s => setPaused p PomodoroPaused s
  end.

Definition Resume (p : PomodoroTimer) (now : Time) : PomodoroTimer :=
  match state p with
  | PomodoroPaused => setRun p (pausedState p) (remaining p) now (completed p)
  | _ => p
  end.

Definition Toggle (p : PomodoroTimer) (now : Time) : PomodoroTimer :=
  match state p with
  | PomodoroStopped => Start p now
  | PomodoroPaused => Resume p now
  | _ => Pause p
  end.

(** [transition()]: called with [remaining] already zeroed. *)
Definition transition (p : PomodoroTimer) : PomodoroTimer * list Callback :=
  match state p with
  | PomodoroWork =>
      let done := add64 (completed p) 1 in
      let p' :=
        if sessionsBeforeLongBreak p <=? done
        then setRun p PomodoroLongBreak (mul64 (longBreakMinutes p) Minute) (lastTick p) 0
        else setRun p PomodoroShortBreak (mul64 (shortBreakMinutes p) Minute) (lastTick p) done in
      (p', if onComplete p then [CallOnComplete] else [])
  | PomodoroShortBreak | PomodoroLongBreak =>
      (setRun p PomodoroWork (mul64 (workMinutes p) Minute) (lastTick p) (completed p), [])
  | _ => (p, [])
  end.

(** [Tick(now)]. *)
Definition Tick (p : PomodoroTimer) (now : Time) : PomodoroTimer * list Callback :=
  match state p with
  | PomodoroStopped | PomodoroPaused => (p, [])
  | _ =>
      let elapsed := Time_Sub now (lastTick p) in
      let '(p', calls) :=
        if elapsed <? remaining p
        then (setRun p (state p) (sub64 (remaining p) elapsed) now (completed p), [])
        else transition (setRun p (state p) 0 now (completed p)) in
      (p', (calls ++ (if onTick p' then [CallOnTick (state p') (remaining p')] else []))%list)
  end.

Definition IsActive (p : PomodoroTimer) : bool :=
  match state p with PomodoroStopped => false | _ => true end.

Definition CompletedCount (p : PomodoroTimer) : Z := completed p.

(** A run of ticks, at the instants of [ts] in order. *)
Definition ticks (p : PomodoroTimer) (ts : list Time) : PomodoroTimer :=
  fold_left (fun q t => fst (Tick q t)) ts p.

(** The instants of a run of ticks never go back, starting from [t0]. *)
Fixpoint nondecreasingFrom (t0 : Time) (ts : list Time) : Prop :=
  match ts with
  | [] => True
  | t :: rest => t0 <= t /\ nondecreasingFrom t rest
  end.

Definition isBreak (s : PomodoroState) : Prop :=
  s = PomodoroShortBreak \/ s = PomodoroLongBreak.

(** [SetState(stateStr, remaining)], used when the saved state is loaded;
    [now] is the value of [time.Now()]. *)
Definition SetState (p : PomodoroTimer) (stateStr : string) (rem : Z) (now : Time)
  : PomodoroTimer :=
  let s :=
    if String.eqb stateStr "paused" then PomodoroPaused
    else if String.eqb stateStr "work" then PomodoroWork
    else if String.eqb stateStr "short_break" then PomodoroShortBreak
    else if String.eqb stateStr "long_break" then PomodoroLongBreak
    else PomodoroStopped in
  setRun p s rem now (completed p).

Definition IsWorking (p : PomodoroTimer) : bool :=
  match state p with PomodoroWork => true | _ => false end.

(** The methods that change a timer, as the steps of a run. *)
Inductive PomodoroOp :=
| DoStart (now : Time)
| DoStop
| DoPause
| DoResume (now : Time)
| DoToggle (now : Time)
| DoTick (now : Time)
| DoSetState (stateStr : string) (rem : Z) (now : Time).

Definition applyPomodoro (p : PomodoroTimer) (o : PomodoroOp) : PomodoroTimer :=
  match o with
  | DoStart now => Start p now
  | DoStop => Stop p
  | DoPause => Pause p
  | DoResume now => Resume p now
  | DoToggle now => Toggle p now
  | DoTick now => fst (Tick p now)
  | DoSetState stateStr rem now => SetState p stateStr rem now
  end.

Definition runPomodoro (p : PomodoroTimer) (ops : list PomodoroOp) : PomodoroTimer :=
  fold_left applyPomodoro ops p.

(** The clock reading of a step, when it takes one. *)
Definition opTime (o : PomodoroOp) : option Time :=
  match o with
  | DoStart now | DoResume now | DoToggle now | DoTick now
  | DoSetState _ _ now => Some now
  | DoStop | DoPause => None
  end.

(** The steps of a run read a clock that never goes back, starting from
    [t0], and restore no negative remaining time. *)
Fixpoint clockOrdered (t0 : Time) (ops : list PomodoroOp) : Prop :=
  match ops with
  | [] => True
  | o :: rest =>
      match o with
      | DoSetState _ rem _ => 0 <= rem <= maxInt64
      | _ => True
      end /\
      match opTime o with
      | Some t => t0 <= t /\ clockOrdered t rest
      | None => clockOrdered t0 rest
      end
  end.

(** What every method preserves: the configuration, and the range of the
    counter of completed work intervals. *)
Definition counterInRange (n : Z) (p : PomodoroTimer) : Prop :=
  sessionsBeforeLongBreak p = n
  /\ 0 <= completed p /\ (completed p = 0 \/ completed p < n).

(** The remaining time is a non-negative duration, the last tick is not
    later than [t], and the configured intervals fit a duration. *)
Definition clockSane (t : Time) (p : PomodoroTimer) : Prop :=
  0 <= remaining p <= maxInt64 /\ lastTick p <= t
  /\ 0 <= workMinutes p <= 153722867
  /\ 0 <= shortBreakMinutes p <= 153722867
  /\ 0 <= longBreakMinutes p <= 153722867.

(** ** ControlGroups *)
Record ControlGroups := mkCG {
  groups       : gmap Z string;
  lastTap      : gmap Z Time;
  tapThreshold : Z
}.

Definition NewControlGroups (doubleTapThresholdMs : Z) : ControlGroups :=
  {| groups := ∅; lastTap := ∅;
     tapThreshold := mul64 doubleTapThresholdMs Millisecond |}.

(** [c.groups[groupNum]]: the empty string when the key is absent. *)
Definition Get (c : ControlGroups) (groupNum : Z) : string :=
  default "" (groups c !! groupNum).

Definition Assign (c : ControlGroups) (groupNum : Z) (session : string) : ControlGroups :=
  {| groups := <[groupNum := session]> (groups c); lastTap := lastTap c;
     tapThreshold := tapThreshold c |}.

Definition Remove (c : ControlGroups) (groupNum : Z) (session : string) : ControlGroups :=
  if String.eqb (Get c groupNum) session
  then {| groups := delete groupNum (groups c); lastTap := lastTap c;
          tapThreshold := tapThreshold c |}
  else c.

Definition RemoveSession (c : ControlGroups) (session : string) : ControlGroups :=
  {| groups := filter (fun kv => kv.2 ≠ session) (groups c); lastTap := lastTap c;
     tapThreshold := tapThreshold c |}.

(** [Cycle(groupNum)]; [now] is the value of [time.Now()].  Returns the
    registry afterwards, the session and the double-tap flag. *)
Definition Cycle (c : ControlGroups) (groupNum : Z) (now : Time)
  : ControlGroups * (string * bool) :=
  let doubleTap :=
    match lastTap c !! groupNum with
    | Some last => Time_Sub now last <? tapThreshold c
    | None => false
    end in
  ({| groups := groups c; lastTap := <[groupNum := now]> (lastTap c);
      tapThreshold := tapThreshold c |},
   (Get c groupNum, doubleTap)).

Definition Count (c : ControlGroups) (groupNum : Z) : Z :=
  if String.eqb (Get c groupNum) "" then 0 else 1.

Definition Contains (c : ControlGroups) (groupNum : Z) (session : string) : bool :=
  String.eqb (Get c groupNum) session.

Definition FirstFreeGroup (c : ControlGroups) : Z :=
  match List.find (fun i => String.eqb (Get c i) "") [1; 2; 3; 4; 5; 6; 7; 8; 9; 10] with
  | Some i => i
  | None => 0
  end.

(** [Current(groupNum)]. *)
Definition CurrentOf (c : ControlGroups) (groupNum : Z) : string := Get c groupNum.

(** [GroupsForSession(session)].  Go ranges over the map in an unspecified
    order; the order of [map_to_list] stands for it. *)
Definition GroupsForSession (c : ControlGroups) (session : string) : list Z :=
  map fst (List.filter (fun kv => String.eqb (snd kv) session)
                       (map_to_list (groups c))).

(** [All()]: a copy of the assignments. *)
Definition All (c : ControlGroups) : gmap Z string := groups c.

(** [Load(groups)]: the assignments are replaced by a copy of [gs]. *)
Definition Load (c : ControlGroups) (gs : gmap Z string) : ControlGroups :=
  {| groups := gs; lastTap := lastTap c; tapThreshold := tapThreshold c |}.

(** ** StreakTracker

    [activeSessions] is a [map[string]bool]; its length is the number of
    keys, whatever the values. *)
Record StreakTracker := mkStreak {
  activeSessions : gmap string bool;
  multiplierCap  : float64
}.

Definition NewStreakTracker (timeoutSeconds : Z) (cap : float64) : StreakTracker :=
  {| activeSessions := ∅; multiplierCap := cap |}.

Definition SetSessionActive (s : StreakTracker) (name : string) (active : bool)
  : StreakTracker :=
  {| activeSessions :=
       if active then <[name := true]> (activeSessions s)
       else delete name (activeSessions s);
     multiplierCap := multiplierCap s |}.

(** [Count()] of the tracker. *)
Definition StreakCount (s : StreakTracker) : Z := Z.of_nat (size (activeSessions s)).

(** [Multiplier()]: the comparison [mult > cap] is false when [cap] is not
    a number. *)
Definition Multiplier (s : StreakTracker) : float64 :=
  let count := Z.of_nat (size (activeSessions s)) in
  if count <=? 1 then f64_of_int 1
  else
    let mult := f64_of_int count in
    if SFltb (multiplierCap s) mult then multiplierCap s else mult.

End Game.

(* ===================================================================== *)
(** * internal/tmux: the data the monitor sees                            *)
(* ===================================================================== *)
Module Tmux.
Import Go.

Record Session := mkSession {
  Name     : string;
  Created  : Time;
  Attached : bool
}.

Record Pane := mkPane {
  WindowIndex : Z;
  PaneIndex   : Z;
  Active      : bool
}.

End Tmux.

(* ===================================================================== *)
(** * internal/daemon/monitor.go                                          *)
(* ===================================================================== *)
Module Daemon.
Import Go.

(** [SessionState]: the record the monitor keeps per tracked session. *)
Record SessionState := mkSessionState {
  Name            : string;
  State           : Claude.SessionState;
  LastContent     : string;
  LastCapture     : Time;
  Tokens          : Z;
  ThinkingTime    : Z;
  LastLine        : string;
  Created         : Time;
  Attached        : bool;
  ClaudePane      : option Tmux.Pane;
  WorkingDir      : string;
  Usage           : option Usage.SessionUsage;
  ClaudeSessionID : string
}.

Inductive EventType :=
| EventSessionDiscovered
| EventSessionClosed
| EventStateChanged
| EventTaskCompleted
| EventUrgent
| EventDebug.

Definition EventType_eqb (a b : EventType) : bool :=
  match a, b with
  | EventSessionDiscovered, EventSessionDiscovered
  | EventSessionClosed, EventSessionClosed
  | EventStateChanged, EventStateChanged
  | EventTaskCompleted, EventTaskCompleted
  | EventUrgent, EventUrgent
  | EventDebug, EventDebug => true
  | _, _ => false
  end.

(** [Event]; the fields [Type], [Session], [State], [Time], [Message]. *)
Record Event := mkEvent {
  evType    : EventType;
  evSession : string;
  evState   : Claude.SessionState;
  evTime    : Time;
  evMessage : string
}.

(** ** The event channel: [make(chan Event, 100)]

    The buffer holds the events sent and not yet received, oldest first.
    A plain send statement [ch <- e] on a buffered channel completes at once
    while the buffer has room and blocks the sender while it is full. *)
Definition eventChCap : nat := 100.

Inductive SendOutcome :=
| Proceeds (buf : list Event)
| Blocks.

Definition chanSend (buf : list Event) (e : Event) : SendOutcome :=
  if (length buf <? eventChCap)%nat then Proceeds (buf ++ [e])%list else Blocks.

(** [debugLog(format, args...)]: [msg] is the formatted text, [now] the
    value of [time.Now()]. *)
Definition debugEvent (msg : string) (now : Time) : Event :=
  {| evType := EventDebug; evSession := ""; evState := Claude.StateUnknown;
     evTime := now; evMessage := msg |}.

Definition debugLog (debug : bool) (buf : list Event) (msg : string) (now : Time)
  : SendOutcome :=
  if negb debug then Proceeds buf
  else chanSend buf (debugEvent msg now).

(** A producer that sends [evs] one after the other while nobody
    receives: it gets through, leaving the buffer shown, or comes to a
    send that blocks. *)
Fixpoint sendAll (buf : list Event) (evs : list Event) : SendOutcome :=
  match evs with
  | [] => Proceeds buf
  | e :: rest =>
      match chanSend buf e with
      | Proceeds buf' => sendAll buf' rest
      | Blocks => Blocks
      end
  end.

(** ** The monitor *)
Record Monitor := mkMonitor {
  sessions      : gmap string SessionState;
  hasStore      : bool;
  debug         : bool;
  usagePollTick : Z
}.

Definition withSessions (m : Monitor) (ss : gmap string SessionState) : Monitor :=
  {| sessions := ss; hasStore := hasStore m; debug := debug m;
     usagePollTick := usagePollTick m |}.

Definition withTick (m : Monitor) (n : Z) : Monitor :=
  {| sessions := sessions m; hasStore := hasStore m; debug := debug m;
     usagePollTick := n |}.

Definition NewMonitor (st : bool) (debugEnv : bool) : Monitor :=
  {| sessions := ∅; hasStore := st; debug := debugEnv; usagePollTick := 0 |}.

(** What the collaborators answer during one cycle: the tmux client, the
    store, the usage package and the clock.  A failed call is [None]; the
    calls whose error the monitor discards return their zero value.  A call
    repeated within one cycle is taken to give the same answer. *)
Record World := mkWorld {
  tmuxIsRunning           : bool;
  tmuxListSessions        : option (list Tmux.Session);
  tmuxListPanes           : string -> option (list Tmux.Pane);
  tmuxCapturePane         : string -> Z -> Z -> option string;
  tmuxCapturePaneDefault  : string -> option string;
  tmuxGetSessionPath      : string -> string;
  storeGetClaudeSessionID : string -> string;
  usageFindActiveSessionID : string -> string;
  usageGetSessionByID     : string -> string -> option Usage.SessionUsage;
  timeNow                 : Time
}.

(** The calls of [debugLog] in [poll] and [findClaudePane], by format. *)
Inductive DebugMsg :=
| MsgTmuxNotRunning
| MsgListSessionsError
| MsgPoll (n : nat)
| MsgListPanesError (session : string)
| MsgCaptureError (session : string)
| MsgClaude (session : string) (pane : option Tmux.Pane).

(** What a cycle does besides updating [sessions], in program order. *)
Inductive Effect :=
| Send (e : Event)
| DebugLog (msg : DebugMsg)
| StoreCreateSession (name : string)
| StoreSetClaudeSessionID (name id : string)
| WatchSession (name workingDir id : string)
| UnwatchSession (name : string).

(** The events a cycle sends that are not debug output. *)
Definition sentEvents (effs : list Effect) : list Event :=
  flat_map (fun e => match e with Send ev => [ev] | _ => [] end) effs.

(** Everything a cycle sends on the channel, in order: its events and,
    when debugging is on, one debug event per call of [debugLog] ([render]
    is [fmt.Sprintf], [clock] the time each call reads). *)
Definition cycleEvents (debug : bool) (render : DebugMsg -> string)
  (clock : DebugMsg -> Time) (effs : list Effect) : list Event :=
  flat_map (fun e =>
              match e with
              | Send ev => [ev]
              | DebugLog msg => if debug then [debugEvent (render msg) (clock msg)] else []
              | _ => []
              end) effs.

(** Whether an effect is the sending of an event of type [t]. *)
Definition sendsType (t : EventType) (e : Effect) : bool :=
  match e with
  | Send ev => EventType_eqb (evType ev) t
  | _ => false
  end.

Definition zeroTime : Time := 0.

(** The identifier a session is given when it is first seen: the one the
    store has for its name, if any; otherwise, when the working directory
    is known, the most recently modified transcript of that directory;
    otherwise none. *)
Definition discoveredID (w : World) (m : Monitor) (name : string) : string :=
  let stored := if hasStore m then storeGetClaudeSessionID w name else "" in
  if negb (String.eqb stored "") then stored
  else if negb (String.eqb (tmuxGetSessionPath w name) "")
       then usageFindActiveSessionID w (tmuxGetSessionPath w name)
       else "".

Fixpoint firstClaudePane (w : World) (session : string) (panes : list Tmux.Pane)
  : option Tmux.Pane * string :=
  match panes with
  | [] => (None, "")
  | p :: rest =>
      match tmuxCapturePane w session (Tmux.WindowIndex p) (Tmux.PaneIndex p) with
      | None => firstClaudePane w session rest
      | Some content =>
          if Claude.IsClaudeSession content then (Some p, content)
          else firstClaudePane w session rest
      end
  end.

Definition findClaudePane (w : World) (session : string)
  : (option Tmux.Pane * string) * list Effect :=
  match tmuxListPanes w session with
  | None => ((None, ""), [DebugLog (MsgListPanesError session)])
  | Some panes => (firstClaudePane w session panes, [])
  end.

(** Lines 231-262 of [poll]: where the session's Claude pane is and what it
    shows; [None] when the loop body ends in [continue]. *)
Definition locate (w : World) (m : Monitor) (ts : Tmux.Session)
  : option (option Tmux.Pane * string) * list Effect :=
  let name := Tmux.Name ts in
  let knownPane :=
    match sessions m !! name with
    | Some existing => ClaudePane existing
    | None => None
    end in
  let '((claudePane, content), effs) :=
    match knownPane with
    | Some kp =>
        match tmuxCapturePane w name (Tmux.WindowIndex kp) (Tmux.PaneIndex kp) with
        | Some c =>
            if Claude.IsClaudeSession c then ((Some kp, c), [])
            else findClaudePane w name
        | None => findClaudePane w name
        end
    | None => findClaudePane w name
    end in
  match claudePane with
  | Some _ => (Some (claudePane, content), effs)
  | None =>
      match tmuxCapturePaneDefault w name with
      | None => (None, (effs ++ [DebugLog (MsgCaptureError name)])%list)
      | Some c =>
          if Claude.IsClaudeSession c then (Some (None, c), effs)
          else (None, effs)
      end
  end.

(** Lines 269-322: first sight of a session. *)
Definition discover (w : World) (now : Time) (m : Monitor) (ts : Tmux.Session)
  (claudePane : option Tmux.Pane) (content : string) : Monitor * list Effect :=
  let name := Tmux.Name ts in
  let state := Claude.DetectState content "" zeroTime in
  let info := Claude.ParseInfo content in
  let workingDir := tmuxGetSessionPath w name in
  let stored := if hasStore m then storeGetClaudeSessionID w name else "" in
  let '(claudeSessionID, storeEffs) :=
    if String.eqb stored "" && negb (String.eqb workingDir "") then
      let found := usageFindActiveSessionID w workingDir in
      (found,
       if hasStore m && negb (String.eqb found "")
       then [StoreCreateSession name; StoreSetClaudeSessionID name found]
       else [])
    else (stored, []) in
  let initialUsage :=
    if negb (String.eqb claudeSessionID "") && negb (String.eqb workingDir "")
    then usageGetSessionByID w workingDir claudeSessionID
    else None in
  let record :=
    {| Name := name; State := state; LastContent := content; LastCapture := now;
       Tokens := Claude.Tokens info; ThinkingTime := Claude.ThinkingTime info;
       LastLine := Claude.LastLine info;
       Created := Tmux.Created ts; Attached := Tmux.Attached ts;
       ClaudePane := claudePane; WorkingDir := workingDir;
       Usage := initialUsage; ClaudeSessionID := claudeSessionID |} in
  (withSessions m (<[name := record]> (sessions m)),
   (storeEffs
    ++ (if negb (String.eqb workingDir "")
        then [WatchSession name workingDir claudeSessionID] else [])
    ++ [Send {| evType := EventSessionDiscovered; evSession := name;
                evState := state; evTime := now; evMessage := "" |}])%list).

(** Lines 323-366: a session that is already tracked. *)
Definition track (now : Time) (m : Monitor) (ts : Tmux.Session)
  (existing : SessionState) (claudePane : option Tmux.Pane) (content : string)
  : Monitor * list Effect :=
  let name := Tmux.Name ts in
  let oldState := State existing in
  let newState :=
    Claude.DetectState content (LastContent existing) (LastCapture existing) in
  let info := Claude.ParseInfo content in
  let record :=
    {| Name := Name existing; State := newState; LastContent := content;
       LastCapture := now;
       Tokens := Claude.Tokens info; ThinkingTime := Claude.ThinkingTime info;
       LastLine := Claude.LastLine info;
       Created := Created existing; Attached := Tmux.Attached ts;
       ClaudePane := claudePane; WorkingDir := WorkingDir existing;
       Usage := Usage existing; ClaudeSessionID := ClaudeSessionID existing |} in
  let ev (t : EventType) (msg : string) :=
    Send {| evType := t; evSession := name; evState := newState; evTime := now;
            evMessage := msg |} in
  (withSessions m (<[name := record]> (sessions m)),
   if Claude.SessionState_eqb oldState newState then []
   else
     ([ev EventStateChanged ""]
      ++ (if Claude.SessionState_eqb oldState Claude.StateThinking
             && (Claude.SessionState_eqb newState Claude.StateIdle
                 || Claude.SessionState_eqb newState Claude.StateActive)
          then [ev EventTaskCompleted ""] else [])
      ++ (if Claude.SessionState_eqb newState Claude.StateUrgent
          then [ev EventUrgent (Claude.LastLine info)] else []))%list).

(** The body of [for _, ts := range tmuxSessions]. *)
Definition pollOne (w : World) (now : Time) (m : Monitor) (ts : Tmux.Session)
  : Monitor * list Effect :=
  let name := Tmux.Name ts in
  match locate w m ts with
  | (None, effs) => (m, effs)
  | (Some (claudePane, content), effs) =>
      let '(m', effs') :=
        match sessions m !! name with
        | None => discover w now m ts claudePane content
        | Some existing => track now m ts existing claudePane content
        end in
      (m', (effs ++ [DebugLog (MsgClaude name claudePane)] ++ effs')%list)
  end.

Definition pollAll (w : World) (now : Time) (tss : list Tmux.Session)
  (acc : Monitor * gset string * list Effect) : Monitor * gset string * list Effect :=
  fold_left
    (fun '(m, seen, effs) ts =>
       let '(m', effs') := pollOne w now m ts in
       (m', {[Tmux.Name ts]} ∪ seen, (effs ++ effs')%list))
    tss acc.

(** Lines 369-381: sessions that tmux no longer lists.  Go ranges over the
    map in an unspecified order; the order of [map_to_list] stands for it. *)
Definition closeUnseen (now : Time) (m : Monitor) (seen : gset string)
  : Monitor * list Effect :=
  let gone :=
    List.filter (fun name => bool_decide (name ∉ seen))
                (map fst (map_to_list (sessions m))) in
  (withSessions m (filter (fun kv => kv.1 ∈ seen) (sessions m)),
   flat_map (fun name =>
               [UnwatchSession name;
                Send {| evType := EventSessionClosed; evSession := name;
                        evState := Claude.StateUnknown; evTime := now;
                        evMessage := "" |}]) gone).

(** [poll()]. *)
Definition poll (m : Monitor) (w : World) : Monitor * list Effect :=
  if negb (tmuxIsRunning w) then (m, [DebugLog MsgTmuxNotRunning])
  else
    match tmuxListSessions w with
    | None => (m, [DebugLog MsgListSessionsError])
    | Some tss =>
        let now := timeNow w in
        let '(m1, seen, effs) :=
          pollAll w now tss (m, ∅, [DebugLog (MsgPoll (length tss))]) in
        let '(m2, closing) := closeUnseen now m1 seen in
        (m2, (effs ++ closing)%list)
    end.

(** [updateUsage()]: every tracked session with a working directory is
    refreshed from [usage.GetSessionByID], called with the identifier stored
    in the record; an error or a nil result leaves the record alone. *)
Definition refreshUsage (w : World) (s : SessionState) : SessionState :=
  if String.eqb (WorkingDir s) "" then s
  else
    match usageGetSessionByID w (WorkingDir s) (ClaudeSessionID s) with
    | None => s
    | Some u =>
        {| Name := Name s; State := State s; LastContent := LastContent s;
           LastCapture := LastCapture s; Tokens := Tokens s;
           ThinkingTime := ThinkingTime s; LastLine := LastLine s;
           Created := Created s; Attached := Attached s;
           ClaudePane := ClaudePane s; WorkingDir := WorkingDir s;
           Usage := Some u; ClaudeSessionID := ClaudeSessionID s |}
    end.

Definition updateUsage (m : Monitor) (w : World) : Monitor :=
  withSessions m (refreshUsage w <$> sessions m).

(** One turn of the [ticker.C] case of [pollLoop]: [wu] is what the usage
    package answers when the refresh runs. *)
Definition loopIteration (m : Monitor) (w wu : World) : Monitor * list Effect :=
  let '(m1, effs) := poll m w in
  let n := add64 (usagePollTick m1) 1 in
  if 5 <=? n then (updateUsage (withTick m1 0) wu, effs)
  else (withTick m1 n, effs).

(** The operations of the monitor that touch [sessions]. *)
Inductive Op :=
| OpPoll (w : World)
| OpUpdateUsage (w : World)
| OpLoopIteration (w wu : World).

Definition applyOp (m : Monitor) (o : Op) : Monitor :=
  match o with
  | OpPoll w => fst (poll m w)
  | OpUpdateUsage w => updateUsage m w
  | OpLoopIteration w wu => fst (loopIteration m w wu)
  end.

(** The session [name] stays tracked through the whole run. *)
Fixpoint trackedThroughout (name : string) (m : Monitor) (ops : list Op) : Prop :=
  is_Some (sessions m !! name) /\
  match ops with
  | [] => True
  | o :: rest => trackedThroughout name (applyOp m o) rest
  end.

(** The closure event of a session, and whether an effect is its sending. *)
Definition closedEvent (now : Time) (name : string) : Event :=
  {| evType := EventSessionClosed; evSession := name;
     evState := Claude.StateUnknown; evTime := now; evMessage := "" |}.

Definition closes (name : string) (e : Effect) : bool :=
  match e with
  | Send ev => EventType_eqb (evType ev) EventSessionClosed && String.eqb (evSession ev) name
  | _ => false
  end.

(** Every record is filed under its own name. *)
Definition filedByName (m : Monitor) : Prop :=
  forall n s, sessions m !! n = Some s -> Name s = n.

(** Debug output, as opposed to events and calls of the store. *)
Definition isDebugLog (e : Effect) : Prop :=
  match e with DebugLog _ => True | _ => False end.

End Daemon.

(* ===================================================================== *)
(** * internal/tui: the path picker                                       *)
(* ===================================================================== *)
Module Tui.
Import Go.

(** [truncatePath(path, maxLen)]; lengths and slices count bytes, and the
    separator is the slash.
    [path[:n]] is [substring 0 n path] and [path[k:]] the rest from [k]. *)
Definition truncatePath (path : string) (maxLen : Z) : string :=
  let len := Z.of_nat (String.length path) in
  if len <=? maxLen then path
  else if maxLen <=? 3 then "..."
  else
    let parts := SplitByte "/" path in
    if (Z.of_nat (length parts) <=? 2)
    then String.substring 0 (Z.to_nat (maxLen - 3)) path ++ "..."
    else "..." ++ String.substring (Z.to_nat (len - maxLen + 3))
                                   (Z.to_nat (maxLen - 3)) path.

End Tui.

(* ===================================================================== *)
(** * Test data of the repository, and small concrete scenarios           *)
(* ===================================================================== *)
Module Fixtures.
Import Go.

(** JSON text is written with an apostrophe where the file has a double
    quote. *)
Fixpoint dq (s : string) : string :=
  match s with
  | EmptyString => EmptyString
  | String c s' => String (if Ascii.eqb c "'" then byte 34 else c) (dq s')
  end.

(** parser_test.go, [TestParseSessionFile]: the four lines of the session
    file, as the scanner delivers them. *)
Definition testTranscript : Usage.Scan :=
  {| Usage.scanLines :=
       [ dq "{'type':'user','message':'hello'}";
         dq "{'type':'assistant','message':{'model':'claude-sonnet-4-20250514','usage':{'input_tokens':100,'output_tokens':50,'cache_creation_input_tokens':200,'cache_read_input_tokens':300}}}";
         dq "{'type':'user','message':'world'}";
         dq "{'type':'assistant','message':{'model':'claude-sonnet-4-20250514','usage':{'input_tokens':150,'output_tokens':75,'cache_creation_input_tokens':0,'cache_read_input_tokens':500}}}" ];
     Usage.scanErr := None |}.

(** detector_test.go, [TestDetectState]: contents and expected states. *)
Definition detectStateTests : list (string * Claude.SessionState) :=
  [ ("Allow execution? [Y/n]", Claude.StateUrgent);
    ("Permission requested for bash", Claude.StateUrgent);
    ("✽ Thinking... (ctrl+c to cancel)", Claude.StateThinking);
    ("thinking...", Claude.StateThinking);
    ("Thinking…", Claude.StateThinking);
    ("Reasoning about the problem", Claude.StateThinking);
    ("Working (esc to cancel)", Claude.StateThinking);
    ("Processing (ctrl+c to interrupt)", Claude.StateThinking);
    ("⠋ Loading", Claude.StateThinking);
    ("(ctrl+c to interrupt · thought for 5s)", Claude.StateThinking);
    (joinLines ["some output"; "❯ "], Claude.StateIdle);
    (joinLines [" ▐▛███▜▌   Claude Code v2.1.12"; "▝▜█████▛▘  Opus 4.5"], Claude.StateIdle);
    ("? for shortcuts", Claude.StateActive);
    ("accept edits on (shift+tab to cycle)", Claude.StateActive);
    ("plan mode on (shift+tab to cycle)", Claude.StateActive) ].

(** detector_test.go, [TestIsClaudeSession]. *)
Definition isClaudeSessionTests : list (string * bool) :=
  [ ("", false);
    ("hello world", false);
    (joinLines ["some output"; "❯"], true);
    ("✽ Thinking... (ctrl+c to cancel)", true);
    ("Claude Code version 1.0", true) ].

(** detector_test.go, [TestParseInfo] and [TestDetectMode]. *)
Definition parseInfoTests : list (string * Z) :=
  [ ("hello world", 0); ("↓ 500 tokens", 500); ("↓ 3.3k tokens", 3300) ].

Definition detectModeTests : list (string * string) :=
  [ ("plan mode on (shift+tab to cycle)", "plan");
    ("code mode on (shift+tab to cycle)", "code");
    ("auto mode on (shift+tab to cycle)", "auto");
    ("accept edits on (shift+tab to cycle)", "edit");
    ("PLAN mode on (shift+tab to cycle)", "plan");
    ("some content", "");
    ("mode on (shift+tab", "") ].

(** A pane that shows a spinner, a permission prompt in green and, below
    it, a bare prompt glyph: thinking, urgent and idle patterns all match. *)
Definition esc : string := String (byte 27) "".
Definition promptUnderQuestion : string :=
  joinLines [ "⠋ Working...";
              esc ++ "[1;32mAllow execution?" ++ esc ++ "[0m [Y/n]";
              "❯ " ].

(** One tmux session, "work", with a single pane: first showing Claude at
    work, then a bare prompt, then gone from the listing. *)
Definition workSession : Tmux.Session := Tmux.mkSession "work" 100 true.
Definition pane0 : Tmux.Pane := Tmux.mkPane 0 0 true.

Definition world (content : string) (listed : bool) (newest : string) (now : Time)
  : Daemon.World :=
  {| Daemon.tmuxIsRunning := true;
     Daemon.tmuxListSessions := Some (if listed then [workSession] else []);
     Daemon.tmuxListPanes := fun _ => Some [pane0];
     Daemon.tmuxCapturePane := fun _ _ _ => Some content;
     Daemon.tmuxCapturePaneDefault := fun _ => Some content;
     Daemon.tmuxGetSessionPath := fun _ => "/home/u/proj";
     Daemon.storeGetClaudeSessionID := fun _ => "";
     Daemon.usageFindActiveSessionID := fun _ => newest;
     Daemon.usageGetSessionByID := fun _ _ => None;
     Daemon.timeNow := now |}.

Definition worldThinking : Daemon.World :=
  world "✽ Thinking... (ctrl+c to cancel)" true "abc123" 5.
Definition worldPrompt : Daemon.World :=
  world (joinLines ["some output"; "❯ "]) true "def456" 6.
Definition worldGone : Daemon.World := world "" false "def456" 7.

Definition monitorThinking : Daemon.Monitor :=
  fst (Daemon.poll (Daemon.NewMonitor true false) worldThinking).

Definition recordThinking : Daemon.SessionState :=
  {| Daemon.Name := "work"; Daemon.State := Claude.StateThinking;
     Daemon.LastContent := "✽ Thinking... (ctrl+c to cancel)";
     Daemon.LastCapture := 5; Daemon.Tokens := 0; Daemon.ThinkingTime := 0;
     Daemon.LastLine := "✽ Thinking... (ctrl+c to cancel)";
     Daemon.Created := 100; Daemon.Attached := true;
     Daemon.ClaudePane := Some pane0; Daemon.WorkingDir := "/home/u/proj";
     Daemon.Usage := None; Daemon.ClaudeSessionID := "abc123" |}.

End Fixtures.

(* ********************************************************************* *)
(** * Properties                                                          *)
(* ********************************************************************* *)

(* ===================================================================== *)
(** ** Machine arithmetic                                                 *)
(* ===================================================================== *)
Module GoFacts.
Import Go.

Lemma wrap64_range z : inInt64 (wrap64 z).
Proof.
  unfold inInt64, wrap64, minInt64, maxInt64.
  pose proof (Z.mod_pos_bound (z + 2 ^ 63) (2 ^ 64) ltac:(lia)). lia.
Qed.

Lemma wrap64_small z : inInt64 z -> wrap64 z = z.
Proof.
  unfold inInt64, wrap64, minInt64, maxInt64. intros H.
  rewrite Z.mod_small; lia.
Qed.

Lemma wrap64_shift z : exists k, wrap64 z = z + k * 2 ^ 64.
Proof.
  unfold wrap64. exists (- ((z + 2 ^ 63) / 2 ^ 64)).
  pose proof (Z.div_mod (z + 2 ^ 63) (2 ^ 64) ltac:(lia)). lia.
Qed.

Lemma wrap64_congr a b k : a = b + k * 2 ^ 64 -> wrap64 a = wrap64 b.
Proof.
  intros ->. unfold wrap64. f_equal.
  replace (b + k * 2 ^ 64 + 2 ^ 63) with (b + 2 ^ 63 + k * 2 ^ 64) by lia.
  apply Z_mod_plus_full.
Qed.

Lemma wrap64_add_l a b : wrap64 (wrap64 a + b) = wrap64 (a + b).
Proof.
  destruct (wrap64_shift a) as [k ->]. apply (wrap64_congr _ _ k). lia.
Qed.

Lemma wrap64_add_r a b : wrap64 (a + wrap64 b) = wrap64 (a + b).
Proof. rewrite (Z.add_comm a), wrap64_add_l. f_equal. lia. Qed.

Lemma add64_comm a b : add64 a b = add64 b a.
Proof. unfold add64. f_equal. lia. Qed.

Lemma add64_assoc a b c : add64 (add64 a b) c = add64 a (add64 b c).
Proof. unfold add64. rewrite wrap64_add_l, wrap64_add_r. f_equal. lia. Qed.

Lemma Time_Sub_exact t u : inInt64 (t - u) -> Time_Sub t u = t - u.
Proof.
  unfold inInt64, Time_Sub. intros [H1 H2].
  destruct (Z.ltb_spec (t - u) minInt64); [lia|].
  destruct (Z.ltb_spec maxInt64 (t - u)); [lia|]. reflexivity.
Qed.

(** The last element of a non-empty list does not depend on the default. *)
Lemma last_cons_default {A} (x d : A) l : List.last (x :: l) d = List.last l x.
Proof.
  revert x d. induction l as [|y l IH]; intros x d; [reflexivity|].
  change (List.last (x :: y :: l) d) with (List.last (y :: l) d).
  now rewrite !IH.
Qed.

End GoFacts.

(* ===================================================================== *)
(** ** internal/usage                                                     *)
(* ===================================================================== *)
Module UsageProps.
Import Go GoFacts Usage.

Lemma Add_comm a b : Add a b = Add b a.
Proof. unfold Add. f_equal; apply add64_comm. Qed.

Lemma Add_assoc a b c : Add (Add a b) c = Add a (Add b c).
Proof. unfold Add; simpl. f_equal; apply add64_assoc. Qed.

Lemma TotalInput_wrap a :
  TotalInput a =
  wrap64 (InputTokens a + CacheCreationInputTokens a + CacheReadInputTokens a).
Proof. unfold TotalInput, add64. apply wrap64_add_l. Qed.

(** C5. [TotalInput] is the sum of the input, cache-creation and cache-read
    counters, and [Add] is the componentwise sum of the four counters, so it
    is commutative and associative, for all [TokenUsage] values.  The sums
    are those of Go's [int64]: taken modulo 2^64, and equal to the integer
    sum whenever that fits in an [int64]. *)
Theorem TokenUsage_algebra (a b c : TokenUsage) :
  TotalInput a =
    add64 (add64 (InputTokens a) (CacheCreationInputTokens a)) (CacheReadInputTokens a)
  /\ TotalInput a =
       wrap64 (InputTokens a + CacheCreationInputTokens a + CacheReadInputTokens a)
  /\ (inInt64 (InputTokens a + CacheCreationInputTokens a + CacheReadInputTokens a) ->
      TotalInput a =
        InputTokens a + CacheCreationInputTokens a + CacheReadInputTokens a)
  /\ InputTokens (Add a b) = add64 (InputTokens a) (InputTokens b)
  /\ OutputTokens (Add a b) = add64 (OutputTokens a) (OutputTokens b)
  /\ CacheCreationInputTokens (Add a b) =
       add64 (CacheCreationInputTokens a) (CacheCreationInputTokens b)
  /\ CacheReadInputTokens (Add a b) =
       add64 (CacheReadInputTokens a) (CacheReadInputTokens b)
  /\ Add a b = Add b a
  /\ Add (Add a b) c = Add a (Add b c).
Proof.
  split; [reflexivity|].
  split; [apply TotalInput_wrap|].
  split; [intros H; rewrite TotalInput_wrap; now apply wrap64_small|].
  repeat (split; [reflexivity|]).
  split; [apply Add_comm | apply Add_assoc].
Qed.

(** The two usage records of parser_test.go ([TestTokenUsageAdd]): the sums
    are the integer sums, commutativity and associativity included. *)
Lemma TokenUsage_algebra_witness :
  let a := mkTokenUsage 100 50 200 300 in
  let b := mkTokenUsage 50 25 100 150 in
  TotalInput a = 600 /\ Add a b = mkTokenUsage 150 75 300 450 /\ Add a b = Add b a.
Proof.
  intros a b.
  destruct (TokenUsage_algebra a b a) as (_ & _ & H3 & _ & _ & _ & _ & H8 & _).
  split.
  - apply H3. vm_compute. split; discriminate.
  - split; [vm_compute; reflexivity | exact H8].
Defined.

Section ParserProps.

Variable jsonUnmarshal : string -> option jsonlMessage.
Variable filepath_Base filepath_Dir : string -> string.
Variable TrimSuffix : string -> string -> string.

(** [json.Unmarshal] reports "unexpected end of JSON input" on no input. *)
Hypothesis unmarshal_empty : jsonUnmarshal "" = None.

Lemma length_zero_empty (s : string) : (String.length s =? 0)%nat = true -> s = "".
Proof. destruct s; [reflexivity | discriminate]. Qed.

Lemma scanStep_records usage line :
  scanStep jsonUnmarshal usage line =
  fold_left absorb (assistantRecords jsonUnmarshal [line]) usage.
Proof.
  unfold scanStep, assistantRecords; simpl.
  destruct (String.length line =? 0)%nat eqn:E.
  - apply length_zero_empty in E. subst line. now rewrite unmarshal_empty.
  - destruct (jsonUnmarshal line) as [msg|]; [|reflexivity].
    destruct (String.eqb (msgType msg) "assistant"); reflexivity.
Qed.

Lemma assistantRecords_cons line lines :
  assistantRecords jsonUnmarshal (line :: lines) =
  (assistantRecords jsonUnmarshal [line] ++ assistantRecords jsonUnmarshal lines)%list.
Proof. unfold assistantRecords; simpl. now rewrite app_nil_r. Qed.

Lemma scan_records lines : forall usage,
  fold_left (scanStep jsonUnmarshal) lines usage =
  fold_left absorb (assistantRecords jsonUnmarshal lines) usage.
Proof.
  induction lines as [|line lines IH]; intros usage; [reflexivity|].
  rewrite assistantRecords_cons, fold_left_app. simpl fold_left at 1.
  now rewrite IH, scanStep_records.
Qed.

Lemma absorb_total usage msg :
  TotalUsage (absorb usage msg) = Add (TotalUsage usage) (msgUsage msg).
Proof. unfold absorb. destruct (negb _); reflexivity. Qed.

Lemma absorb_model usage msg :
  Model (absorb usage msg) =
  if negb (String.eqb (msgModel msg) "") then msgModel msg else Model usage.
Proof. unfold absorb. destruct (negb _); reflexivity. Qed.

Lemma fold_absorb_total rs : forall usage,
  TotalUsage (fold_left absorb rs usage) =
  fold_left Add (map msgUsage rs) (TotalUsage usage).
Proof.
  induction rs as [|r rs IH]; intros usage; simpl; [reflexivity|].
  now rewrite IH, absorb_total.
Qed.

(** Each counter of a running [Add] is the wrapped sum of that counter. *)
Lemma fold_Add_counter (f : TokenUsage -> Z)
  (Hf : forall a b, f (Add a b) = add64 (f a) (f b)) us : forall t,
  inInt64 (f t) ->
  f (fold_left Add us t) = wrap64 (f t + sumZ (map f us)).
Proof.
  induction us as [|u us IH]; intros t Ht; simpl.
  - rewrite Z.add_0_r. symmetry. now apply wrap64_small.
  - rewrite IH by (rewrite Hf; apply wrap64_range).
    rewrite Hf. unfold add64. rewrite wrap64_add_l. f_equal. lia.
Qed.

Lemma fold_Add_spec rs :
  fold_left Add (map msgUsage rs) zeroUsage = specTotal rs.
Proof.
  assert (Z0 : inInt64 0) by (unfold inInt64, minInt64, maxInt64; lia).
  unfold specTotal, counterSum.
  pose proof (fold_Add_counter InputTokens (fun _ _ => eq_refl) (map msgUsage rs) zeroUsage Z0) as H1.
  pose proof (fold_Add_counter OutputTokens (fun _ _ => eq_refl) (map msgUsage rs) zeroUsage Z0) as H2.
  pose proof (fold_Add_counter CacheCreationInputTokens (fun _ _ => eq_refl) (map msgUsage rs) zeroUsage Z0) as H3.
  pose proof (fold_Add_counter CacheReadInputTokens (fun _ _ => eq_refl) (map msgUsage rs) zeroUsage Z0) as H4.
  rewrite map_map in H1, H2, H3, H4. simpl in H1, H2, H3, H4.
  destruct (fold_left Add (map msgUsage rs) zeroUsage); simpl in *.
  now subst.
Qed.

Lemma fold_absorb_model rs : forall usage,
  Model (fold_left absorb rs usage) =
  List.last (List.filter (fun m => negb (String.eqb m "")) (map msgModel rs))
            (Model usage).
Proof.
  induction rs as [|r rs IH]; intros usage; simpl; [reflexivity|].
  rewrite IH, absorb_model.
  destruct (negb (String.eqb (msgModel r) "")); [|reflexivity].
  now rewrite last_cons_default.
Qed.

(** C6. For every sequence of lines the scanner delivers, the usage that
    [ParseSessionFile] returns has, in each of its four counters, the sum of
    that counter over exactly the lines that [json.Unmarshal] accepts as
    records of type "assistant" (the [int64] sum, which is the integer sum
    whenever that fits); its model is the model of the last such record
    that names one; and a line that does not decode, or decodes to a record
    of another type, leaves the running usage as it was. *)
Theorem ParseSessionFile_accumulates (path : string) (now : Time) (sc : Scan) :
  exists usage,
    ParseSessionFile jsonUnmarshal filepath_Base filepath_Dir TrimSuffix
      path now (Some sc) = (Some usage, scanErr sc)
    /\ TotalUsage usage = specTotal (assistantRecords jsonUnmarshal (scanLines sc))
    /\ Model usage = specModel (assistantRecords jsonUnmarshal (scanLines sc))
    /\ (forall counter rs,
          inInt64 (sumZ (map (fun r => counter (msgUsage r)) rs)) ->
          counterSum counter rs = sumZ (map (fun r => counter (msgUsage r)) rs))
    /\ (forall running line,
          (forall msg, jsonUnmarshal line = Some msg ->
                       String.eqb (msgType msg) "assistant" = false) ->
          scanStep jsonUnmarshal running line = running).
Proof.
  eexists. split; [reflexivity|].
  rewrite scan_records. split; [|split; [|split]].
  - rewrite fold_absorb_total. apply fold_Add_spec.
  - now rewrite fold_absorb_model.
  - intros counter rs H. unfold counterSum. now apply wrap64_small.
  - intros running line H. unfold scanStep.
    destruct (String.length line =? 0)%nat; [reflexivity|].
    destruct (jsonUnmarshal line) as [msg|] eqn:E; [|reflexivity].
    now rewrite (H msg eq_refl).
Qed.

(** *** The other readers: [SumUsageFromDir], [ParseSessionFileTail] *)



Lemma Add_in_range a b : countersInRange (Add a b).
Proof. unfold countersInRange, Add; simpl. repeat split; apply wrap64_range. Qed.

Lemma Add_zero_r t : countersInRange t -> Add t zeroUsage = t.
Proof.
  intros (H1 & H2 & H3 & H4). destruct t; unfold Add, add64; simpl in *.
  rewrite !Z.add_0_r, !wrap64_small by assumption. reflexivity.
Qed.

Lemma fold_Add_in_range us : forall t, countersInRange t -> countersInRange (fold_left Add us t).
Proof.
  induction us as [|u us IH]; intros t H; simpl; [exact H|]. apply IH, Add_in_range.
Qed.

Lemma fold_Add_shift us : forall t,
  countersInRange t -> Add t (fold_left Add us zeroUsage) = fold_left Add us t.
Proof.
  induction us as [|u us IH] using rev_ind; intros t H; simpl.
  - now apply Add_zero_r.
  - rewrite !fold_left_app. simpl. rewrite <- Add_assoc. now rewrite IH.
Qed.

Lemma sumStep_records fs now file total :
  countersInRange total ->
  match ParseSessionFile jsonUnmarshal filepath_Base filepath_Dir TrimSuffix
          file now (fs file) with
  | (Some usage, None) => Add total (TotalUsage usage)
  | _ => total
  end
  = fold_left Add (map msgUsage (assistantRecords jsonUnmarshal (readableLines fs file)))
              total.
Proof.
  intros H. unfold ParseSessionFile, readableLines.
  destruct (fs file) as [sc|]; [|reflexivity].
  destruct (scanErr sc); [reflexivity|].
  rewrite scan_records, fold_absorb_total. simpl TotalUsage.
  now apply fold_Add_shift.
Qed.

Lemma assistantRecords_app l1 l2 :
  assistantRecords jsonUnmarshal (l1 ++ l2)%list
  = (assistantRecords jsonUnmarshal l1 ++ assistantRecords jsonUnmarshal l2)%list.
Proof. unfold assistantRecords. apply flat_map_app. Qed.

Lemma sumFold_records fs now files : forall total,
  countersInRange total ->
  fold_left
    (fun total file =>
       match ParseSessionFile jsonUnmarshal filepath_Base filepath_Dir TrimSuffix
               file now (fs file) with
       | (Some usage, None) => Add total (TotalUsage usage)
       | _ => total
       end) files total
  = fold_left Add
      (map msgUsage (assistantRecords jsonUnmarshal (flat_map (readableLines fs) files)))
      total.
Proof.
  induction files as [|file files IH]; intros total H; [reflexivity|].
  simpl fold_left at 1. rewrite sumStep_records by exact H.
  rewrite IH by (now apply fold_Add_in_range).
  simpl flat_map. rewrite assistantRecords_app, map_app, fold_left_app. reflexivity.
Qed.

Lemma sumZ_Permutation l l' : Permutation l l' -> sumZ l = sumZ l'.
Proof. unfold sumZ. induction 1; simpl; lia. Qed.

Lemma specTotal_Permutation rs rs' : Permutation rs rs' -> specTotal rs = specTotal rs'.
Proof.
  intros P. unfold specTotal, counterSum.
  f_equal; f_equal; apply sumZ_Permutation; now apply Permutation_map.
Qed.

Lemma flat_map_Permutation {A B} (f : A -> list B) l l' :
  Permutation l l' -> Permutation (flat_map f l) (flat_map f l').
Proof.
  induction 1; simpl.
  - constructor.
  - now apply Permutation_app_head.
  - rewrite !app_assoc. apply Permutation_app_tail, Permutation_app_comm.
  - etransitivity; eassumption.
Qed.

(** X12. [SumUsageFromDir] returns, in each counter, the [int64] sum of
    that counter over the assistant records of all the files that open
    and scan without error, the others contributing nothing; hence the
    total does not depend on the order in which the files are listed. *)
Theorem SumUsageFromDir_total (files : list string) (fs : string -> option Scan)
  (now : Time) :
  SumUsageFromDir jsonUnmarshal filepath_Base filepath_Dir TrimSuffix
    (Some files) fs now
  = Some (specTotal (assistantRecords jsonUnmarshal (flat_map (readableLines fs) files)))
  /\ (forall files', Permutation files files' ->
        SumUsageFromDir jsonUnmarshal filepath_Base filepath_Dir TrimSuffix
          (Some files') fs now
        = SumUsageFromDir jsonUnmarshal filepath_Base filepath_Dir TrimSuffix
            (Some files) fs now)
  /\ SumUsageFromDir jsonUnmarshal filepath_Base filepath_Dir TrimSuffix None fs now
     = None.
Proof.
  assert (Z0 : countersInRange zeroUsage).
  { unfold countersInRange, inInt64, minInt64, maxInt64; simpl. lia. }
  assert (E : forall l,
    SumUsageFromDir jsonUnmarshal filepath_Base filepath_Dir TrimSuffix (Some l) fs now
    = Some (specTotal (assistantRecords jsonUnmarshal (flat_map (readableLines fs) l)))).
  { intros l. unfold SumUsageFromDir. f_equal.
    rewrite sumFold_records by exact Z0. apply fold_Add_spec. }
  split; [apply E|]. split; [|reflexivity].
  intros files' P. rewrite !E. f_equal. apply specTotal_Permutation.
  unfold assistantRecords. apply flat_map_Permutation, flat_map_Permutation.
  now symmetry.
Qed.

Lemma tailFold_records lines : forall usage,
  snd (fold_left (tailStep jsonUnmarshal) lines (false, usage))
  = fold_left (scanStep jsonUnmarshal) lines usage.
Proof.
  induction lines as [|line lines IH]; intros usage; [reflexivity|].
  simpl. apply IH.
Qed.

(** X13. On a file larger than [tailBytes], [ParseSessionFileTail] drops
    the first line the scanner delivers after the seek, whole or not, and
    accumulates the remaining ones as [ParseSessionFile] does; it reports
    no error even when the scan ended in one.  On a file of at most
    [tailBytes] bytes it is [ParseSessionFile]. *)
Theorem ParseSessionFileTail_skips_first
  (path : string) (tailBytes size : Z) (now : Time) (sc : Scan) (reopen : option Scan) :
  (tailBytes < size ->
   exists usage,
     ParseSessionFileTail jsonUnmarshal filepath_Base filepath_Dir TrimSuffix
       path tailBytes now (Some (mkTailFile (Some size) (Some sc) reopen))
     = (Some usage, None)
     /\ TotalUsage usage
        = specTotal (assistantRecords jsonUnmarshal (List.tl (scanLines sc)))
     /\ Model usage
        = specModel (assistantRecords jsonUnmarshal (List.tl (scanLines sc)))
     /\ Some usage
        = fst (ParseSessionFile jsonUnmarshal filepath_Base filepath_Dir TrimSuffix
                 path now (Some (mkScan (List.tl (scanLines sc)) None))))
  /\ (size <= tailBytes ->
      ParseSessionFileTail jsonUnmarshal filepath_Base filepath_Dir TrimSuffix
        path tailBytes now (Some (mkTailFile (Some size) (Some sc) reopen))
      = ParseSessionFile jsonUnmarshal filepath_Base filepath_Dir TrimSuffix
          path now reopen).
Proof.
  split; intros H; unfold ParseSessionFileTail; simpl.
  - destruct (Z.leb_spec size tailBytes); [lia|].
    eexists. split; [reflexivity|].
    assert (E : forall u,
      snd (fold_left (tailStep jsonUnmarshal) (scanLines sc) (true, u))
      = fold_left (scanStep jsonUnmarshal) (List.tl (scanLines sc)) u).
    { intros u. destruct (scanLines sc) as [|l ls]; [reflexivity|].
      simpl. apply tailFold_records. }
    rewrite E, scan_records.
    split; [rewrite fold_absorb_total; apply fold_Add_spec|].
    split; [now rewrite fold_absorb_model|].
    reflexivity.
  - destruct (Z.leb_spec size tailBytes); [reflexivity|lia].
Qed.

(** *** [FindActiveSessionID] *)


Lemma mostRecentFile_fold stat files :
  mostRecentFile stat files = fold_left (recentStep stat) files ("", 0).
Proof.
  unfold mostRecentFile. generalize ("", 0). 
  induction files as [|f files IH]; intros acc; [reflexivity|].
  simpl. rewrite <- IH. f_equal. unfold recentStep. destruct acc as [b t]. reflexivity.
Qed.

Lemma recent_older stat files : forall acc,
  (forall f mt, In f files -> stat f = Some mt -> mt <= snd acc) ->
  fold_left (recentStep stat) files acc = acc.
Proof.
  induction files as [|f files IH]; intros acc H; [reflexivity|].
  simpl. assert (E : recentStep stat acc f = acc).
  { unfold recentStep. destruct (stat f) as [mt|] eqn:S; [|reflexivity].
    specialize (H f mt (or_introl eq_refl) S).
    destruct (Time_After mt _) eqn:TA; [|reflexivity].
    apply Z.ltb_lt in TA. unfold Time in *. lia. }
  rewrite E. apply IH. intros g mt I. apply H. now right.
Qed.

Lemma recent_below stat bound files : forall acc,
  snd acc < bound ->
  (forall f mt, In f files -> stat f = Some mt -> mt < bound) ->
  snd (fold_left (recentStep stat) files acc) < bound.
Proof.
  induction files as [|f files IH]; intros acc Ha H; [exact Ha|].
  simpl. apply IH; [|intros g mt I; apply H; now right].
  unfold recentStep. destruct (stat f) as [mt|] eqn:S; [|exact Ha].
  destruct (Time_After mt _); [|exact Ha].
  simpl. apply (H f mt); [now left | exact S].
Qed.

(** X14. [FindActiveSessionID] names the transcript with the latest
    modification time, the first of them in the listing when several
    share it; files that cannot be examined are passed over, and when no
    file has a modification time after the zero time the answer is the
    empty identifier, without error. *)
Theorem FindActiveSessionID_most_recent
  (dir : string) (glob : string -> option (list string))
  (stat : string -> option Time) (files : list string) :
  glob dir = Some files ->
  (forall before best after t,
      files = (before ++ best :: after)%list ->
      stat best = Some t -> 0 < t -> best <> "" ->
      (forall f mt, In f before -> stat f = Some mt -> mt < t) ->
      (forall f mt, In f after -> stat f = Some mt -> mt <= t) ->
      FindActiveSessionID filepath_Base TrimSuffix (Some dir) glob stat
      = Some (TrimSuffix (filepath_Base best) ".jsonl"))
  /\ ((forall f mt, In f files -> stat f = Some mt -> mt <= 0) ->
      FindActiveSessionID filepath_Base TrimSuffix (Some dir) glob stat = Some "")
  /\ FindActiveSessionID filepath_Base TrimSuffix None glob stat = None.
Proof.
  intros G. split; [|split; [|reflexivity]].
  - intros before best after t E S Ht Hb Hbefore Hafter.
    unfold FindActiveSessionID. rewrite G, mostRecentFile_fold, E, fold_left_app.
    simpl fold_left.
    pose proof (recent_below stat t before ("", 0) Ht Hbefore) as B.
    set (acc := fold_left (recentStep stat) before ("", 0)) in *.
    assert (R : recentStep stat acc best = (best, t)).
    { unfold recentStep. rewrite S.
      destruct (Time_After t _) eqn:TA; [reflexivity|].
      apply Z.ltb_ge in TA. unfold Time in *. lia. }
    rewrite R, recent_older by (simpl; exact Hafter). simpl.
    destruct (String.eqb_spec best ""); [contradiction|reflexivity].
  - intros H. unfold FindActiveSessionID.
    rewrite G, mostRecentFile_fold, recent_older by (simpl; exact H).
    reflexivity.
Qed.

End ParserProps.

(** The transcript of [TestParseSessionFile], decoded by the JSON reader:
    two assistant lines with (100,50,200,300) and (150,75,0,500), between
    two user lines, give (250,125,200,800) and the model of the lines. *)
Lemma ParseSessionFile_accumulates_witness :
  exists usage,
    ParseSessionFile Json.Unmarshal (fun p => p) (fun p => p) (fun p _ => p)
      "test-session.jsonl" 0 (Some Fixtures.testTranscript) = (Some usage, None)
    /\ TotalUsage usage = mkTokenUsage 250 125 200 800
    /\ Model usage = "claude-sonnet-4-20250514".
Proof.
  destruct (ParseSessionFile_accumulates Json.Unmarshal (fun p => p) (fun p => p)
              (fun p _ => p) eq_refl "test-session.jsonl" 0 Fixtures.testTranscript)
    as (usage & H1 & H2 & H3 & _ & _).
  exists usage. split; [exact H1|]. split.
  - rewrite H2. vm_compute. reflexivity.
  - rewrite H3. vm_compute. reflexivity.
Defined.

(** The transcript of [TestParseSessionFile] as the content of two files
    of a directory that also lists a file that does not open. *)
Lemma SumUsageFromDir_total_witness :
  let fs := fun file => if String.eqb file "gone.jsonl" then None
                        else Some Fixtures.testTranscript in
  SumUsageFromDir Json.Unmarshal (fun p => p) (fun p => p) (fun p _ => p)
    (Some ["a.jsonl"; "gone.jsonl"; "b.jsonl"]) fs 0
  = Some (mkTokenUsage 500 250 400 1600).
Proof.
  intros fs.
  destruct (SumUsageFromDir_total Json.Unmarshal (fun p => p) (fun p => p)
              (fun p _ => p) eq_refl ["a.jsonl"; "gone.jsonl"; "b.jsonl"] fs 0)
    as (H & _).
  rewrite H. vm_compute. reflexivity.
Defined.

(** The same transcript read from its second line on. *)
Lemma ParseSessionFileTail_skips_first_witness :
  exists usage,
    ParseSessionFileTail Json.Unmarshal (fun p => p) (fun p => p) (fun p _ => p)
      "test-session.jsonl" 10 0
      (Some (mkTailFile (Some 1000) (Some Fixtures.testTranscript) None))
    = (Some usage, None)
    /\ TotalUsage usage = mkTokenUsage 250 125 200 800.
Proof.
  destruct (ParseSessionFileTail_skips_first Json.Unmarshal (fun p => p) (fun p => p)
              (fun p _ => p) eq_refl "test-session.jsonl" 10 1000 0
              Fixtures.testTranscript None) as (H & _).
  destruct H as (usage & H1 & H2 & _); [lia|].
  exists usage. split; [exact H1|]. rewrite H2. vm_compute. reflexivity.
Defined.

Lemma FindActiveSessionID_most_recent_witness :
  let stat := fun f => if String.eqb f "old.jsonl" then Some 5
                       else if String.eqb f "gone.jsonl" then None
                       else Some 9 in
  FindActiveSessionID (fun p => p) (fun p _ => p) (Some "dir")
    (fun _ => Some ["old.jsonl"; "gone.jsonl"; "new.jsonl"; "twin.jsonl"]) stat
  = Some "new.jsonl".
Proof.
  intros stat.
  destruct (FindActiveSessionID_most_recent (fun p => p) (fun p _ => p) "dir"
              (fun _ => Some ["old.jsonl"; "gone.jsonl"; "new.jsonl"; "twin.jsonl"])
              stat ["old.jsonl"; "gone.jsonl"; "new.jsonl"; "twin.jsonl"] eq_refl)
    as (H & _).
  apply (H ["old.jsonl"; "gone.jsonl"] "new.jsonl" ["twin.jsonl"] 9);
    try reflexivity; try lia; try discriminate.
  - intros f mt [<-|[<-|[]]]; vm_compute; intros E; inversion E; reflexivity.
  - intros f mt [<-|[]]; vm_compute; intros E; inversion E; discriminate.
Defined.

(** *** The price table *)

(** X15. Every model name is priced: [NormalizeModelName] answers one of
    the three families of the table whatever the name and whatever
    [strings.ToLower] makes of it (opus before sonnet before haiku, and
    sonnet when none is named), so the lookup of [GetPricing] and
    [CalculateCost] always succeeds and their fallback is never taken. *)
Theorem pricing_lookup_total (ToLower : string -> string) (model : string) :
  let lower := ToLower model in
  In (NormalizeModelName ToLower model) ["opus"; "sonnet"; "haiku"]
  /\ modelPricing !! NormalizeModelName ToLower model = Some (GetPricing ToLower model)
  /\ (Go.Contains lower "opus" = true -> NormalizeModelName ToLower model = "opus")
  /\ (Go.Contains lower "opus" = false -> Go.Contains lower "sonnet" = true ->
      NormalizeModelName ToLower model = "sonnet")
  /\ (Go.Contains lower "opus" = false -> Go.Contains lower "sonnet" = false ->
      Go.Contains lower "haiku" = true -> NormalizeModelName ToLower model = "haiku")
  /\ (Go.Contains lower "opus" = false -> Go.Contains lower "sonnet" = false ->
      Go.Contains lower "haiku" = false -> NormalizeModelName ToLower model = "sonnet").
Proof.
  cbv zeta. unfold GetPricing, lookupPricing, NormalizeModelName.
  destruct (Go.Contains (ToLower model) "opus");
    [|destruct (Go.Contains (ToLower model) "sonnet");
      [|destruct (Go.Contains (ToLower model) "haiku")]];
    (split; [simpl; tauto|]); (split; [reflexivity|]);
    repeat split; intros; try reflexivity; discriminate.
Qed.

(** The package's tests [TestNormalizeModelName] and [TestCalculateCost]
    (18.0, 5.55, 22.5 and 4.8 dollars); the names are ASCII. *)
Example TestNormalizeModelName :
  map (NormalizeModelName ToLowerASCII)
      ["claude-opus-4-5-20251101"; "claude-sonnet-4-20250514";
       "claude-3-5-haiku-20241022"; "CLAUDE-OPUS-4"; "unknown-model"]
  = ["opus"; "sonnet"; "haiku"; "opus"; "sonnet"].
Proof. vm_compute. reflexivity. Qed.

Example TestCalculateCost :
  CalculateCost ToLowerASCII (mkTokenUsage 1000000 1000000 0 0)
                "claude-sonnet-4-20250514" = f64_of_int 18
  /\ CalculateCost ToLowerASCII (mkTokenUsage 0 100000 1000000 1000000) "sonnet"
     = decimalToF64 555 2
  /\ CalculateCost ToLowerASCII (mkTokenUsage 1000000 100000 0 0)
                   "claude-opus-4-5-20251101" = decimalToF64 225 1
  /\ CalculateCost ToLowerASCII (mkTokenUsage 1000000 1000000 0 0)
                   "claude-3-5-haiku-20241022" = decimalToF64 48 1.
Proof. vm_compute. repeat split; reflexivity. Qed.

End UsageProps.

(* ===================================================================== *)
(** ** internal/claude                                                    *)
(* ===================================================================== *)
Module ClaudeProps.
Import Go Claude.

(** The model reproduces the tables of detector_test.go. *)
Example TestDetectState :
  map (fun t => DetectState (fst t) "" 0) Fixtures.detectStateTests =
  map snd Fixtures.detectStateTests.
Proof. vm_compute. reflexivity. Qed.

Example TestIsClaudeSession :
  map (fun t => IsClaudeSession (fst t)) Fixtures.isClaudeSessionTests =
  map snd Fixtures.isClaudeSessionTests.
Proof. vm_compute. reflexivity. Qed.

Example TestParseInfo :
  map (fun t => Tokens (ParseInfo (fst t))) Fixtures.parseInfoTests =
  map snd Fixtures.parseInfoTests.
Proof. vm_compute. reflexivity. Qed.

Example TestDetectMode :
  map (fun t => DetectMode (fst t)) Fixtures.detectModeTests =
  map snd Fixtures.detectModeTests.
Proof. vm_compute. reflexivity. Qed.

Lemma anyMatch_true ps s :
  anyMatch ps s = true <-> exists p, In p ps /\ MatchString p s = true.
Proof. unfold anyMatch. apply existsb_exists. Qed.

(** The state is urgent exactly when an urgent pattern matches the window. *)
Lemma DetectState_urgent_iff content lastContent lastCapture :
  DetectState content lastContent lastCapture = StateUrgent <->
  anyMatch urgentPatterns (getLastLines (stripANSI content) 20) = true.
Proof.
  unfold DetectState.
  destruct (anyMatch urgentPatterns _); [tauto|].
  destruct (anyMatch thinkingPatterns _); [split; discriminate|].
  destruct (anyMatch idlePatterns _); split; discriminate.
Qed.

(** C1. Whenever, after the ANSI sequences are stripped, an urgent pattern
    and an idle pattern both match the window of the last 20 lines,
    [DetectState] answers [StateUrgent], wherever in the window the two
    matches are (and whether or not a thinking pattern matches as well). *)
Theorem DetectState_urgent_priority
  (content lastContent : string) (lastCapture : Time) (u i : regex) :
  let window := getLastLines (stripANSI content) 20 in
  In u urgentPatterns -> MatchString u window = true ->
  In i idlePatterns -> MatchString i window = true ->
  DetectState content lastContent lastCapture = StateUrgent.
Proof.
  intros window Hu Hmu _ _.
  apply DetectState_urgent_iff, anyMatch_true. now exists u.
Qed.

(** On a pane with a spinner, a coloured permission prompt and a prompt
    glyph, [\[Y/n\]] and the bare prompt both match and the state is urgent. *)
Lemma DetectState_urgent_priority_witness :
  let window := getLastLines (stripANSI Fixtures.promptUnderQuestion) 20 in
  MatchString (litFold "[Y/n]") window = true
  /\ MatchString (Cat (lit "❯") (Cat (Star space) EndLine)) window = true
  /\ anyMatch thinkingPatterns window = true
  /\ DetectState Fixtures.promptUnderQuestion "" 0 = StateUrgent.
Proof.
  intros window.
  assert (Hu : MatchString (litFold "[Y/n]") window = true) by (vm_compute; reflexivity).
  assert (Hi : MatchString (Cat (lit "❯") (Cat (Star space) EndLine)) window = true)
    by (vm_compute; reflexivity).
  split; [exact Hu|]. split; [exact Hi|]. split; [vm_compute; reflexivity|].
  apply (DetectState_urgent_priority Fixtures.promptUnderQuestion "" 0
           (litFold "[Y/n]") (Cat (lit "❯") (Cat (Star space) EndLine))).
  - left. reflexivity.
  - exact Hu.
  - left. reflexivity.
  - exact Hi.
Defined.

(** *** Strings: lines *)

Lemma append_cons c a b : (String c a ++ b)%string = String c (a ++ b).
Proof. reflexivity. Qed.

Lemma append_nil b : ("" ++ b)%string = b.
Proof. reflexivity. Qed.

Lemma string_length_app a b : String.length (a ++ b) = (String.length a + String.length b)%nat.
Proof.
  induction a as [|c a IH]; [reflexivity|]. rewrite append_cons. simpl. now rewrite IH.
Qed.

Lemma app_assoc_string a b c : ((a ++ b) ++ c)%string = (a ++ (b ++ c))%string.
Proof.
  induction a as [|x a IH]; [reflexivity|]. rewrite !append_cons. now rewrite IH.
Qed.

Lemma splitLines_nonempty s : splitLines s <> [].
Proof.
  destruct s as [|c s]; simpl; [discriminate|].
  destruct (Ascii.eqb c newline); [discriminate|].
  destruct (splitLines s); discriminate.
Qed.

Lemma joinLines_cons x l :
  l <> [] -> joinLines (x :: l) = (x ++ String newline (joinLines l))%string.
Proof. destruct l; [congruence|reflexivity]. Qed.

Lemma joinLines_splitLines s : joinLines (splitLines s) = s.
Proof.
  induction s as [|c s IH]; [reflexivity|]. cbn [splitLines].
  destruct (Ascii.eqb_spec c newline) as [->|N].
  - rewrite joinLines_cons by apply splitLines_nonempty. now rewrite IH.
  - pose proof (splitLines_nonempty s) as NE.
    destruct (splitLines s) as [|h t]; [congruence|].
    destruct t as [|h' t].
    + simpl in *. now rewrite IH.
    + rewrite joinLines_cons by discriminate.
      rewrite joinLines_cons in IH by discriminate.
      rewrite append_cons. now rewrite IH.
Qed.

Lemma splitLines_plain x : hasByte newline x = false -> splitLines x = [x].
Proof.
  induction x as [|c x IH]; cbn [hasByte splitLines]; [reflexivity|].
  rewrite (Ascii.eqb_sym newline c). intros H.
  apply orb_false_iff in H. destruct H as [H1 H2].
  rewrite H1. now rewrite IH.
Qed.

Lemma splitLines_app_nl a b :
  splitLines (a ++ String newline b) = (splitLines a ++ splitLines b)%list.
Proof.
  induction a as [|c a IH]; rewrite ?append_nil, ?append_cons; cbn [splitLines app].
  - now rewrite Ascii.eqb_refl.
  - destruct (Ascii.eqb c newline); [now rewrite IH|].
    rewrite IH. pose proof (splitLines_nonempty a) as NE.
    destruct (splitLines a); [congruence|reflexivity].
Qed.

Lemma splitLines_pieces s : Forall (fun x => hasByte newline x = false) (splitLines s).
Proof.
  induction s as [|c s IH]; cbn [splitLines]; [repeat constructor|].
  destruct (Ascii.eqb c newline) eqn:E; [constructor; [reflexivity|exact IH]|].
  destruct (splitLines s) as [|h t];
    [repeat constructor; cbn [hasByte]; now rewrite Ascii.eqb_sym, E|].
  inversion IH; subst. constructor; [|assumption].
  cbn [hasByte]. rewrite Ascii.eqb_sym, E. assumption.
Qed.

Lemma splitLines_joinLines l :
  l <> [] -> Forall (fun x => hasByte newline x = false) l ->
  splitLines (joinLines l) = l.
Proof.
  induction l as [|x l IH]; intros NE F; [congruence|].
  inversion F; subst. destruct l as [|y l].
  - simpl. now apply splitLines_plain.
  - rewrite joinLines_cons by discriminate. rewrite splitLines_app_nl.
    rewrite splitLines_plain by assumption. rewrite IH by (assumption || discriminate).
    reflexivity.
Qed.

(** *** [stripANSI] *)

Lemma starLoop_sgr n : forall s,
  (String.length s <= n)%nat ->
  starLoop (Class (fun c => ((48 <=? code c) && (code c <=? 57)) || (code c =? 59)))
           (fun s' caps' => run (Byte "m") s' caps' (fun s'' _ => Some s''))
           n s []
  = sgrRest s.
Proof.
  induction n as [|n IH]; intros s H.
  - destruct s; [reflexivity|simpl in H; lia].
  - destruct s as [|c s]; [reflexivity|].
    simpl in H. cbn [starLoop run sgrRest String.length]. fold (isParam c).
    destruct (isParam c) eqn:P.
    + assert (L : (String.length s <? S (String.length s))%nat = true)
        by (apply Nat.ltb_lt; lia).
      rewrite L, IH by lia.
      destruct (sgrRest s); [reflexivity|].
      destruct (Ascii.eqb_spec "m" c) as [<-|_]; [discriminate P|reflexivity].
    + reflexivity.
Qed.

Lemma matchPrefix_ansi s : matchPrefix ansiPattern s = ansiRest s.
Proof.
  unfold matchPrefix, ansiPattern, ansiRest.
  destruct s as [|e [|b s]]; cbn [run].
  - reflexivity.
  - destruct (Ascii.eqb (byte 27) e); reflexivity.
  - destruct (Ascii.eqb (byte 27) e); [|reflexivity].
    destruct (Ascii.eqb "[" b); [|reflexivity].
    cbn [andb]. apply (starLoop_sgr (String.length s)). lia.
Qed.

Lemma sgrRest_shorter s r : sgrRest s = Some r -> (String.length r < String.length s)%nat.
Proof.
  revert r. induction s as [|c s IH]; intros r; cbn [sgrRest String.length];
    [intros H; discriminate H|].
  destruct (isParam c).
  - intros H. apply IH in H. lia.
  - destruct (Ascii.eqb "m" c); [|intros H; discriminate H].
    intros H. inversion H; subst. lia.
Qed.

Lemma ansiRest_shorter s r : ansiRest s = Some r -> (String.length r + 3 <= String.length s)%nat.
Proof.
  unfold ansiRest. destruct s as [|e [|b s]]; try (intros H; discriminate H).
  destruct (_ && _); [|intros H; discriminate H].
  intros H. apply sgrRest_shorter in H. cbn [String.length]. lia.
Qed.

Lemma sgrRest_app_nl x b :
  sgrRest (x ++ String newline b)
  = option_map (fun r => (r ++ String newline b)%string) (sgrRest x).
Proof.
  induction x as [|c x IH]; rewrite ?append_nil, ?append_cons; cbn [sgrRest option_map].
  - assert (isParam newline = false) as -> by reflexivity.
    assert (Ascii.eqb "m" newline = false) as -> by reflexivity. reflexivity.
  - destruct (isParam c); [exact IH|]. destruct (Ascii.eqb "m" c); reflexivity.
Qed.

Lemma ansiRest_app_nl x b :
  ansiRest (x ++ String newline b)
  = option_map (fun r => (r ++ String newline b)%string) (ansiRest x).
Proof.
  destruct x as [|e [|c x]]; rewrite ?append_nil, ?append_cons, ?append_nil;
    cbn [ansiRest option_map].
  - destruct b; reflexivity.
  - assert (Ascii.eqb "[" newline = false) as -> by reflexivity.
    rewrite andb_false_r. reflexivity.
  - destruct (_ && _); [apply sgrRest_app_nl|reflexivity].
Qed.

(** Cutting is done line by line: a match never crosses a line feed. *)
Lemma cut_app_nl b : forall a skip,
  (skip <= String.length a)%nat ->
  cutMatches ansiPattern skip (a ++ String newline b)
  = (cutMatches ansiPattern skip a
     ++ String newline (cutMatches ansiPattern 0 b))%string.
Proof.
  induction a as [|c a IH]; intros skip H.
  - simpl in H. assert (skip = 0)%nat as -> by lia.
    rewrite append_nil. cbn [cutMatches]. rewrite matchPrefix_ansi.
    assert (ansiRest (String newline b) = None) as -> by (destruct b; reflexivity).
    reflexivity.
  - rewrite append_cons. cbn [cutMatches]. destruct skip as [|n].
    + rewrite <- append_cons.
      rewrite !matchPrefix_ansi, ansiRest_app_nl.
      destruct (ansiRest (String c a)) as [r|] eqn:E; cbn [option_map]; cbv iota.
      * pose proof (ansiRest_shorter _ _ E) as L. cbn [String.length] in L.
        rewrite append_cons. cbn [String.length]. rewrite !string_length_app.
        cbn [String.length].
        replace (S (String.length a + S (String.length b))
                 - (String.length r + S (String.length b)))%nat
          with (S (String.length a) - String.length r)%nat by lia.
        destruct (S (String.length a) - String.length r)%nat as [|n] eqn:D; [lia|].
        apply IH. lia.
      * rewrite append_cons. f_equal. apply IH. lia.
    + apply IH. simpl in H. lia.
Qed.

Lemma cut_join l :
  l <> [] -> Forall (fun x => hasByte newline x = false) l ->
  stripANSI (joinLines l) = joinLines (map stripANSI l).
Proof.
  induction l as [|x l IH]; intros NE F; [congruence|].
  destruct l as [|y l]; [reflexivity|].
  inversion F; subst.
  rewrite (joinLines_cons x) by discriminate.
  change (map stripANSI (x :: y :: l)) with (stripANSI x :: map stripANSI (y :: l)).
  rewrite (joinLines_cons (stripANSI x)) by (cbn [map]; discriminate).
  unfold stripANSI at 1, ReplaceAllEmpty. rewrite cut_app_nl by lia.
  fold (ReplaceAllEmpty ansiPattern x). fold (stripANSI x).
  fold (ReplaceAllEmpty ansiPattern (joinLines (y :: l))).
  fold (stripANSI (joinLines (y :: l))).
  rewrite IH by (assumption || discriminate). reflexivity.
Qed.

(** Every byte that comes out was in the input. *)
Lemma cut_keeps_absent r c : forall s skip,
  hasByte c s = false -> hasByte c (cutMatches r skip s) = false.
Proof.
  induction s as [|x s IH]; intros skip H; [reflexivity|].
  simpl in H. apply orb_false_iff in H. destruct H as [H1 H2].
  simpl. destruct skip as [|n]; [|now apply IH].
  destruct (matchPrefix r (String x s)) as [rest|].
  - destruct (_ - _)%nat; [simpl; rewrite H1; now apply IH|now apply IH].
  - simpl. rewrite H1. now apply IH.
Qed.

Lemma cut_length r : forall s skip,
  (String.length (cutMatches r skip s) <= String.length s)%nat.
Proof.
  induction s as [|x s IH]; intros skip; simpl; [lia|].
  destruct skip as [|n]; [|specialize (IH n); lia].
  destruct (matchPrefix r (String x s)) as [rest|].
  - destruct (_ - _)%nat as [|n]; simpl; [specialize (IH 0%nat)|specialize (IH n)]; lia.
  - simpl. specialize (IH 0%nat). lia.
Qed.

Lemma cut_plain : forall s,
  hasByte (byte 27) s = false -> cutMatches ansiPattern 0 s = s.
Proof.
  induction s as [|x s IH]; intros H; [reflexivity|].
  cbn [hasByte] in H. apply orb_false_iff in H. destruct H as [H1 H2].
  cbn [cutMatches]. rewrite matchPrefix_ansi. unfold ansiRest.
  destruct s as [|y s]; [reflexivity|].
  rewrite H1. cbn [andb]. cbv iota. f_equal. now apply IH.
Qed.

Lemma cut_skip r x : forall s,
  cutMatches r (String.length x) (x ++ s) = cutMatches r 0 s.
Proof.
  induction x as [|c x IH]; intros s; rewrite ?append_nil, ?append_cons; simpl.
  - destruct s; reflexivity.
  - apply IH.
Qed.

Lemma sgrRest_params params s :
  allBytes isParam params = true -> sgrRest (params ++ String "m" s) = Some s.
Proof.
  induction params as [|c p IH]; rewrite ?append_nil, ?append_cons; simpl; [reflexivity|].
  intros H. apply andb_true_iff in H. destruct H as [H1 H2].
  rewrite H1. now apply IH.
Qed.

(** Colour sequences are cut out whole, other text is kept, no byte is
    added. *)
Lemma stripANSI_removes_SGR (s : string) :
  (hasByte (byte 27) s = false -> stripANSI s = s)
  /\ (forall params,
        allBytes isParam params = true ->
        stripANSI (String (byte 27) (String "[" (params ++ String "m" s)))
        = stripANSI s)
  /\ (String.length (stripANSI s) <= String.length s)%nat
  /\ (forall c, hasByte c s = false -> hasByte c (stripANSI s) = false).
Proof.
  unfold stripANSI, ReplaceAllEmpty.
  split; [apply cut_plain|].
  split.
  { intros params P.
    cbn [cutMatches]. rewrite matchPrefix_ansi. unfold ansiRest.
    rewrite !Ascii.eqb_refl. cbn [andb]. cbv iota.
    rewrite sgrRest_params by exact P.
    cbn [String.length]. rewrite string_length_app. cbn [String.length].
    replace (S (S (String.length params + S (String.length s))) - String.length s)%nat
      with (S (S (S (String.length params)))) by lia.
    cbn [cutMatches].
    replace (params ++ String "m" s)%string with ((params ++ String "m" "") ++ s)%string
      by (rewrite app_assoc_string; reflexivity).
    replace (S (String.length params)) with (String.length (params ++ String "m" ""))
      by (rewrite string_length_app; cbn [String.length]; lia).
    apply cut_skip. }
  split; [apply cut_length|].
  intros c. apply cut_keeps_absent.
Qed.

(** The lines of the stripped text are the stripped lines. *)
Lemma stripANSI_line_by_line (s : string) :
  splitLines (stripANSI s) = map stripANSI (splitLines s)
  /\ length (splitLines (stripANSI s)) = length (splitLines s)
  /\ (forall a b,
        stripANSI (a ++ String newline b)
        = (stripANSI a ++ String newline (stripANSI b))%string).
Proof.
  assert (E : splitLines (stripANSI s) = map stripANSI (splitLines s)).
  { rewrite <- (joinLines_splitLines s) at 1.
    rewrite cut_join by (apply splitLines_nonempty || apply splitLines_pieces).
    apply splitLines_joinLines.
    - pose proof (splitLines_nonempty s). destruct (splitLines s); [congruence|discriminate].
    - pose proof (splitLines_pieces s) as F.
      induction F as [|x l Hx F IH]; cbn [map]; constructor; [|exact IH].
      now apply cut_keeps_absent. }
  split; [exact E|].
  split; [rewrite E; apply length_map|].
  intros a b. unfold stripANSI, ReplaceAllEmpty. apply cut_app_nl. lia.
Qed.


(** *** The window of the last lines *)

Lemma joinLines_app l1 l2 :
  l1 <> [] -> l2 <> [] ->
  joinLines (l1 ++ l2)%list = (joinLines l1 ++ String newline (joinLines l2))%string.
Proof.
  induction l1 as [|x l1 IH]; intros N1 N2; [congruence|].
  destruct l1 as [|y l1].
  - cbn [app]. now rewrite joinLines_cons.
  - change ((x :: y :: l1) ++ l2)%list with (x :: ((y :: l1) ++ l2))%list.
    rewrite (joinLines_cons x ((y :: l1) ++ l2)%list) by discriminate.
    rewrite IH by (assumption || discriminate).
    rewrite (joinLines_cons x (y :: l1)) by discriminate.
    rewrite app_assoc_string, append_cons. reflexivity.
Qed.

Lemma Forall_skipn {A} (P : A -> Prop) n l : Forall P l -> Forall P (skipn n l).
Proof.
  revert l. induction n as [|n IH]; intros l F; [exact F|].
  destruct l; [constructor|]. inversion F; subst. cbn [skipn]. now apply IH.
Qed.

Lemma skipn_nonempty {A} n (l : list A) : (n < length l)%nat -> skipn n l <> [].
Proof.
  intros H E. pose proof (length_skipn n l) as L. rewrite E in L. simpl in L. lia.
Qed.

Lemma getLastLines_lines content n :
  (1 <= n)%nat ->
  splitLines (getLastLines content n)
  = skipn (length (splitLines content) - n) (splitLines content).
Proof.
  intros Hn. unfold getLastLines.
  destruct (Nat.leb_spec (length (splitLines content)) n) as [H|H].
  - replace (length (splitLines content) - n)%nat with 0%nat by lia. reflexivity.
  - apply splitLines_joinLines.
    + apply skipn_nonempty. lia.
    + apply Forall_skipn, splitLines_pieces.
Qed.

Lemma getLastLines_idem content n :
  (1 <= n)%nat -> getLastLines (getLastLines content n) n = getLastLines content n.
Proof.
  intros Hn. unfold getLastLines at 1.
  rewrite getLastLines_lines by exact Hn. rewrite length_skipn.
  destruct (Nat.leb_spec (length (splitLines content)
                          - (length (splitLines content) - n)) n); [reflexivity|lia].
Qed.

(** Stripping and taking the last lines commute. *)
Lemma getLastLines_strip content n :
  getLastLines (stripANSI content) n = stripANSI (getLastLines content n).
Proof.
  unfold getLastLines.
  assert (E : splitLines (stripANSI content) = map stripANSI (splitLines content)).
  { rewrite <- (joinLines_splitLines content) at 1.
    rewrite cut_join by (apply splitLines_nonempty || apply splitLines_pieces).
    apply splitLines_joinLines.
    - pose proof (splitLines_nonempty content).
      destruct (splitLines content); [congruence|discriminate].
    - pose proof (splitLines_pieces content) as F.
      induction F as [|x l Hx F IH]; cbn [map]; constructor; [|exact IH].
      now apply cut_keeps_absent. }
  rewrite E, length_map.
  destruct (Nat.leb_spec (length (splitLines content)) n) as [H|H]; [reflexivity|].
  rewrite skipn_map.
  destruct (Nat.eq_dec n 0%nat) as [->|Hn].
  - rewrite Nat.sub_0_r, skipn_all. reflexivity.
  - symmetry. apply cut_join.
    + apply skipn_nonempty. lia.
    + apply Forall_skipn, splitLines_pieces.
Qed.

(** X17. For n of 1 or more, [getLastLines] returns exactly the last n
    lines of the text (all of them when there are at most n), joined as
    they were: its lines are the last n lines, it is a suffix of the text,
    and taking the last n lines again changes nothing.  For n = 0 it
    returns the empty text. *)
Theorem getLastLines_last_n (content : string) (n : nat) :
  ((1 <= n)%nat ->
   splitLines (getLastLines content n)
   = skipn (length (splitLines content) - n) (splitLines content)
   /\ length (splitLines (getLastLines content n))
      = Nat.min n (length (splitLines content))
   /\ (exists before, content = (before ++ getLastLines content n)%string)
   /\ ((length (splitLines content) <= n)%nat -> getLastLines content n = content)
   /\ getLastLines (getLastLines content n) n = getLastLines content n)
  /\ getLastLines content 0 = "".
Proof.
  split.
  - intros Hn. split; [now apply getLastLines_lines|].
    split; [rewrite getLastLines_lines, length_skipn by exact Hn; lia|].
    split; [|split; [|now apply getLastLines_idem]].
    + unfold getLastLines.
      destruct (Nat.leb_spec (length (splitLines content)) n) as [H|H].
      * exists "". reflexivity.
      * exists (joinLines (firstn (length (splitLines content) - n) (splitLines content))
                ++ String newline "")%string.
        rewrite app_assoc_string, append_cons, append_nil.
        rewrite <- joinLines_app.
        -- now rewrite firstn_skipn, joinLines_splitLines.
        -- intros E. pose proof (length_firstn (length (splitLines content) - n)
                                   (splitLines content)) as L.
           rewrite E in L. simpl in L. lia.
        -- apply skipn_nonempty. lia.
    + intros H. unfold getLastLines.
      destruct (Nat.leb_spec (length (splitLines content)) n); [reflexivity|lia].
  - unfold getLastLines. pose proof (splitLines_nonempty content) as NE.
    destruct (splitLines content) as [|x l] eqn:E; [congruence|].
    cbn [length Nat.leb]. rewrite Nat.sub_0_r.
    change (S (length l)) with (length (x :: l)). now rewrite skipn_all.
Qed.

(** X18. Only the last 20 lines of a capture decide the detected state:
    [DetectState] gives the same answer on the capture and on its last 20
    lines alone, whatever the two unused arguments are; the same holds for
    the state and the thinking time that [ParseInfo] reports. *)
Theorem DetectState_window (content lastContent lastContent' : string)
  (lastCapture lastCapture' : Time) :
  DetectState content lastContent lastCapture
  = DetectState (getLastLines content 20) lastContent' lastCapture'
  /\ State (ParseInfo content) = State (ParseInfo (getLastLines content 20))
  /\ ThinkingTime (ParseInfo content)
     = ThinkingTime (ParseInfo (getLastLines content 20)).
Proof.
  assert (W : forall c, getLastLines (stripANSI (getLastLines c 20)) 20
                        = getLastLines (stripANSI c) 20).
  { intros c. rewrite !getLastLines_strip. now rewrite getLastLines_idem by lia. }
  split; [|split].
  - unfold DetectState. now rewrite W.
  - unfold ParseInfo, DetectState; cbn [State].
    rewrite !(getLastLines_strip (stripANSI _)), !getLastLines_strip.
    now rewrite getLastLines_idem by lia.
  - unfold ParseInfo; cbn [ThinkingTime]. now rewrite W.
Qed.

(** *** Literal patterns are substring tests *)

Lemma run_lit {A} p : forall s caps (k : string -> captures -> option A),
  run (lit p) s caps k
  = if String.prefix p s then k (String.substring (String.length p)
                                   (String.length s - String.length p) s) caps
    else None.
Proof.
  induction p as [|c p IH]; intros s caps k.
  - cbn [lit run String.length]. rewrite Nat.sub_0_r.
    assert (E : forall s, String.substring 0 (String.length s) s = s).
    { clear. induction s as [|x s IH]; [reflexivity|]. cbn. now rewrite IH. }
    rewrite E. destruct s; reflexivity.
  - cbn [lit run]. destruct s as [|c' s]; [reflexivity|].
    cbn [String.prefix String.length Nat.sub String.substring].
    destruct (Ascii.eqb_spec c c') as [->|N].
    + destruct (ascii_dec c' c') as [_|N]; [|congruence]. apply IH.
    + destruct (ascii_dec c c') as [E|_]; [congruence|reflexivity].
Qed.

Lemma MatchString_lit p s : MatchString (lit p) s = Go.Contains s p.
Proof.
  induction s as [|c s IH]; cbn [MatchString Go.Contains]; unfold matchPrefix;
    rewrite run_lit.
  - destruct (String.prefix p ""); reflexivity.
  - destruct (String.prefix p (String c s)); [reflexivity|]. exact IH.
Qed.

(** X19. [IsClaudeSession] is a plain, case-sensitive substring test on
    the capture without its colour sequences: it answers yes exactly
    when that text contains one of the four markers. *)
Theorem IsClaudeSession_markers (content : string) :
  IsClaudeSession content
  = (Go.Contains (stripANSI content) "Claude Code"
     || Go.Contains (stripANSI content) "claude>"
     || Go.Contains (stripANSI content) "❯"
     || Go.Contains (stripANSI content) "ing... (ctrl").
Proof.
  unfold IsClaudeSession, anyMatch, claudePatterns. cbn [existsb].
  rewrite !MatchString_lit. rewrite orb_false_r, !orb_assoc. reflexivity.
Qed.

(** *** The last non-empty line *)

Lemma lastNonEmpty_blank l1 l2 :
  Forall (fun x => TrimSpace x = "") l1 -> lastNonEmpty (l1 ++ l2)%list = lastNonEmpty l2.
Proof.
  induction 1 as [|x l1 Hx F IH]; [reflexivity|].
  cbn [app lastNonEmpty]. rewrite Hx. exact IH.
Qed.

(** X20. [getLastNonEmptyLine] returns the trimmed text of the last line
    that is not blank, and the empty text exactly when every line is
    blank; in every case it is empty or the trimmed text of one of the
    lines. *)
Theorem getLastNonEmptyLine_last (content : string) :
  (forall before line after,
      splitLines content = (before ++ line :: after)%list ->
      TrimSpace line <> "" ->
      Forall (fun x => TrimSpace x = "") after ->
      getLastNonEmptyLine content = TrimSpace line)
  /\ (Forall (fun x => TrimSpace x = "") (splitLines content) ->
      getLastNonEmptyLine content = "")
  /\ (getLastNonEmptyLine content = ""
      \/ exists line, In line (splitLines content)
                      /\ getLastNonEmptyLine content = TrimSpace line).
Proof.
  unfold getLastNonEmptyLine. split; [|split].
  - intros before line after E N F. rewrite E, rev_app_distr. cbn [rev].
    rewrite <- app_assoc. rewrite lastNonEmpty_blank.
    + cbn [app lastNonEmpty]. destruct (TrimSpace line); [congruence|reflexivity].
    + apply List.Forall_forall. intros x I. apply in_rev in I.
      rewrite List.Forall_forall in F. now apply F.
  - intros F. rewrite <- (app_nil_r (rev (splitLines content))).
    rewrite lastNonEmpty_blank; [reflexivity|].
    apply List.Forall_forall. intros x I. apply in_rev in I.
    rewrite List.Forall_forall in F. now apply F.
  - assert (G : forall l, lastNonEmpty l = ""
                          \/ exists line, In line l /\ lastNonEmpty l = TrimSpace line).
    { induction l as [|x l IH]; [now left|]. cbn [lastNonEmpty].
      destruct (TrimSpace x) eqn:T.
      - destruct IH as [IH|(line & I & IH)]; [now left|].
        right. exists line. split; [now right|exact IH].
      - right. exists x. split; [now left|]. now rewrite T. }
    destruct (G (rev (splitLines content))) as [H|(line & I & H)]; [now left|].
    right. exists line. split; [now apply in_rev|exact H].
Qed.

(** *** The matcher is sound for the specification of matching *)

Lemma run_sound {A} r : forall s caps (k : string -> captures -> option A) a,
  run r s caps k = Some a ->
  exists s' caps', Matches r s s' /\ k s' caps' = Some a
                   /\ (groupFree r = true -> caps' = caps).
Proof.
  induction r as [|c|p|r1 IH1 r2 IH2|r1 IH1 r2 IH2|r1 IH1| |i r1 IH1];
    intros s caps k a H.
  - exists s, caps. repeat split; [constructor|exact H].
  - cbn [run] in H. destruct s as [|c' s]; [discriminate|].
    destruct (Ascii.eqb_spec c c') as [->|]; [|discriminate].
    exists s, caps. repeat split; [constructor|exact H].
  - cbn [run] in H. destruct s as [|c' s]; [discriminate|].
    destruct (p c') eqn:P; [|discriminate].
    exists s, caps. repeat split; [now constructor|exact H].
  - cbn [run] in H. apply IH1 in H. destruct H as (s1 & caps1 & M1 & H & G1).
    apply IH2 in H. destruct H as (s2 & caps2 & M2 & H & G2).
    exists s2, caps2. repeat split; [econstructor; eassumption|exact H|].
    cbn [groupFree]. intros G. apply andb_true_iff in G. destruct G as [Ga Gb].
    rewrite G2, G1 by assumption. reflexivity.
  - cbn [run] in H. cbn [groupFree].
    destruct (run r1 s caps k) as [a'|] eqn:E.
    + inversion H; subst a'. apply IH1 in E. destruct E as (s' & caps' & M & K & G).
      exists s', caps'. repeat split; [now apply M_AltL|exact K|].
      intros G'. apply andb_true_iff in G'. now apply G.
    + apply IH2 in H. destruct H as (s' & caps' & M & K & G).
      exists s', caps'. repeat split; [now apply M_AltR|exact K|].
      intros G'. apply andb_true_iff in G'. now apply G.
  - change (starLoop r1 k (String.length s) s caps = Some a) in H.
    remember (String.length s) as n eqn:En. clear En. revert s caps H.
    induction n as [|n IHn]; intros s caps H.
    + exists s, caps. repeat split; [constructor|exact H].
    + cbn [starLoop] in H.
      destruct (run r1 s caps _) as [a'|] eqn:E.
      * inversion H; subst a'. apply IH1 in E.
        destruct E as (s1 & caps1 & M1 & K & G1).
        destruct (String.length s1 <? String.length s)%nat; [|discriminate].
        apply IHn in K. destruct K as (s2 & caps2 & M2 & K & G2).
        exists s2, caps2. repeat split; [econstructor; eassumption|exact K|].
        cbn [groupFree] in *. intros G. rewrite G2, G1 by assumption. reflexivity.
      * exists s, caps. repeat split; [constructor|exact H].
  - cbn [run] in H. destruct s as [|c s].
    + exists "", caps. repeat split; [constructor|exact H].
    + destruct (Ascii.eqb_spec c newline) as [->|]; [|discriminate].
      exists (String newline s), caps. repeat split; [constructor|exact H].
  - cbn [run] in H. apply IH1 in H. destruct H as (s' & caps' & M & K & _).
    exists s', ((i, consumed s s') :: caps'). repeat split; [now constructor|exact K|].
    cbn [groupFree]. discriminate.
Qed.

Lemma run_Cat {A} r1 r2 s caps (k : string -> captures -> option A) :
  run (Cat r1 r2) s caps k = run r1 s caps (fun s' caps' => run r2 s' caps' k).
Proof. reflexivity. Qed.

Lemma run_Group {A} i r s caps (k : string -> captures -> option A) :
  run (Group i r) s caps k
  = run r s caps (fun s' caps' => k s' ((i, consumed s s') :: caps')).
Proof. reflexivity. Qed.

Lemma Matches_split r s s' : Matches r s s' -> exists v, s = (v ++ s')%string.
Proof.
  induction 1 as [s|c s|p c s P|r1 r2 s s1 s2 _ [v1 E1] _ [v2 E2]
                 |r1 r2 s s' _ IH|r1 r2 s s' _ IH|r s
                 |r s s1 s2 _ [v1 E1] _ [v2 E2]| |s|i r s s' _ IH];
    try (exists ""; reflexivity); try exact IH.
  - exists (String c ""). reflexivity.
  - exists (String c ""). reflexivity.
  - exists (v1 ++ v2)%string. rewrite E1, E2. now rewrite app_assoc_string.
  - exists (v1 ++ v2)%string. rewrite E1, E2. now rewrite app_assoc_string.
Qed.

Lemma substring_app v s : String.substring 0 (String.length v) (v ++ s) = v.
Proof.
  induction v as [|c v IH]; [destruct s; reflexivity|].
  rewrite append_cons. cbn [String.length String.substring]. now rewrite IH.
Qed.

Lemma consumed_app v s : consumed (v ++ s) s = v.
Proof.
  unfold consumed. rewrite string_length_app.
  replace (String.length v + String.length s - String.length s)%nat
    with (String.length v) by lia.
  apply substring_app.
Qed.

Lemma app_inv_tail_string a : forall b s, (a ++ s)%string = (b ++ s)%string -> a = b.
Proof.
  induction a as [|c a IH]; intros [|c' b] s E; trivial;
    try (apply (f_equal String.length) in E;
         rewrite ?append_cons, ?append_nil in E; cbn [String.length] in E;
         rewrite ?string_length_app in E; lia).
  rewrite !append_cons in E. inversion E; subst. f_equal. now apply (IH b s).
Qed.

Lemma ToLowerASCII_app a b : ToLowerASCII (a ++ b) = (ToLowerASCII a ++ ToLowerASCII b)%string.
Proof.
  induction a as [|c a IH]; [reflexivity|].
  rewrite append_cons. cbn [ToLowerASCII]. rewrite IH. now rewrite append_cons.
Qed.

Lemma plainLetter_cases c :
  plainLetter c = true ->
  foldByte c = Alt (Byte (toUpper c)) (Byte (toLower c))
  /\ ToLowerASCII (String (toUpper c) "") = String c ""
  /\ ToLowerASCII (String (toLower c) "") = String c "".
Proof.
  destruct c as [[] [] [] [] [] [] [] []]; intros H; try discriminate H;
    vm_compute; repeat split; reflexivity.
Qed.

Lemma litFold_lower w : forall s s',
  allBytes plainLetter w = true ->
  Matches (litFold w) s s' ->
  exists v, s = (v ++ s')%string /\ ToLowerASCII v = w.
Proof.
  induction w as [|c w IH]; intros s s' P M.
  - inversion M; subst. exists "". split; reflexivity.
  - cbn [allBytes] in P. apply andb_true_iff in P. destruct P as [Pc Pw].
    cbn [litFold] in M. destruct (plainLetter_cases c Pc) as (F & U & L).
    rewrite F in M. inversion M as [| | |? ? ? s1 ? M1 M2| | | | | | |]; subst.
    inversion M1 as [| | | |? ? ? ? Ma|? ? ? ? Mb| | | | |]; subst.
    + inversion Ma; subst.
      destruct (IH _ _ Pw M2) as (v & E & Ev).
      exists (String (toUpper c) v). split; [now rewrite E|].
      change (String (toUpper c) v) with (String (toUpper c) "" ++ v)%string.
      rewrite ToLowerASCII_app, U, Ev. reflexivity.
    + inversion Mb; subst.
      destruct (IH _ _ Pw M2) as (v & E & Ev).
      exists (String (toLower c) v). split; [now rewrite E|].
      change (String (toLower c) v) with (String (toLower c) "" ++ v)%string.
      rewrite ToLowerASCII_app, L, Ev. reflexivity.
Qed.

Lemma FindStringSubmatch_found r : forall s whole caps,
  FindStringSubmatch r s = Some (whole, caps) ->
  exists s0, run r s0 [] (fun s' caps' => Some (consumed s0 s', caps')) = Some (whole, caps).
Proof.
  induction s as [|c s IH]; intros whole caps H; cbn [FindStringSubmatch] in H.
  - destruct (run r "" [] _) as [m|] eqn:E; [|discriminate].
    inversion H; subst. now exists "".
  - destruct (run r (String c s) [] _) as [m|] eqn:E.
    + inversion H; subst. now exists (String c s).
    + now apply IH.
Qed.

Lemma Contains_prefix p s : Go.Contains (p ++ s) p = true.
Proof.
  assert (P : forall p s, String.prefix p (p ++ s) = true).
  { clear. induction p as [|c p IH]; intros s; [destruct s; reflexivity|].
    rewrite append_cons. cbn [String.prefix].
    destruct (ascii_dec c c); [apply IH|congruence]. }
  destruct (p ++ s)%string eqn:E; cbn [Go.Contains]; rewrite <- E, P; reflexivity.
Qed.


Lemma FindStringSubmatch_lit_absent p r : forall s,
  Go.Contains s p = false -> FindStringSubmatch (Cat (lit p) r) s = None.
Proof.
  induction s as [|c s IH]; cbn [FindStringSubmatch Go.Contains]; intros H;
    apply orb_false_iff in H; destruct H as [H1 H2];
    rewrite run_Cat, run_lit, H1.
  - reflexivity.
  - now apply IH.
Qed.

(** X22. What [ParseInfo] reports when the capture does not show it: the
    token count is 0 when the text, colour sequences removed, has no
    downward arrow, and the thinking time is 0 when its last 20 lines do
    not contain the word Thinking, spelled so. *)
Theorem ParseInfo_defaults (content : string) :
  (Go.Contains (stripANSI content) "↓" = false -> Tokens (ParseInfo content) = 0)
  /\ (Go.Contains (getLastLines (stripANSI content) 20) "Thinking" = false ->
      ThinkingTime (ParseInfo content) = 0).
Proof.
  unfold ParseInfo; cbn [Tokens ThinkingTime LastLine State].
  split.
  - intros H. unfold parseTokens, tokenPattern.
    now rewrite FindStringSubmatch_lit_absent.
  - intros H. unfold parseThinkingTime, thinkingPattern.
    now rewrite FindStringSubmatch_lit_absent.
Qed.

End ClaudeProps.

(* ===================================================================== *)
(** ** internal/game                                                      *)
(* ===================================================================== *)
Module GameProps.
Import Go GoFacts Game.

(** *** APMTracker *)

(** The window in nanoseconds, negated, as [recalculate] computes it. *)
Lemma window_offset_negative w :
  1 <= w <= 9223372036 -> mul64 (neg64 w) Second = - (w * Second).
Proof.
  intros H. unfold mul64, neg64.
  rewrite (wrap64_small (- w)) by (unfold inInt64, minInt64, maxInt64; lia).
  rewrite wrap64_small; unfold inInt64, minInt64, maxInt64, Second; lia.
Qed.

Lemma window_offset_nonnegative w :
  - 9223372036 <= w <= 0 -> mul64 (neg64 w) Second = - w * Second.
Proof.
  intros H. unfold mul64, neg64.
  rewrite (wrap64_small (- w)) by (unfold inInt64, minInt64, maxInt64; lia).
  rewrite wrap64_small; unfold inInt64, minInt64, maxInt64, Second; lia.
Qed.

(** One action on a fresh tracker, read at once: the rate is decided by the
    sign of the (wrapped) window alone. *)
Lemma single_action_rate w t :
  Current (RecordAction (NewAPMTracker w) t) =
  if mul64 (neg64 w) Second <? 0 then 60 else 0.
Proof.
  unfold Current, RecordAction, NewAPMTracker, recalculate; simpl.
  unfold Time_After, Time_Add.
  replace (t + mul64 (neg64 w) Second <? t) with (mul64 (neg64 w) Second <? 0)
    by (destruct (Z.ltb_spec (mul64 (neg64 w) Second) 0);
        destruct (Z.ltb_spec (t + mul64 (neg64 w) Second) t); lia).
  destruct (mul64 (neg64 w) Second <? 0); simpl; [|reflexivity].
  rewrite Time_Sub_exact by (rewrite Z.sub_diag; unfold inInt64, minInt64, maxInt64; lia).
  rewrite Z.sub_diag. vm_compute. reflexivity.
Qed.

(** C8, as stated, fails: with a window of zero seconds the action just
    recorded is not after the cutoff, is pruned, and the rate read is 0. *)
Lemma single_action_zero_window :
  Current (RecordAction (NewAPMTracker 0) 1000) = 0
  /\ ~ (forall w t, Current (RecordAction (NewAPMTracker w) t) = 60).
Proof.
  split; [vm_compute; reflexivity|].
  intros H. specialize (H 0 1000). vm_compute in H. discriminate.
Qed.

(** C8, amended. For every tracker whose window is at least one second (and
    whose window in nanoseconds fits a [Duration]) and every time [t],
    recording one action at [t] on the fresh tracker and reading the rate at
    the same instant gives exactly 60; with a window of zero or fewer
    seconds the action is pruned at once and the rate read is 0. *)
Theorem single_action_rate_60 (w : Z) (t : Time) :
  (1 <= w <= 9223372036 -> Current (RecordAction (NewAPMTracker w) t) = 60)
  /\ (- 9223372036 <= w <= 0 -> Current (RecordAction (NewAPMTracker w) t) = 0).
Proof.
  split; intros H; rewrite single_action_rate.
  - rewrite window_offset_negative by exact H.
    destruct (Z.ltb_spec (- (w * Second)) 0); [reflexivity|unfold Second in *; lia].
  - rewrite window_offset_nonnegative by exact H.
    destruct (Z.ltb_spec (- w * Second) 0); [unfold Second in *; lia|reflexivity].
Qed.

(** The default window of 60 seconds ([DefaultEngineConfig]). *)
Lemma single_action_rate_60_witness :
  Current (RecordAction (NewAPMTracker 60) 1700000000000000000) = 60.
Proof.
  apply (proj1 (single_action_rate_60 60 1700000000000000000)). lia.
Defined.

(** *** ControlGroups *)

Lemma Cycle_fst c g now :
  fst (Cycle c g now) =
  {| groups := groups c; lastTap := <[g := now]> (lastTap c);
     tapThreshold := tapThreshold c |}.
Proof. reflexivity. Qed.

Lemma Cycle_flag c g now :
  snd (snd (Cycle c g now)) =
  match lastTap c !! g with
  | Some last => Time_Sub now last <? tapThreshold c
  | None => false
  end.
Proof. reflexivity. Qed.

(** A call on another slot leaves this slot's last activation alone. *)
Lemma Cycle_other_slot c g g' now :
  g' <> g -> lastTap (fst (Cycle c g' now)) !! g = lastTap c !! g.
Proof. intros H. simpl. now rewrite lookup_insert_ne. Qed.

(** The flag of the second of two calls on one slot. *)
Lemma second_Cycle_flag c g t1 t2 :
  snd (snd (Cycle (fst (Cycle c g t1)) g t2)) = (Time_Sub t2 t1 <? tapThreshold c).
Proof. rewrite Cycle_flag, Cycle_fst; simpl. now rewrite lookup_insert_eq. Qed.

(** C9, as stated, fails at the boundary: two calls exactly the threshold
    apart (300 ms with the default configuration) are within the threshold
    and not farther apart than it, yet the second call reports no
    double tap, because the comparison is [now.Sub(lastTap) < tapThreshold]. *)
Lemma Cycle_at_threshold :
  snd (Cycle (fst (Cycle (Assign (NewControlGroups 300) 1 "session-a") 1 0)) 1 300000000)
    = ("session-a", false)
  /\ ~ (forall c g t1 t2, t1 <= t2 -> t2 - t1 <= tapThreshold c ->
          snd (snd (Cycle (fst (Cycle c g t1)) g t2)) = true).
Proof.
  split.
  - apply injective_projections; [|rewrite second_Cycle_flag]; reflexivity.
  - intros H.
    specialize (H (NewControlGroups 300) 1 0 300000000 ltac:(lia) ltac:(vm_compute; discriminate)).
    rewrite second_Cycle_flag in H. vm_compute in H. discriminate.
Qed.

(** C9, amended. For every slot, of two [Cycle] calls on it (the clock not
    running backwards between them) the second reports a double tap when
    the calls are strictly less than the threshold apart, and none when
    they are the threshold or more apart; every call, whatever it reports,
    records its own time as the slot's last activation, changes no
    assignment, and returns the session assigned to the slot, the empty
    string if there is none. *)
Theorem Cycle_double_tap (c : ControlGroups) (g : Z) (t1 t2 : Time) :
  inInt64 (tapThreshold c) -> t1 <= t2 ->
  let r1 := Cycle c g t1 in
  let r2 := Cycle (fst r1) g t2 in
  (t2 - t1 < tapThreshold c -> snd (snd r2) = true)
  /\ (tapThreshold c <= t2 - t1 -> snd (snd r2) = false)
  /\ lastTap (fst r1) !! g = Some t1
  /\ lastTap (fst r2) !! g = Some t2
  /\ groups (fst r1) = groups c /\ groups (fst r2) = groups c
  /\ fst (snd r1) = Get c g /\ fst (snd r2) = Get c g
  /\ (groups c !! g = None -> fst (snd r2) = "").
Proof.
  intros [Hlo Hhi] Hle r1 r2. subst r1 r2.
  rewrite second_Cycle_flag.
  assert (Hsub : Time_Sub t2 t1 = Z.min (t2 - t1) maxInt64).
  { unfold Time_Sub.
    destruct (Z.ltb_spec (t2 - t1) minInt64); [unfold minInt64 in *; lia|].
    destruct (Z.ltb_spec maxInt64 (t2 - t1)); lia. }
  rewrite Hsub.
  split; [intros H; apply Z.ltb_lt; lia|].
  split; [intros H; apply Z.ltb_ge; lia|].
  split; [simpl; apply lookup_insert_eq|].
  split; [simpl; apply lookup_insert_eq|].
  repeat (split; [reflexivity|]).
  intros H. simpl. unfold Get. simpl. now rewrite H.
Qed.

(** The default threshold of 300 ms: calls 299.999999 ms apart. *)
Lemma Cycle_double_tap_witness :
  let c := Assign (NewControlGroups 300) 1 "session-a" in
  snd (snd (Cycle (fst (Cycle c 1 0)) 1 299999999)) = true.
Proof.
  intros c.
  apply (Cycle_double_tap c 1 0 299999999).
  - vm_compute. split; discriminate.
  - lia.
  - vm_compute. reflexivity.
Defined.

Lemma delete_absent_same (c : ControlGroups) g :
  groups c !! g = None ->
  {| groups := delete g (groups c); lastTap := lastTap c;
     tapThreshold := tapThreshold c |} = c.
Proof. intros H. destruct c; simpl in *. f_equal. now apply delete_id. Qed.

(** C10. [Remove(slot, session)] clears the slot only when the slot holds
    exactly the named session; when the slot is empty or holds another
    session the call changes nothing at all; and in every case the other
    slots' assignments and all last-activation times are as before. *)
Theorem Remove_frame (c : ControlGroups) (g : Z) (session : string) :
  (Get c g = session -> groups (Remove c g session) = delete g (groups c))
  /\ (groups (Remove c g session) !! g <> groups c !! g ->
      groups c !! g = Some session)
  /\ (groups c !! g = None -> Remove c g session = c)
  /\ (forall other, groups c !! g = Some other -> other <> session ->
      Remove c g session = c)
  /\ (forall g', g' <> g -> groups (Remove c g session) !! g' = groups c !! g')
  /\ lastTap (Remove c g session) = lastTap c
  /\ tapThreshold (Remove c g session) = tapThreshold c.
Proof.
  unfold Remove.
  destruct (String.eqb_spec (Get c g) session) as [E|N]; simpl.
  - split; [reflexivity|].
    split.
    { intros H. unfold Get in E. destruct (groups c !! g) as [s|] eqn:L.
      - simpl in E. now subst.
      - exfalso. apply H. apply lookup_delete_eq. }
    split; [apply delete_absent_same|].
    split.
    { intros other L N. exfalso. unfold Get in E. rewrite L in E. simpl in E. congruence. }
    split; [intros g' Hg; now apply lookup_delete_ne|].
    split; reflexivity.
  - split; [intros E; contradiction|].
    split; [intros H; now contradiction H|].
    repeat (split; [reflexivity|]). reflexivity.
Qed.

(** The package's test [TestControlGroupsRemove]: removing the session
    in the slot empties it; removing another one is a no-op. *)
Lemma Remove_frame_witness :
  let c := Assign (NewControlGroups 300) 1 "session-a" in
  Get (Remove c 1 "session-a") 1 = "" /\ Remove c 1 "session-b" = c.
Proof.
  intros c.
  destruct (Remove_frame c 1 "session-a") as (H1 & _).
  destruct (Remove_frame c 1 "session-b") as (_ & _ & _ & H4 & _).
  split.
  - unfold Get. rewrite H1 by (unfold c, Get; simpl; now rewrite lookup_insert_eq).
    now rewrite lookup_delete_eq.
  - apply (H4 "session-a"); [simpl; apply lookup_insert_eq | discriminate].
Defined.

(** *** PomodoroTimer *)

Lemma Tick_not_running p now :
  state p = PomodoroStopped \/ state p = PomodoroPaused -> Tick p now = (p, []).
Proof. unfold Tick. intros [H|H]; now rewrite H. Qed.

Lemma Tick_countdown p now :
  state p = PomodoroWork \/ isBreak (state p) ->
  Time_Sub now (lastTick p) < remaining p ->
  fst (Tick p now) =
  setRun p (state p) (sub64 (remaining p) (Time_Sub now (lastTick p))) now (completed p).
Proof.
  intros Hs Hlt. unfold Tick.
  apply Z.ltb_lt in Hlt. rewrite Hlt.
  destruct Hs as [H|[H|H]]; rewrite H; reflexivity.
Qed.

Lemma Tick_work_expiry p now :
  state p = PomodoroWork -> remaining p <= Time_Sub now (lastTick p) ->
  fst (Tick p now) =
  if sessionsBeforeLongBreak p <=? add64 (completed p) 1
  then setRun p PomodoroLongBreak (mul64 (longBreakMinutes p) Minute) now 0
  else setRun p PomodoroShortBreak (mul64 (shortBreakMinutes p) Minute) now
              (add64 (completed p) 1).
Proof.
  intros Hs Hge. unfold Tick. rewrite Hs.
  apply Z.ltb_ge in Hge. rewrite Hge.
  unfold transition; simpl. rewrite ?Hs; simpl.
  destruct (sessionsBeforeLongBreak p <=? add64 (completed p) 1); reflexivity.
Qed.

Lemma Tick_break_expiry p now :
  isBreak (state p) -> remaining p <= Time_Sub now (lastTick p) ->
  fst (Tick p now) =
  setRun p PomodoroWork (mul64 (workMinutes p) Minute) now (completed p).
Proof.
  intros Hs Hge. unfold Tick.
  apply Z.ltb_ge in Hge. rewrite Hge.
  destruct Hs as [H|H]; rewrite H; unfold transition; simpl; rewrite ?H; reflexivity.
Qed.

(** [Tick] changes the completed counter only when a work interval expires. *)
Lemma Tick_completed_changes p now :
  completed (fst (Tick p now)) <> completed p ->
  state p = PomodoroWork /\ remaining p <= Time_Sub now (lastTick p).
Proof.
  intros H.
  destruct (Z.lt_ge_cases (Time_Sub now (lastTick p)) (remaining p)) as [Hlt|Hge].
  - destruct (state p) eqn:Hs.
    + rewrite Tick_not_running in H by auto. now contradiction H.
    + rewrite Tick_not_running in H by auto. now contradiction H.
    + rewrite Tick_countdown in H by auto. now contradiction H.
    + rewrite Tick_countdown in H by (unfold isBreak; rewrite ?Hs; auto).
      now contradiction H.
    + rewrite Tick_countdown in H by (unfold isBreak; rewrite ?Hs; auto).
      now contradiction H.
  - destruct (state p) eqn:Hs.
    + rewrite Tick_not_running in H by auto. now contradiction H.
    + rewrite Tick_not_running in H by auto. now contradiction H.
    + split; [reflexivity | exact Hge].
    + rewrite Tick_break_expiry in H by (unfold isBreak; rewrite ?Hs; auto).
      now contradiction H.
    + rewrite Tick_break_expiry in H by (unfold isBreak; rewrite ?Hs; auto).
      now contradiction H.
Qed.

Lemma nondecreasing_last t0 ts : nondecreasingFrom t0 ts -> t0 <= List.last ts t0.
Proof.
  revert t0. induction ts as [|t ts IH]; intros t0 H; simpl in H; [simpl; lia|].
  destruct H as [H1 H2]. rewrite last_cons_default.
  specialize (IH t H2). lia.
Qed.

(** Ticks that together consume less than the remaining work time leave the
    timer at work, the counter untouched, and charge exactly the time that
    has passed. *)
Lemma ticks_countdown ts : forall p,
  state p = PomodoroWork -> inInt64 (remaining p) ->
  nondecreasingFrom (lastTick p) ts ->
  List.last ts (lastTick p) - lastTick p < remaining p ->
  let q := ticks p ts in
  state q = PomodoroWork /\ completed q = completed p
  /\ remaining q = remaining p - (List.last ts (lastTick p) - lastTick p)
  /\ lastTick q = List.last ts (lastTick p)
  /\ sessionsBeforeLongBreak q = sessionsBeforeLongBreak p
  /\ shortBreakMinutes q = shortBreakMinutes p
  /\ longBreakMinutes q = longBreakMinutes p.
Proof.
  induction ts as [|t ts IH]; intros p Hs Hr Hmono Hlt; cbv zeta.
  - simpl. repeat split; try reflexivity; try assumption. lia.
  - simpl in Hmono. destruct Hmono as [Hle Hmono].
    rewrite last_cons_default in Hlt |- *.
    pose proof (nondecreasing_last t ts Hmono) as Hlast.
    assert (Hsub : Time_Sub t (lastTick p) = t - lastTick p).
    { apply Time_Sub_exact. unfold inInt64, minInt64, maxInt64 in *. lia. }
    unfold ticks; simpl. fold (ticks (fst (Tick p t)) ts).
    rewrite Tick_countdown by (auto; rewrite Hsub; lia).
    rewrite Hsub, Hs.
    assert (Hrem : sub64 (remaining p) (t - lastTick p) = remaining p - (t - lastTick p)).
    { apply wrap64_small. unfold inInt64, minInt64, maxInt64 in *. lia. }
    rewrite Hrem.
    set (p1 := setRun p PomodoroWork (remaining p - (t - lastTick p)) t (completed p)).
    destruct (IH p1) as (H1 & H2 & H3 & H4 & H5 & H6 & H7).
    + reflexivity.
    + simpl. unfold inInt64, minInt64, maxInt64 in *. lia.
    + exact Hmono.
    + simpl. lia.
    + simpl in *. repeat split; try assumption. lia.
Qed.

(** C7. Starting the timer from stopped puts it at work with the configured
    work duration remaining.  While the ticks have consumed less than the
    work duration the timer stays at work; at the tick by which they have
    consumed all of it (elapsed >= remaining) the completed counter is
    incremented and the timer goes to the short break, or, when the
    incremented counter has reached the configured threshold, to the long
    break with the counter reset to zero.  No other tick changes the
    counter: the expiry of a break leads back to work and leaves it alone. *)
Theorem Pomodoro_work_cycle (p : PomodoroTimer) (now : Time) :
  (state p = PomodoroStopped ->
     state (Start p now) = PomodoroWork
     /\ remaining (Start p now) = mul64 (workMinutes p) Minute
     /\ lastTick (Start p now) = now
     /\ completed (Start p now) = completed p
     /\ (inInt64 (workMinutes p * Minute) ->
         remaining (Start p now) = workMinutes p * Minute))
  /\ (state p = PomodoroWork -> remaining p <= Time_Sub now (lastTick p) ->
      let done := add64 (completed p) 1 in
      let p' := fst (Tick p now) in
      (inInt64 (completed p + 1) -> done = completed p + 1)
      /\ (sessionsBeforeLongBreak p <= done ->
          state p' = PomodoroLongBreak /\ completed p' = 0
          /\ remaining p' = mul64 (longBreakMinutes p) Minute)
      /\ (done < sessionsBeforeLongBreak p ->
          state p' = PomodoroShortBreak /\ completed p' = done
          /\ remaining p' = mul64 (shortBreakMinutes p) Minute))
  /\ (state p = PomodoroWork -> Time_Sub now (lastTick p) < remaining p ->
      state (fst (Tick p now)) = PomodoroWork
      /\ completed (fst (Tick p now)) = completed p
      /\ remaining (fst (Tick p now)) = sub64 (remaining p) (Time_Sub now (lastTick p)))
  /\ (isBreak (state p) -> remaining p <= Time_Sub now (lastTick p) ->
      state (fst (Tick p now)) = PomodoroWork
      /\ completed (fst (Tick p now)) = completed p
      /\ remaining (fst (Tick p now)) = mul64 (workMinutes p) Minute)
  /\ (completed (fst (Tick p now)) <> completed p ->
      state p = PomodoroWork /\ remaining p <= Time_Sub now (lastTick p))
  /\ (forall ts,
      state p = PomodoroWork -> inInt64 (remaining p) ->
      nondecreasingFrom (lastTick p) (ts ++ [now])%list ->
      List.last ts (lastTick p) - lastTick p < remaining p ->
      remaining p <= now - lastTick p ->
      let q := ticks p ts in
      let p' := fst (Tick q now) in
      state q = PomodoroWork /\ completed q = completed p
      /\ (sessionsBeforeLongBreak p <= add64 (completed p) 1 ->
          state p' = PomodoroLongBreak /\ completed p' = 0)
      /\ (add64 (completed p) 1 < sessionsBeforeLongBreak p ->
          state p' = PomodoroShortBreak /\ completed p' = add64 (completed p) 1)).
Proof.
  split.
  { intros Hs. unfold Start. rewrite Hs. simpl.
    repeat (split; [reflexivity|]). intros H. now apply wrap64_small. }
  split.
  { intros Hs Hge done p'. subst done p'.
    rewrite Tick_work_expiry by assumption.
    split; [intros H; now apply wrap64_small|].
    split; intros H.
    - apply Z.leb_le in H. rewrite H. simpl. auto.
    - apply Z.leb_gt in H. rewrite H. simpl. auto. }
  split.
  { intros Hs Hlt. rewrite Tick_countdown by auto. rewrite Hs. simpl. auto. }
  split.
  { intros Hs Hge. rewrite Tick_break_expiry by assumption. simpl. auto. }
  split; [apply Tick_completed_changes|].
  intros ts Hs Hr Hmono Hlt Hge q p'. subst q p'.
  assert (Hm : nondecreasingFrom (lastTick p) ts /\ List.last ts (lastTick p) <= now).
  { clear - Hmono. revert Hmono. generalize (lastTick p).
    induction ts as [|t ts IH]; intros t0 H; simpl in H.
    - simpl. split; [exact I | lia].
    - destruct H as [H1 H2]. rewrite last_cons_default.
      destruct (IH t H2) as [H3 H4]. simpl. auto. }
  destruct Hm as [Hm Hlast].
  destruct (ticks_countdown ts p Hs Hr Hm Hlt) as (H1 & H2 & H3 & H4 & H5 & H6 & H7).
  split; [exact H1|]. split; [exact H2|].
  assert (Hexp : remaining (ticks p ts) <= Time_Sub now (lastTick (ticks p ts))).
  { rewrite H3, H4. unfold Time_Sub.
    pose proof (nondecreasing_last _ _ Hm).
    destruct (Z.ltb_spec (now - List.last ts (lastTick p)) minInt64);
      [unfold minInt64 in *; lia|].
    destruct (Z.ltb_spec maxInt64 (now - List.last ts (lastTick p)));
      [unfold inInt64 in Hr; lia | lia]. }
  rewrite Tick_work_expiry by assumption.
  rewrite H5, H2.
  split; intros H.
  - apply Z.leb_le in H. rewrite H. simpl. auto.
  - apply Z.leb_gt in H. rewrite H. simpl. auto.
Qed.

(** The default timer (25/5/15 minutes, long break after 4): started at 0
    and ticked after 10, 20 and 25 minutes, it is at work with 25 minutes
    to go, still at work after the first two ticks, and on its short break
    with one completed interval after the third. *)
Lemma Pomodoro_work_cycle_witness :
  let p1 := Start (NewPomodoroTimer 25 5 15 4 0) 0 in
  let q := ticks p1 [600000000000; 1200000000000] in
  let p2 := fst (Tick q 1500000000000) in
  (state p1 = PomodoroWork /\ remaining p1 = 25 * Minute)
  /\ state q = PomodoroWork
  /\ state p2 = PomodoroShortBreak /\ completed p2 = 1.
Proof.
  intros p1 q p2.
  destruct (Pomodoro_work_cycle (NewPomodoroTimer 25 5 15 4 0) 0) as (HStart & _).
  destruct (Pomodoro_work_cycle p1 1500000000000) as (_ & _ & _ & _ & _ & Hrun).
  destruct (HStart eq_refl) as (H1 & _ & _ & _ & H2).
  split; [split; [exact H1 | apply H2; vm_compute; split; discriminate]|].
  destruct (Hrun [600000000000; 1200000000000]) as (H3 & _ & _ & H4).
  - reflexivity.
  - vm_compute. split; discriminate.
  - vm_compute. repeat split; discriminate.
  - vm_compute. reflexivity.
  - vm_compute. discriminate.
  - split; [exact H3|]. apply H4. vm_compute. reflexivity.
Defined.

(** *** The package's tests, replayed on the model *)

Example TestControlGroupsAssign :
  let cg := Assign (NewControlGroups 300) 1 "session-a" in
  Get cg 1 = "session-a" /\ Get (Assign cg 1 "session-b") 1 = "session-b".
Proof. vm_compute. split; reflexivity. Qed.

Example TestControlGroupsCycle :
  let cg := Assign (NewControlGroups 300) 1 "session-a" in
  fst (snd (Cycle cg 1 0)) = "session-a"
  /\ fst (snd (Cycle (fst (Cycle cg 1 0)) 2 1)) = "".
Proof. vm_compute. split; reflexivity. Qed.

Example TestControlGroupsContains :
  let cg := Assign (NewControlGroups 300) 1 "session-a" in
  Contains cg 1 "session-a" = true /\ Contains cg 1 "session-b" = false
  /\ Contains cg 2 "session-a" = false.
Proof. vm_compute. repeat split; reflexivity. Qed.

Example TestControlGroupsRemoveSession :
  let cg := Assign (Assign (NewControlGroups 300) 1 "session-a") 2 "session-a" in
  Count (RemoveSession cg "session-a") 1 = 0
  /\ Count (RemoveSession cg "session-a") 2 = 0.
Proof. vm_compute. split; reflexivity. Qed.

Example TestControlGroupsCount :
  Count (NewControlGroups 300) 1 = 0
  /\ Count (Assign (NewControlGroups 300) 1 "session-a") 1 = 1.
Proof. vm_compute. split; reflexivity. Qed.

Example TestPomodoroStart :
  let p := NewPomodoroTimer 25 5 15 4 0 in
  IsActive p = false /\ IsActive (Start p 0) = true
  /\ state (Start p 0) = PomodoroWork /\ remaining (Start p 0) = 25 * Minute.
Proof. vm_compute. repeat split; reflexivity. Qed.

Example TestPomodoroToggle :
  let p1 := Toggle (NewPomodoroTimer 25 5 15 4 0) 0 in
  let p2 := fst (Tick p1 10000000) in
  let p3 := Toggle p2 10000001 in
  let p4 := Toggle p3 20000000 in
  state p1 = PomodoroWork
  /\ state p3 = PomodoroPaused /\ remaining p3 = remaining p2
  /\ remaining p3 < remaining p1
  /\ state p4 = PomodoroWork /\ remaining p4 = remaining p2.
Proof. vm_compute. repeat split; reflexivity. Qed.

Example TestPomodoroStateString :
  map PomodoroState_String
      [PomodoroStopped; PomodoroPaused; PomodoroWork; PomodoroShortBreak; PomodoroLongBreak]
  = ["stopped"; "paused"; "work"; "short_break"; "long_break"].
Proof. reflexivity. Qed.

(** Four work intervals in a row with the default configuration: three
    short breaks, then the long break with the counter back at zero. *)
Example pomodoro_four_intervals :
  let step p t := fst (Tick p t) in
  let m := Minute in
  let p1 := step (Start (NewPomodoroTimer 25 5 15 4 0) 0) (25 * m) in
  let p2 := step (step p1 (30 * m)) (55 * m) in
  let p3 := step (step p2 (60 * m)) (85 * m) in
  let p4 := step (step p3 (90 * m)) (115 * m) in
  (state p1, completed p1) = (PomodoroShortBreak, 1)
  /\ (state p2, completed p2) = (PomodoroShortBreak, 2)
  /\ (state p3, completed p3) = (PomodoroShortBreak, 3)
  /\ (state p4, completed p4) = (PomodoroLongBreak, 0)
  /\ (state (step p4 (130 * m)), completed (step p4 (130 * m))) = (PomodoroWork, 0).
Proof. vm_compute. repeat split; reflexivity. Qed.

(** *** ControlGroups: the remaining methods *)

(** X1. [Assign] overwrites the slot whatever it held and touches nothing
    else; undoing it with [Remove] on a slot that was free gives the
    registry back. *)
Theorem Assign_then_Get (c : ControlGroups) (g : Z) (session : string) :
  Get (Assign c g session) g = session
  /\ (forall g', g' <> g -> Get (Assign c g session) g' = Get c g')
  /\ (forall old, Assign (Assign c g old) g session = Assign c g session)
  /\ lastTap (Assign c g session) = lastTap c
  /\ groups (Remove (Assign c g session) g session) = delete g (groups c)
  /\ (groups c !! g = None -> Remove (Assign c g session) g session = c).
Proof.
  assert (G : Get (Assign c g session) g = session).
  { unfold Get, Assign; simpl. now rewrite lookup_insert_eq. }
  assert (R : groups (Remove (Assign c g session) g session) = delete g (groups c)).
  { unfold Remove. rewrite G, String.eqb_refl. simpl. apply delete_insert_eq. }
  split; [exact G|].
  split. { intros g' N. unfold Get, Assign; simpl. now rewrite lookup_insert_ne. }
  split. { intros old. unfold Assign; simpl. now rewrite insert_insert_eq. }
  split; [reflexivity|].
  split; [exact R|].
  intros L. unfold Remove in *. rewrite G, String.eqb_refl in *. simpl in *.
  destruct c; simpl in *. f_equal. rewrite delete_insert_eq. now apply delete_id.
Qed.

(** X2. [RemoveSession] frees every slot that holds the session and no
    other: afterwards no slot holds it, and each slot that held another
    session, or nothing, is as it was. *)
Theorem RemoveSession_clears (c : ControlGroups) (session : string) :
  (forall g, groups (RemoveSession c session) !! g <> Some session)
  /\ (forall g other, other <> session ->
        (groups (RemoveSession c session) !! g = Some other
         <-> groups c !! g = Some other))
  /\ (forall g, groups c !! g = None -> groups (RemoveSession c session) !! g = None)
  /\ GroupsForSession (RemoveSession c session) session = []
  /\ (session <> "" -> forall g, Contains (RemoveSession c session) g session = false)
  /\ lastTap (RemoveSession c session) = lastTap c.
Proof.
  assert (A : forall g, groups (RemoveSession c session) !! g <> Some session).
  { intros g H. unfold RemoveSession in H; simpl in H.
    apply map_lookup_filter_Some in H. destruct H as [_ H]. now apply H. }
  split; [exact A|].
  split.
  { intros g other N. unfold RemoveSession; simpl.
    rewrite map_lookup_filter_Some. simpl. tauto. }
  split.
  { intros g L. unfold RemoveSession; simpl.
    apply map_lookup_filter_None. left. exact L. }
  split.
  { unfold GroupsForSession.
    destruct (List.filter _ _) as [|[g s] l] eqn:F; [reflexivity|exfalso].
    assert (I : In (g, s) (List.filter (fun kv : Z * string => String.eqb (snd kv) session)
                     (map_to_list (groups (RemoveSession c session))))).
    { rewrite F. now left. }
    apply List.filter_In in I. destruct I as [I E]. simpl in E.
    apply String.eqb_eq in E. subst s.
    apply list_elem_of_In, elem_of_map_to_list in I. now apply (A g). }
  split; [|reflexivity].
  intros N g. unfold Contains, Get.
  destruct (groups (RemoveSession c session) !! g) as [s|] eqn:L;
    cbv [default from_option id]; apply String.eqb_neq.
  - intros ->. now apply (A g).
  - congruence.
Qed.

(** X3. [GroupsForSession] lists exactly the slots that hold the session,
    each once; for a named session these are the slots for which
    [Contains] answers yes. *)
Theorem GroupsForSession_exact (c : ControlGroups) (session : string) :
  (forall g, In g (GroupsForSession c session) <-> groups c !! g = Some session)
  /\ List.NoDup (GroupsForSession c session)
  /\ (session <> "" ->
      forall g, In g (GroupsForSession c session) <-> Contains c g session = true).
Proof.
  assert (A : forall g, In g (GroupsForSession c session) <-> groups c !! g = Some session).
  { intros g. unfold GroupsForSession. rewrite in_map_iff. split.
    - intros ([g' s] & E & I). simpl in E. subst g'.
      apply List.filter_In in I. destruct I as [I E]. simpl in E.
      apply String.eqb_eq in E. subst s.
      now apply list_elem_of_In, elem_of_map_to_list in I.
    - intros L. exists (g, session). split; [reflexivity|].
      apply List.filter_In. split; [|simpl; apply String.eqb_refl].
      now apply list_elem_of_In, elem_of_map_to_list. }
  split; [exact A|].
  split.
  { unfold GroupsForSession. apply NoDup_ListNoDup.
    pose proof (NoDup_fst_map_to_list (groups c)) as ND.
    revert ND. generalize (map_to_list (groups c)). intros l.
    induction l as [|[g s] l IH]; simpl; intros ND; [constructor|].
    apply NoDup_cons in ND. destruct ND as [NI ND].
    destruct (String.eqb s session); simpl; [|now apply IH].
    apply NoDup_cons. split; [|now apply IH].
    intros I. apply NI. apply list_elem_of_In in I. apply list_elem_of_In.
    apply in_map_iff in I. destruct I as (x & E & I).
    apply List.filter_In in I. apply in_map_iff. exists x. tauto. }
  intros N g. rewrite A. unfold Contains, Get.
  destruct (groups c !! g) as [s|]; cbv [default from_option id].
  - rewrite String.eqb_eq. split; congruence.
  - split; [discriminate|]. intros E. apply String.eqb_eq in E. congruence.
Qed.

Ltac first_free_case c k :=
  destruct (String.eqb_spec (Get c k) "");
  [ right; split; [lia|]; split; [assumption|];
    let i := fresh "i" in let Hi := fresh "Hi" in
    intros i Hi;
    repeat match goal with
           | H : Get c ?j <> "" |- _ =>
               destruct (Z.eq_dec i j) as [->|]; [exact H|]; clear H
           end; lia
  | ].

(** X4. [FirstFreeGroup] answers the smallest slot of 1..10 whose entry is
    empty or missing, and 0 exactly when all ten are taken; slots outside
    1..10 never count. *)
Theorem FirstFreeGroup_least (c : ControlGroups) :
  (FirstFreeGroup c = 0 /\ forall i, 1 <= i <= 10 -> Get c i <> "")
  \/ (1 <= FirstFreeGroup c <= 10 /\ Get c (FirstFreeGroup c) = ""
      /\ forall i, 1 <= i < FirstFreeGroup c -> Get c i <> "").
Proof.
  unfold FirstFreeGroup. simpl.
  first_free_case c 1. first_free_case c 2. first_free_case c 3.
  first_free_case c 4. first_free_case c 5. first_free_case c 6.
  first_free_case c 7. first_free_case c 8. first_free_case c 9.
  first_free_case c 10.
  left. split; [reflexivity|]. intros i Hi.
  repeat match goal with
         | H : Get c ?j <> "" |- _ =>
             destruct (Z.eq_dec i j) as [->|]; [exact H|]; clear H
         end; lia.
Qed.

(** *** StreakTracker *)

(** Rounding an integer to [float64] never gives a NaN. *)
Lemma shr_1_nonneg r : 0 <= shr_m r -> 0 <= shr_m (shr_1 r).
Proof.
  destruct r as [m r s]; simpl. destruct m as [|p|p]; [simpl; lia| |lia].
  intros _. destruct p; simpl; lia.
Qed.

Lemma shr_nonneg r e n : 0 <= shr_m r -> 0 <= shr_m (fst (shr r e n)).
Proof.
  intros H. unfold shr. destruct n as [|p|p]; simpl; try exact H.
  unfold iter_pos. revert r H.
  induction p as [p IH|p IH|]; simpl; intros r H.
  - apply IH, IH. now apply shr_1_nonneg.
  - apply IH. now apply IH.
  - now apply shr_1_nonneg.
Qed.

Lemma shr_fexp_nonneg m e l : 0 <= m -> 0 <= shr_m (fst (shr_fexp 53 1024 m e l)).
Proof.
  intros H. unfold shr_fexp. apply shr_nonneg.
  destruct l as [|[| |]]; simpl; exact H.
Qed.

Lemma round_nearest_even_nonneg m l : 0 <= m -> 0 <= round_nearest_even m l.
Proof.
  intros H. unfold round_nearest_even.
  destruct l as [|[| |]]; try destruct (Z.even m); lia.
Qed.

Lemma binary_round_aux_not_nan sx mx ex lx :
  0 <= mx -> binary_round_aux 53 1024 sx mx ex lx <> S754_nan.
Proof.
  intros H. unfold binary_round_aux.
  pose proof (shr_fexp_nonneg mx ex lx H) as H1.
  destruct (shr_fexp 53 1024 mx ex lx) as [mrs' e']. simpl in H1.
  pose proof (shr_fexp_nonneg
                (round_nearest_even (shr_m mrs') (loc_of_shr_record mrs')) e' loc_Exact
                (round_nearest_even_nonneg _ _ H1)) as H2.
  destruct (shr_fexp 53 1024 _ e' loc_Exact) as [mrs'' e'']. simpl in H2.
  destruct (shr_m mrs'') as [|p|p]; [discriminate| |lia].
  destruct (e'' <=? 1024 - 53); discriminate.
Qed.

Lemma f64_of_int_not_nan z : f64_of_int z <> S754_nan.
Proof.
  unfold f64_of_int, binary_normalize.
  destruct z as [|p|p]; [discriminate| |];
    unfold binary_round;
    destruct (shl_align _ _ _) as [mz ez];
    apply binary_round_aux_not_nan; lia.
Qed.

(** The order of [float64] values: comparing the other way round gives
    the opposite answer. *)
Lemma SFcompare_opp x y : SFcompare y x = option_map CompOpp (SFcompare x y).
Proof.
  destruct x as [sx|sx| |sx mx ex], y as [sy|sy| |sy my ey]; simpl;
    try reflexivity; try (destruct sx; reflexivity); try (destruct sy; reflexivity);
    try (destruct sx, sy; reflexivity).
  destruct sx, sy; try reflexivity;
    rewrite (Z.compare_antisym ex ey); destruct (ex ?= ey); simpl; try reflexivity;
    rewrite !Pos.compare_cont_spec; simpl;
    rewrite (Pos.compare_antisym mx my); destruct (mx ?= my)%positive; reflexivity.
Qed.

Lemma SFleb_refl x : x <> S754_nan -> SFleb x x = true.
Proof.
  intros N. unfold SFleb. destruct x as [s|s| |s m e]; simpl; try reflexivity;
    try (destruct s; reflexivity); [congruence|].
  destruct s; rewrite Z.compare_refl, Pos.compare_cont_spec, Pos.compare_refl; reflexivity.
Qed.

Lemma SFltb_false_leb x y :
  x <> S754_nan -> y <> S754_nan -> SFltb x y = false -> SFleb y x = true.
Proof.
  intros Nx Ny. unfold SFltb, SFleb. rewrite (SFcompare_opp x y).
  destruct (SFcompare x y) as [[| |]|] eqn:E; simpl; try reflexivity; try discriminate.
  intros _. exfalso.
  destruct x as [sx|sx| |sx mx ex], y as [sy|sy| |sy my ey]; simpl in E;
    try discriminate; congruence.
Qed.

Lemma SFltb_leb x y : SFltb x y = true -> SFleb x y = true.
Proof. unfold SFltb, SFleb. destruct (SFcompare x y) as [[| |]|]; congruence. Qed.

(** Activating a session that is not yet active raises the count by
    one, deactivating an active one lowers it by one, and repeating either
    call changes nothing. *)
Lemma SetSessionActive_counts (s : StreakTracker) (name : string) :
  StreakCount (SetSessionActive s name true)
  = StreakCount s + match activeSessions s !! name with Some _ => 0 | None => 1 end
  /\ StreakCount (SetSessionActive s name false)
     = StreakCount s - match activeSessions s !! name with Some _ => 1 | None => 0 end
  /\ (forall b, SetSessionActive (SetSessionActive s name b) name b
                = SetSessionActive s name b)
  /\ StreakCount (SetSessionActive (SetSessionActive s name true) name false)
     = StreakCount (SetSessionActive s name false)
  /\ 0 <= StreakCount s.
Proof.
  unfold StreakCount, SetSessionActive; simpl.
  split. { rewrite map_size_insert. destruct (activeSessions s !! name); simpl; lia. }
  split.
  { rewrite map_size_delete. destruct (activeSessions s !! name) eqn:L; simpl; [|lia].
    assert (size (activeSessions s) <> 0%nat); [|lia].
    intros Z0. apply map_size_empty_iff in Z0. rewrite Z0 in L.
    now rewrite lookup_empty in L. }
  split.
  { intros [|]; f_equal; [apply insert_insert_eq | apply delete_delete_eq]. }
  split; [|lia].
  now rewrite delete_insert_eq.
Qed.

(** The multiplier: 1.0 up to one session, the count above, the cap at
    most. *)
Lemma Multiplier_capped (s : StreakTracker) :
  (StreakCount s <= 1 -> Multiplier s = f64_of_int 1)
  /\ (2 <= StreakCount s ->
      (Multiplier s = multiplierCap s \/ Multiplier s = f64_of_int (StreakCount s))
      /\ SFleb (Multiplier s) (f64_of_int (StreakCount s)) = true
      /\ (multiplierCap s <> S754_nan -> SFleb (Multiplier s) (multiplierCap s) = true)).
Proof.
  unfold Multiplier, StreakCount.
  set (count := Z.of_nat (size (activeSessions s))).
  split.
  - intros H. destruct (Z.leb_spec count 1); [reflexivity|lia].
  - intros H. destruct (Z.leb_spec count 1); [lia|].
    destruct (SFltb (multiplierCap s) (f64_of_int count)) eqn:L.
    + split; [now left|]. split; [now apply SFltb_leb|].
      intros N. now apply SFleb_refl.
    + split; [now right|]. split; [apply SFleb_refl, f64_of_int_not_nan|].
      intros N. apply SFltb_false_leb; [exact N | apply f64_of_int_not_nan | exact L].
Qed.

(** X5. The streak tracker counts distinct names: activating a session
    that is not yet active raises the count by one, deactivating an active
    one lowers it by one, and repeating either call changes nothing.  With
    at most one active session the multiplier is 1.0 whatever the cap;
    with two or more it is the session count as a [float64], replaced by
    the cap when the count exceeds it, so that it never exceeds the count
    nor, for a cap that is a number, the cap. *)
Theorem StreakTracker_counts_and_caps (s : StreakTracker) (name : string) :
  (StreakCount (SetSessionActive s name true)
   = StreakCount s + match activeSessions s !! name with Some _ => 0 | None => 1 end
   /\ StreakCount (SetSessionActive s name false)
      = StreakCount s - match activeSessions s !! name with Some _ => 1 | None => 0 end
   /\ (forall b, SetSessionActive (SetSessionActive s name b) name b
                 = SetSessionActive s name b)
   /\ StreakCount (SetSessionActive (SetSessionActive s name true) name false)
      = StreakCount (SetSessionActive s name false)
   /\ 0 <= StreakCount s)
  /\ (StreakCount s <= 1 -> Multiplier s = f64_of_int 1)
  /\ (2 <= StreakCount s ->
      (Multiplier s = multiplierCap s \/ Multiplier s = f64_of_int (StreakCount s))
      /\ SFleb (Multiplier s) (f64_of_int (StreakCount s)) = true
      /\ (multiplierCap s <> S754_nan -> SFleb (Multiplier s) (multiplierCap s) = true)).
Proof.
  split; [apply SetSessionActive_counts|apply Multiplier_capped].
Qed.

(** The package's tests [TestStreakTrackerMultiplier] and
    [TestStreakTrackerCap]: 1.0, 1.0, 2.0 and 5.0 for zero, one, two and
    five sessions under a cap of 10, and 10.0 for fifteen. *)
Example TestStreakTrackerMultiplier :
  let activate := fold_left (fun s n => SetSessionActive s n true) in
  let s0 := NewStreakTracker 300 (f64_of_int 10) in
  let five := ["s1"; "s2"; "s3"; "s4"; "s5"] in
  let more := ["s6"; "s7"; "s8"; "s9"; "s10"; "s11"; "s12"; "s13"; "s14"; "s15"] in
  Multiplier s0 = f64_of_int 1
  /\ Multiplier (activate ["s1"] s0) = f64_of_int 1
  /\ Multiplier (activate ["s1"; "s2"] s0) = f64_of_int 2
  /\ Multiplier (activate five s0) = f64_of_int 5
  /\ Multiplier (activate (five ++ more)%list s0) = f64_of_int 10
  /\ StreakCount (SetSessionActive (activate ["a"; "b"] s0) "a" false) = 1.
Proof. vm_compute. repeat split; reflexivity. Qed.

(** *** PomodoroTimer: pausing, restoring, and what every run preserves *)

(** X6. Pausing a running timer freezes it: no tick changes it however
    late it comes, and resuming puts back the state, the remaining time and
    the counter it had, with the clock restarted at the moment of
    resumption, so that the time spent paused is never charged.  Two
    presses of the toggle do the same. *)
Theorem Pause_Resume_round_trip (p : PomodoroTimer) (t0 t : Time) :
  state p <> PomodoroStopped -> state p <> PomodoroPaused ->
  let q := Pause p in
  state q = PomodoroPaused
  /\ remaining q = remaining p
  /\ (forall ts, ticks q ts = q)
  /\ state (Resume q t) = state p
  /\ remaining (Resume q t) = remaining p
  /\ completed (Resume q t) = completed p
  /\ lastTick (Resume q t) = t
  /\ Time_Sub t (lastTick (Resume q t)) = 0
  /\ Toggle (Toggle p t0) t = Resume q t.
Proof.
  intros N1 N2 q.
  assert (Q : q = setPaused p PomodoroPaused (state p)).
  { unfold q, Pause. destruct (state p); try reflexivity; congruence. }
  assert (T : Toggle p t0 = q).
  { unfold Toggle, q. destruct (state p); try reflexivity; congruence. }
  rewrite T. rewrite Q. unfold Toggle, Resume. simpl.
  repeat (split; [reflexivity|]).
  split.
  { induction ts as [|x ts IH]; [reflexivity|].
    unfold ticks in *. simpl. exact IH. }
  repeat (split; [reflexivity|]).
  split; [|reflexivity].
  unfold Time_Sub. rewrite Z.sub_diag. reflexivity.
Qed.

Lemma Pause_Resume_round_trip_witness :
  let p := fst (Tick (Start (NewPomodoroTimer 25 5 15 4 0) 0) (10 * Minute)) in
  let q := Resume (Pause p) (500 * Minute) in
  state q = PomodoroWork /\ remaining q = 15 * Minute.
Proof.
  intros p q.
  destruct (Pause_Resume_round_trip p 0 (500 * Minute)) as (_ & _ & _ & H1 & H2 & _).
  - vm_compute. discriminate.
  - vm_compute. discriminate.
  - split; [exact H1 | exact H2].
Defined.

(** X7. [SetState] understands exactly the names that [String] prints:
    restoring from the name of a state gives that state, any other text
    gives the stopped state; the remaining time is taken as given, the
    clock restarts, and the counter and the configuration are kept. *)
Theorem SetState_String_round_trip (p : PomodoroTimer) (r : Z) (now : Time) :
  (forall s, state (SetState p (PomodoroState_String s) r now) = s)
  /\ (forall text, (forall s, PomodoroState_String s <> text) ->
        state (SetState p text r now) = PomodoroStopped)
  /\ (forall text,
        remaining (SetState p text r now) = r
        /\ lastTick (SetState p text r now) = now
        /\ completed (SetState p text r now) = completed p
        /\ pausedState (SetState p text r now) = pausedState p
        /\ workMinutes (SetState p text r now) = workMinutes p
        /\ sessionsBeforeLongBreak (SetState p text r now) = sessionsBeforeLongBreak p).
Proof.
  split; [intros []; reflexivity|].
  split; [|intros text; repeat split; reflexivity].
  intros text H. unfold SetState; simpl.
  destruct (String.eqb_spec text "paused") as [E|_];
    [exfalso; apply (H PomodoroPaused); now rewrite E|].
  destruct (String.eqb_spec text "work") as [E|_];
    [exfalso; apply (H PomodoroWork); now rewrite E|].
  destruct (String.eqb_spec text "short_break") as [E|_];
    [exfalso; apply (H PomodoroShortBreak); now rewrite E|].
  destruct (String.eqb_spec text "long_break") as [E|_];
    [exfalso; apply (H PomodoroLongBreak); now rewrite E|].
  reflexivity.
Qed.

(** X8. A timer restored as paused has no state to go back to unless it
    was paused before in this process: on a fresh timer the resumption
    (or the toggle) leaves it stopped with the restored time still shown,
    and the next toggle starts a full work interval, so the restored
    remaining time is never counted down. *)
Theorem restored_pause_is_lost (p : PomodoroTimer) (r : Z) (t1 t2 t3 : Time) :
  pausedState p = PomodoroStopped ->
  let q := SetState p "paused" r t1 in
  state q = PomodoroPaused
  /\ state (Resume q t2) = PomodoroStopped
  /\ remaining (Resume q t2) = r
  /\ IsActive (Resume q t2) = false
  /\ Toggle q t2 = Resume q t2
  /\ state (Toggle (Toggle q t2) t3) = PomodoroWork
  /\ remaining (Toggle (Toggle q t2) t3) = mul64 (workMinutes p) Minute.
Proof.
  intros H q. unfold q, SetState, Toggle, Resume, IsActive, Start; simpl.
  rewrite H. simpl. repeat split; reflexivity.
Qed.

Lemma restored_pause_is_lost_witness :
  let q := SetState (NewPomodoroTimer 25 5 15 4 0) "paused" (600 * Second) 0 in
  state (Toggle q 1) = PomodoroStopped
  /\ remaining (Toggle (Toggle q 1) 2) = 25 * Minute.
Proof.
  intros q.
  destruct (restored_pause_is_lost (NewPomodoroTimer 25 5 15 4 0) (600 * Second) 0 1 2
              eq_refl) as (_ & H1 & _ & _ & H2 & _ & H3).
  fold q in H1, H2, H3. rewrite H2. split; [exact H1|].
  rewrite H2 in H3. rewrite H3. reflexivity.
Defined.


Lemma applyPomodoro_counter n p o :
  n <= maxInt64 -> counterInRange n p -> counterInRange n (applyPomodoro p o).
Proof.
  intros Hn H. pose proof H as (Hc & H0 & H1).
  destruct o as [now| | |now|now|now|text r now]; simpl.
  - unfold Start. destruct (state p); simpl; try exact H; repeat split; assumption.
  - unfold Stop, counterInRange; simpl. repeat split; assumption.
  - unfold Pause. destruct (state p); simpl; try exact H; repeat split; assumption.
  - unfold Resume. destruct (state p); simpl; try exact H; repeat split; assumption.
  - unfold Toggle, Start, Resume, Pause.
    destruct (state p); simpl; try exact H; repeat split; assumption.
  - unfold Tick.
    destruct (state p) eqn:S; simpl; try exact H;
      (destruct (Time_Sub now (lastTick p) <? remaining p); simpl;
       [repeat split; assumption|]); try (repeat split; assumption).
    assert (E : add64 (completed p) 1 = completed p + 1).
    { apply wrap64_small. unfold inInt64, minInt64, maxInt64 in *. lia. }
    rewrite E, Hc.
    destruct (Z.leb_spec n (completed p + 1)); unfold counterInRange; simpl;
      repeat split; try assumption; lia.
  - unfold SetState, counterInRange; simpl. repeat split; assumption.
Qed.

(** X9. Whatever is done to a timer (start, stop, pause, resume, toggle,
    tick, restore), the number of work intervals before the long break
    stays as configured and the counter of completed intervals stays
    non-negative and, unless it is zero, below that number: it cannot run
    away or wrap around. *)
Theorem completed_counter_bounded
  (work short long sessions : Z) (t0 : Time) (ops : list PomodoroOp) :
  sessions <= maxInt64 ->
  let p := runPomodoro (NewPomodoroTimer work short long sessions t0) ops in
  sessionsBeforeLongBreak p = sessions
  /\ 0 <= CompletedCount p
  /\ (CompletedCount p = 0 \/ CompletedCount p < sessions).
Proof.
  intros Hn. cbv zeta. unfold CompletedCount, runPomodoro.
  change (counterInRange sessions
            (fold_left applyPomodoro ops (NewPomodoroTimer work short long sessions t0))).
  assert (H0 : counterInRange sessions (NewPomodoroTimer work short long sessions t0)).
  { unfold counterInRange; simpl. repeat split; try lia. }
  revert H0. generalize (NewPomodoroTimer work short long sessions t0).
  induction ops as [|o ops IH]; intros p H; simpl; [exact H|].
  apply IH. now apply applyPomodoro_counter.
Qed.

Lemma completed_counter_bounded_witness :
  let p := runPomodoro (NewPomodoroTimer 25 5 15 2 0)
             [DoStart 0; DoTick (25 * Minute); DoTick (30 * Minute);
              DoTick (55 * Minute)] in
  CompletedCount p = 0 /\ state p = PomodoroLongBreak.
Proof.
  intros p.
  destruct (completed_counter_bounded 25 5 15 2 0
              [DoStart 0; DoTick (25 * Minute); DoTick (30 * Minute);
               DoTick (55 * Minute)]) as (_ & _ & H).
  - vm_compute. discriminate.
  - fold p in H. split; [|reflexivity].
    destruct H as [H|H]; [exact H|]. vm_compute. reflexivity.
Defined.


Lemma minutes_in_range m :
  0 <= m <= 153722867 -> 0 <= mul64 m Minute <= maxInt64.
Proof.
  intros H. unfold mul64. rewrite wrap64_small; unfold inInt64, minInt64, maxInt64, Minute; lia.
Qed.

Lemma Time_Sub_nonneg t u : u <= t -> 0 <= Time_Sub t u <= maxInt64.
Proof.
  intros H. unfold Time_Sub.
  destruct (Z.ltb_spec (t - u) minInt64); [unfold minInt64 in *; lia|].
  destruct (Z.ltb_spec maxInt64 (t - u)); unfold maxInt64 in *; lia.
Qed.

Lemma sub64_countdown r e : 0 <= e -> e < r -> r <= maxInt64 -> sub64 r e = r - e.
Proof.
  intros. apply wrap64_small. unfold inInt64, minInt64, maxInt64 in *. lia.
Qed.

Ltac sane_fields :=
  unfold clockSane in *; simpl;
  repeat match goal with H : _ /\ _ |- _ => destruct H end;
  repeat split;
  try assumption; try lia;
  try (apply minutes_in_range; split; assumption).

Lemma Tick_sane t now p : clockSane t p -> t <= now -> clockSane now (fst (Tick p now)).
Proof.
  intros H Hle. pose proof H as (Hr & Ht & Hw & Hs & Hl).
  pose proof (Time_Sub_nonneg now (lastTick p) ltac:(lia)) as He.
  unfold Tick.
  destruct (state p) eqn:S; simpl; try (sane_fields; fail);
    (destruct (Z.ltb_spec (Time_Sub now (lastTick p)) (remaining p)); simpl;
     [ rewrite sub64_countdown by lia; sane_fields | ]).
  - destruct (sessionsBeforeLongBreak p <=? add64 (completed p) 1); sane_fields.
  - sane_fields.
  - sane_fields.
Qed.

Lemma applyPomodoro_sane t p o rest :
  clockSane t p -> clockOrdered t (o :: rest) ->
  exists t', clockSane t' (applyPomodoro p o) /\ clockOrdered t' rest.
Proof.
  intros H [Hrem Hclock].
  destruct o as [now| | |now|now|now|text r now]; simpl in Hclock |- *.
  - exists now. destruct Hclock as [Hle Hrest]. split; [|exact Hrest].
    unfold Start. destruct (state p); sane_fields.
  - exists t. split; [|exact Hclock]. unfold Stop. sane_fields.
  - exists t. split; [|exact Hclock]. unfold Pause. destruct (state p); sane_fields.
  - exists now. destruct Hclock as [Hle Hrest]. split; [|exact Hrest].
    unfold Resume. destruct (state p); sane_fields.
  - exists now. destruct Hclock as [Hle Hrest]. split; [|exact Hrest].
    unfold Toggle, Start, Resume, Pause. destruct (state p); sane_fields.
  - exists now. destruct Hclock as [Hle Hrest]. split; [|exact Hrest].
    now apply (Tick_sane t).
  - exists now. destruct Hclock as [Hle Hrest]. split; [|exact Hrest].
    unfold SetState. sane_fields.
Qed.

Lemma runPomodoro_sane ops : forall t p,
  clockSane t p -> clockOrdered t ops -> exists t', clockSane t' (runPomodoro p ops).
Proof.
  induction ops as [|o ops IH]; intros t p H Hc.
  - exists t. exact H.
  - destruct (applyPomodoro_sane t p o ops H Hc) as (t' & H' & Hc').
    exact (IH t' _ H' Hc').
Qed.

(** X10. With intervals configured between 0 and 153722867 minutes (what
    a [time.Duration] can hold) and a clock that never goes back, the
    remaining time of a timer is never negative and never leaves the
    range of a duration, whatever sequence of starts, stops, pauses,
    resumptions, toggles, ticks and restorations it goes through. *)
Theorem remaining_never_negative
  (work short long sessions : Z) (t0 : Time) (ops : list PomodoroOp) :
  0 <= work <= 153722867 -> 0 <= short <= 153722867 -> 0 <= long <= 153722867 ->
  clockOrdered t0 ops ->
  0 <= remaining (runPomodoro (NewPomodoroTimer work short long sessions t0) ops)
    <= maxInt64.
Proof.
  intros Hw Hs Hl Hc.
  destruct (runPomodoro_sane ops t0 (NewPomodoroTimer work short long sessions t0))
    as (t' & H & _).
  - unfold clockSane; simpl. unfold maxInt64. repeat split; lia.
  - exact Hc.
  - exact H.
Qed.

Lemma remaining_never_negative_witness :
  0 <= remaining (runPomodoro (NewPomodoroTimer 25 5 15 4 0)
                    [DoStart 10; DoTick (20 * Minute); DoPause; DoTick (90 * Minute);
                     DoToggle (91 * Minute); DoTick (200 * Minute)])
    <= maxInt64.
Proof.
  apply remaining_never_negative; try lia.
  simpl. unfold Minute, maxInt64. repeat split; lia.
Defined.

(** *** APMTracker: the window *)

Lemma filter_idem {A} (f : A -> bool) l : List.filter f (List.filter f l) = List.filter f l.
Proof.
  induction l as [|x l IH]; simpl; [reflexivity|].
  destruct (f x) eqn:E; simpl; [rewrite E; now f_equal | exact IH].
Qed.

Lemma filter_length_le {A} (f : A -> bool) l : (length (List.filter f l) <= length l)%nat.
Proof. induction l as [|x l IH]; simpl; [lia|]. destruct (f x); simpl; lia. Qed.

Lemma recalculate_actions a now :
  actions (recalculate a now)
  = List.filter (fun t => Time_After t (Time_Add now (mul64 (neg64 (windowSeconds a)) Second)))
                (actions a).
Proof. unfold recalculate. destruct (List.filter _ _); reflexivity. Qed.

Lemma recalculate_window a now : windowSeconds (recalculate a now) = windowSeconds a.
Proof. unfold recalculate. destruct (List.filter _ _); reflexivity. Qed.

Lemma recalculate_empty a now :
  actions (recalculate a now) = [] -> current (recalculate a now) = 0.
Proof. unfold recalculate. destruct (List.filter _ _); [reflexivity|discriminate]. Qed.

Lemma recalculate_idem a now : recalculate (recalculate a now) now = recalculate a now.
Proof.
  unfold recalculate at 1. rewrite recalculate_window, recalculate_actions.
  rewrite filter_idem. unfold recalculate. reflexivity.
Qed.

(** X11. A tick of the tracker keeps, in their order, exactly the actions
    that are later than the cutoff (for a window of 1 to 9223372036
    seconds: later than [now] minus the window) and drops all others; a
    second tick at the same instant changes nothing; with no action left
    the rate is 0; and an action just recorded is always kept. *)
Theorem APM_window (a : APMTracker) (now : Time) :
  1 <= windowSeconds a <= 9223372036 ->
  let a' := APM_Tick a now in
  actions a'
  = List.filter (fun t => now - windowSeconds a * Second <? t) (actions a)
  /\ (forall t, In t (actions a') <->
                In t (actions a) /\ now - windowSeconds a * Second < t)
  /\ (length (actions a') <= length (actions a))%nat
  /\ APM_Tick a' now = a'
  /\ (actions a' = [] -> Current a' = 0)
  /\ windowSeconds a' = windowSeconds a
  /\ actions (RecordAction a now) = (actions a' ++ [now])%list.
Proof.
  intros Hw. cbv zeta. unfold APM_Tick.
  assert (C : Time_Add now (mul64 (neg64 (windowSeconds a)) Second)
              = now - windowSeconds a * Second).
  { rewrite window_offset_negative by exact Hw. unfold Time_Add. lia. }
  assert (A : actions (recalculate a now)
              = List.filter (fun t => now - windowSeconds a * Second <? t) (actions a)).
  { rewrite recalculate_actions, C. reflexivity. }
  split; [exact A|].
  split.
  { intros t. rewrite A, List.filter_In, Z.ltb_lt. tauto. }
  split; [rewrite A; apply filter_length_le|].
  split; [apply recalculate_idem|].
  split; [apply recalculate_empty|].
  split; [apply recalculate_window|].
  unfold RecordAction. rewrite recalculate_actions. simpl.
  rewrite C, List.filter_app, A. simpl. unfold Time_After.
  destruct (Z.ltb_spec (now - windowSeconds a * Second) now); [reflexivity|].
  unfold Second in *. lia.
Qed.

Lemma APM_window_witness :
  actions (APM_Tick {| actions := [0; 30 * Second; 70 * Second]; current := 3;
                       windowSeconds := 60 |} (80 * Second))
  = [30 * Second; 70 * Second].
Proof.
  destruct (APM_window {| actions := [0; 30 * Second; 70 * Second]; current := 3;
                          windowSeconds := 60 |} (80 * Second)) as (H & _).
  - simpl. lia.
  - rewrite H. reflexivity.
Defined.

End GameProps.

(* ===================================================================== *)
(** ** internal/daemon                                                    *)
(* ===================================================================== *)
Module DaemonProps.
Import Go GoFacts Daemon.

(** *** The event channel *)

Lemma chanSend_room buf e :
  (length buf < eventChCap)%nat -> chanSend buf e = Proceeds (buf ++ [e])%list.
Proof. intros H. unfold chanSend. apply Nat.ltb_lt in H. now rewrite H. Qed.

Lemma chanSend_full buf e :
  (eventChCap <= length buf)%nat -> chanSend buf e = Blocks.
Proof. intros H. unfold chanSend. apply Nat.ltb_ge in H. now rewrite H. Qed.

Lemma chanSend_keeps buf e buf' :
  chanSend buf e = Proceeds buf' -> buf' = (buf ++ [e])%list.
Proof. unfold chanSend. destruct (length buf <? eventChCap)%nat; congruence. Qed.

Lemma sendAll_keeps evs : forall buf buf',
  sendAll buf evs = Proceeds buf' -> buf' = (buf ++ evs)%list.
Proof.
  induction evs as [|e evs IH]; intros buf buf' H; simpl in H.
  - rewrite app_nil_r. congruence.
  - destruct (chanSend buf e) as [b|] eqn:E; [|discriminate].
    apply chanSend_keeps in E. subst b.
    rewrite (IH _ _ H), <- app_assoc. reflexivity.
Qed.

(** C4, as stated, fails: with debugging on and the queue full, the send
    in [debugLog] is an ordinary channel send, so the producer blocks; the
    event is not dropped and the call does not return. *)
Lemma debugLog_full_queue_blocks :
  let full := repeat (debugEvent "Poll: 1 tmux sessions" 0) 100 in
  length full = eventChCap
  /\ debugLog true full "tmux not running" 1 = Blocks
  /\ ~ (forall buf msg now, length buf = eventChCap ->
          debugLog true buf msg now = Proceeds buf).
Proof.
  intros full. split; [reflexivity|]. split; [reflexivity|].
  intros H. specialize (H full "tmux not running" 1 eq_refl).
  vm_compute in H. discriminate.
Qed.

Lemma sentEvents_in_cycle debug render clock effs e :
  In e (sentEvents effs) -> In e (cycleEvents debug render clock effs).
Proof.
  unfold sentEvents, cycleEvents. rewrite !in_flat_map.
  intros (x & Hx & He). exists x. split; [exact Hx|].
  destruct x; simpl in *; try contradiction. exact He.
Qed.

(** C4, amended. With debugging off [debugLog] emits nothing: it returns
    at once and the queue is unchanged, full or not.  With debugging on it
    sends its event exactly as every other event is sent, by a plain channel
    send: while the queue has room the event is appended, and when the queue
    is full the producer blocks.  No send ever drops an event, of any kind:
    whenever a producer gets through a sequence of sends, the queue holds
    all of them, in order, behind what it held before; in particular every
    discovery, closure, state-changed, task-completed and urgent event of a
    cycle the monitor gets through is in the queue. *)
Theorem event_queue_policy (buf : list Event) (msg : string) (now : Time) :
  debugLog false buf msg now = Proceeds buf
  /\ debugLog true buf msg now = chanSend buf (debugEvent msg now)
  /\ ((length buf < eventChCap)%nat ->
      debugLog true buf msg now = Proceeds (buf ++ [debugEvent msg now])%list)
  /\ ((eventChCap <= length buf)%nat -> debugLog true buf msg now = Blocks)
  /\ (forall e, (length buf < eventChCap)%nat ->
      chanSend buf e = Proceeds (buf ++ [e])%list)
  /\ (forall e, (eventChCap <= length buf)%nat -> chanSend buf e = Blocks)
  /\ (forall evs buf', sendAll buf evs = Proceeds buf' -> buf' = (buf ++ evs)%list)
  /\ (forall debug render clock effs buf',
        sendAll buf (cycleEvents debug render clock effs) = Proceeds buf' ->
        forall e, In e (sentEvents effs) -> In e buf').
Proof.
  split; [reflexivity|]. split; [reflexivity|].
  split; [intros H; now apply chanSend_room|].
  split; [intros H; now apply chanSend_full|].
  split; [intros e H; now apply chanSend_room|].
  split; [intros e H; now apply chanSend_full|].
  split; [intros evs buf'; apply sendAll_keeps|].
  intros debug render clock effs buf' H e He.
  apply sendAll_keeps in H. subst buf'.
  apply in_or_app. right. now apply sentEvents_in_cycle.
Qed.

(** An empty queue takes a debug event; a full one makes the sender wait. *)
Lemma event_queue_policy_witness :
  debugLog true [] "tmux not running" 1 = Proceeds [debugEvent "tmux not running" 1]
  /\ debugLog true (repeat (debugEvent "x" 0) 100) "tmux not running" 1 = Blocks.
Proof.
  destruct (event_queue_policy [] "tmux not running" 1) as (_ & _ & H3 & _).
  destruct (event_queue_policy (repeat (debugEvent "x" 0) 100) "tmux not running" 1)
    as (_ & _ & _ & H4 & _).
  split; [apply H3; vm_compute; lia | apply H4; vm_compute; lia].
Defined.

(** *** The poll cycle *)

Lemma sentEvents_app a b : sentEvents (a ++ b)%list = (sentEvents a ++ sentEvents b)%list.
Proof. unfold sentEvents. apply flat_map_app. Qed.

Lemma findClaudePane_silent w session : sentEvents (snd (findClaudePane w session)) = [].
Proof. unfold findClaudePane. destruct (tmuxListPanes w session); reflexivity. Qed.

(** Locating the pane sends nothing but debug output. *)
Lemma locate_silent w m ts : sentEvents (snd (locate w m ts)) = [].
Proof.
  unfold locate.
  set (known := match sessions m !! Tmux.Name ts with
                | Some existing => ClaudePane existing | None => None end).
  assert (H : forall r : (option Tmux.Pane * string) * list Effect,
             sentEvents (snd r) = [] ->
             sentEvents (snd (let '((claudePane, content), effs) := r in
               match claudePane with
               | Some _ => (Some (claudePane, content), effs)
               | None =>
                   match tmuxCapturePaneDefault w (Tmux.Name ts) with
                   | None => (None, (effs ++ [DebugLog (MsgCaptureError (Tmux.Name ts))])%list)
                   | Some c =>
                       if Claude.IsClaudeSession c then (Some (None, c), effs)
                       else (None, effs)
                   end
               end)) = []).
  { intros [[pane content] effs] He; simpl in He.
    destruct pane; [exact He|].
    destruct (tmuxCapturePaneDefault w (Tmux.Name ts)) as [c|]; simpl.
    - destruct (Claude.IsClaudeSession c); exact He.
    - rewrite sentEvents_app, He. reflexivity. }
  apply H.
  destruct known as [kp|]; [|apply findClaudePane_silent].
  destruct (tmuxCapturePane w (Tmux.Name ts) (Tmux.WindowIndex kp) (Tmux.PaneIndex kp)) as [c|];
    [|apply findClaudePane_silent].
  destruct (Claude.IsClaudeSession c); [reflexivity | apply findClaudePane_silent].
Qed.

Lemma SessionState_eqb_eq a b : Claude.SessionState_eqb a b = true <-> a = b.
Proof. destruct a, b; simpl; split; congruence. Qed.

(** C2. For every loop body of [poll] over a session that is already
    tracked: when the pane cannot be classified this cycle, or the state
    just classified equals the recorded one, no event is sent; when it
    differs, exactly one state-changed event is sent, first; and when the
    change is from thinking to idle or active, the very next thing the
    monitor does is to send the task-completed event (and in no other case
    is one sent).  Whatever precedes these sends in the loop body is debug
    output. *)
Theorem poll_tracked_session_events
  (w : World) (now : Time) (m : Monitor) (ts : Tmux.Session) (existing : SessionState) :
  sessions m !! Tmux.Name ts = Some existing ->
  let effs := snd (pollOne w now m ts) in
  (forall effs0, locate w m ts = (None, effs0) -> sentEvents effs = [])
  /\ (forall claudePane content effs0,
      locate w m ts = (Some (claudePane, content), effs0) ->
      let oldState := State existing in
      let newState :=
        Claude.DetectState content (LastContent existing) (LastCapture existing) in
      let ev t msg := Send (mkEvent t (Tmux.Name ts) newState now msg) in
      exists post,
        effs = (effs0 ++ [DebugLog (MsgClaude (Tmux.Name ts) claudePane)] ++ post)%list
        /\ sentEvents effs0 = []
        /\ (newState = oldState -> post = [])
        /\ (newState <> oldState ->
            exists rest,
              post = ev EventStateChanged "" :: rest
              /\ Forall (fun e => sendsType EventStateChanged e = false) rest
              /\ (oldState = Claude.StateThinking ->
                  newState = Claude.StateIdle \/ newState = Claude.StateActive ->
                  exists rest', rest = ev EventTaskCompleted "" :: rest')
              /\ (~ (oldState = Claude.StateThinking /\
                     (newState = Claude.StateIdle \/ newState = Claude.StateActive)) ->
                  Forall (fun e => sendsType EventTaskCompleted e = false) rest))
        /\ exists record,
             sessions (fst (pollOne w now m ts)) !! Tmux.Name ts = Some record
             /\ State record = newState).
Proof.
  intros Hl effs. subst effs. split.
  { intros effs0 Hloc. unfold pollOne. rewrite Hloc. simpl.
    pose proof (locate_silent w m ts) as Hs. now rewrite Hloc in Hs. }
  intros claudePane content effs0 Hloc oldState newState ev.
  pose proof (locate_silent w m ts) as Hs. rewrite Hloc in Hs. simpl in Hs.
  unfold pollOne. rewrite Hloc, Hl. unfold track. simpl.
  fold oldState newState.
  eexists. split; [reflexivity|]. split; [exact Hs|].
  split; [|split; [|eexists; split; [apply lookup_insert_eq | reflexivity]]].
  - intros E. rewrite E.
    replace (Claude.SessionState_eqb oldState oldState) with true
      by (symmetry; now apply SessionState_eqb_eq).
    reflexivity.
  - intros N.
    replace (Claude.SessionState_eqb oldState newState) with false
      by (symmetry; apply not_true_is_false; rewrite SessionState_eqb_eq; congruence).
    subst ev. clear Hloc Hl Hs.
    generalize (Claude.LastLine (Claude.ParseInfo content)). intros lastLine.
    destruct oldState, newState; simpl;
      try (now contradiction N);
      (eexists; split; [reflexivity|];
       split; [repeat constructor|];
       split; [intros H1 H2; try discriminate H1;
               try (destruct H2 as [H2|H2]; discriminate H2);
               eexists; reflexivity
              |intros H; try (repeat constructor);
               exfalso; apply H; auto]).
Qed.

(** The scenario of the design notes: a session discovered while thinking
    shows a bare prompt at the next poll; the loop body logs, then sends
    state-changed(idle) and, right after it, task-completed. *)
Lemma poll_tracked_session_events_witness :
  exists rest,
    snd (pollOne Fixtures.worldPrompt 6
           Fixtures.monitorThinking Fixtures.workSession) =
    DebugLog (MsgClaude "work" (Some Fixtures.pane0))
    :: Send (mkEvent EventStateChanged "work" Claude.StateIdle 6 "")
    :: Send (mkEvent EventTaskCompleted "work" Claude.StateIdle 6 "") :: rest.
Proof.
  destruct (poll_tracked_session_events Fixtures.worldPrompt 6
              Fixtures.monitorThinking Fixtures.workSession Fixtures.recordThinking)
    as (_ & H); [vm_compute; reflexivity|].
  destruct (H (Some Fixtures.pane0) (joinLines ["some output"; "❯ "]) [])
    as (post & Heffs & _ & _ & Hne & _); [vm_compute; reflexivity|].
  destruct Hne as (rest & Hpost & _ & Htc & _); [vm_compute; discriminate|].
  destruct Htc as (rest' & Hrest); [reflexivity | left; vm_compute; reflexivity|].
  exists rest'. rewrite Heffs, Hpost, Hrest.
  replace (Claude.DetectState (joinLines ["some output"; "❯ "])
             (LastContent Fixtures.recordThinking) (LastCapture Fixtures.recordThinking))
    with Claude.StateIdle by (vm_compute; reflexivity).
  reflexivity.
Defined.

(** *** The locked transcript identifier *)

(** Discovery inserts one record, under the session's name, carrying the
    identifier chosen by [discoveredID]. *)
Lemma discover_sessions w now m ts claudePane content :
  exists record,
    sessions (fst (discover w now m ts claudePane content)) =
      <[Tmux.Name ts := record]> (sessions m)
    /\ ClaudeSessionID record = discoveredID w m (Tmux.Name ts).
Proof.
  unfold discover, discoveredID.
  set (stored := if hasStore m then storeGetClaudeSessionID w (Tmux.Name ts) else "").
  destruct (String.eqb stored "") eqn:Es; simpl;
    destruct (String.eqb (tmuxGetSessionPath w (Tmux.Name ts)) "") eqn:Ew; simpl;
    eexists; (split; [reflexivity|]); simpl; try reflexivity.
  apply String.eqb_eq in Es. exact Es.
Qed.

Lemma track_sessions now m ts existing claudePane content :
  exists record,
    sessions (fst (track now m ts existing claudePane content)) =
      <[Tmux.Name ts := record]> (sessions m)
    /\ ClaudeSessionID record = ClaudeSessionID existing.
Proof. unfold track; simpl. eexists. split; reflexivity. Qed.

(** One loop body never drops a record and never changes its identifier. *)
Lemma pollOne_keeps w now m ts name s :
  sessions m !! name = Some s ->
  exists s', sessions (fst (pollOne w now m ts)) !! name = Some s'
             /\ ClaudeSessionID s' = ClaudeSessionID s.
Proof.
  intros H. unfold pollOne.
  destruct (locate w m ts) as [[[claudePane content]|] effs0]; [|simpl; eauto].
  destruct (sessions m !! Tmux.Name ts) as [existing|] eqn:L.
  - destruct (track_sessions now m ts existing claudePane content) as (r & Hr & Hid).
    destruct (track now m ts existing claudePane content) as [m' effs'].
    simpl in *. rewrite Hr.
    destruct (decide (Tmux.Name ts = name)) as [E|N].
    + subst name. rewrite lookup_insert_eq. exists r. split; [reflexivity|].
      rewrite Hid. congruence.
    + rewrite lookup_insert_ne by exact N. eauto.
  - destruct (discover_sessions w now m ts claudePane content) as (r & Hr & _).
    destruct (discover w now m ts claudePane content) as [m' effs'].
    simpl in *. rewrite Hr.
    rewrite lookup_insert_ne by congruence. eauto.
Qed.

Lemma pollAll_keeps w now tss : forall m seen effs name s,
  sessions m !! name = Some s ->
  exists s', sessions (fst (fst (pollAll w now tss (m, seen, effs)))) !! name = Some s'
             /\ ClaudeSessionID s' = ClaudeSessionID s.
Proof.
  unfold pollAll.
  induction tss as [|ts tss IH]; intros m seen effs name s H; simpl; [eauto|].
  destruct (pollOne_keeps w now m ts name s H) as (s1 & H1 & E1).
  destruct (pollOne w now m ts) as [m' effs'] eqn:P. simpl in H1.
  destruct (IH m' ({[Tmux.Name ts]} ∪ seen) (effs ++ effs')%list name s1 H1)
    as (s2 & H2 & E2).
  exists s2. split; [exact H2 | congruence].
Qed.

Lemma poll_keeps_id m w name s s' :
  sessions m !! name = Some s ->
  sessions (fst (poll m w)) !! name = Some s' ->
  ClaudeSessionID s' = ClaudeSessionID s.
Proof.
  intros H H'. unfold poll in H'.
  destruct (tmuxIsRunning w); simpl in H'; [|congruence].
  destruct (tmuxListSessions w) as [tss|]; simpl in H'; [|congruence].
  destruct (pollAll_keeps w (timeNow w) tss m ∅ [DebugLog (MsgPoll (length tss))] name s H)
    as (s1 & H1 & E1).
  destruct (pollAll w (timeNow w) tss (m, ∅, [DebugLog (MsgPoll (length tss))]))
    as [[m1 seen] effs] eqn:P.
  simpl in H1.
  assert (Hsub : sessions m1 !! name = Some s').
  { simpl in H'. apply map_lookup_filter_Some in H'. tauto. }
  congruence.
Qed.

(** The refresh keeps every record, with its identifier, and takes the new
    usage from [GetSessionByID] at the record's own directory and identifier. *)
Lemma updateUsage_lookup m w name s :
  sessions m !! name = Some s ->
  sessions (updateUsage m w) !! name = Some (refreshUsage w s).
Proof. intros H. unfold updateUsage; simpl. now rewrite lookup_fmap, H. Qed.

Lemma refreshUsage_id w s : ClaudeSessionID (refreshUsage w s) = ClaudeSessionID s.
Proof.
  unfold refreshUsage. destruct (String.eqb (WorkingDir s) ""); [reflexivity|].
  destruct (usageGetSessionByID w (WorkingDir s) (ClaudeSessionID s)); reflexivity.
Qed.

Lemma updateUsage_keeps_id m w name s s' :
  sessions m !! name = Some s ->
  sessions (updateUsage m w) !! name = Some s' ->
  ClaudeSessionID s' = ClaudeSessionID s.
Proof.
  intros H H'. rewrite (updateUsage_lookup m w name s H) in H'.
  injection H' as <-. apply refreshUsage_id.
Qed.

Lemma applyOp_keeps_id m o name s s' :
  sessions m !! name = Some s ->
  sessions (applyOp m o) !! name = Some s' ->
  ClaudeSessionID s' = ClaudeSessionID s.
Proof.
  destruct o as [w|w|w wu]; simpl.
  - apply poll_keeps_id.
  - apply updateUsage_keeps_id.
  - intros H H'. unfold loopIteration in H'.
    destruct (poll m w) as [m1 effs] eqn:P.
    destruct (5 <=? add64 (usagePollTick m1) 1); simpl in H'.
    + unfold updateUsage in H'; simpl in H'. rewrite lookup_fmap in H'.
      destruct (sessions m1 !! name) as [s1|] eqn:L; [|discriminate].
      simpl in H'. injection H' as <-. rewrite refreshUsage_id.
      apply (poll_keeps_id m w name s s1 H). now rewrite P.
    + apply (poll_keeps_id m w name s s' H). now rewrite P.
Qed.

Lemma run_keeps_id ops : forall m name s s',
  sessions m !! name = Some s ->
  trackedThroughout name m ops ->
  sessions (fold_left applyOp ops m) !! name = Some s' ->
  ClaudeSessionID s' = ClaudeSessionID s.
Proof.
  induction ops as [|o ops IH]; intros m name s s' H Ht H'; simpl in *.
  - congruence.
  - destruct Ht as [_ Ht].
    assert (Hn : is_Some (sessions (applyOp m o) !! name)).
    { destruct ops; simpl in Ht; tauto. }
    destruct Hn as [s1 H1].
    rewrite (IH _ name s1 s' H1 Ht H').
    apply (applyOp_keeps_id m o name s s1 H H1).
Qed.

(** C3. The transcript identifier of a tracked session is set when the
    session is discovered, by [discoveredID]; no operation of the monitor
    changes it afterwards: not a single poll, usage refresh or loop turn,
    and so not any run of them through which the session stays tracked; and
    every usage refresh asks [GetSessionByID] for the usage of the record's
    own directory and locked identifier, so that what it stores does not
    depend on which transcript is the newest. *)
Theorem ClaudeSessionID_locked :
  (forall w now m ts claudePane content,
     exists record,
       sessions (fst (discover w now m ts claudePane content)) !! Tmux.Name ts
         = Some record
       /\ ClaudeSessionID record = discoveredID w m (Tmux.Name ts))
  /\ (forall m o name s s',
        sessions m !! name = Some s ->
        sessions (applyOp m o) !! name = Some s' ->
        ClaudeSessionID s' = ClaudeSessionID s)
  /\ (forall ops m name s s',
        sessions m !! name = Some s ->
        trackedThroughout name m ops ->
        sessions (fold_left applyOp ops m) !! name = Some s' ->
        ClaudeSessionID s' = ClaudeSessionID s)
  /\ (forall m w name s,
        sessions m !! name = Some s ->
        exists s',
          sessions (updateUsage m w) !! name = Some s'
          /\ ClaudeSessionID s' = ClaudeSessionID s
          /\ Usage s' =
             if String.eqb (WorkingDir s) "" then Usage s
             else match usageGetSessionByID w (WorkingDir s) (ClaudeSessionID s) with
                  | Some u => Some u
                  | None => Usage s
                  end)
  /\ (forall m w w',
        (forall dir id, usageGetSessionByID w dir id = usageGetSessionByID w' dir id) ->
        updateUsage m w = updateUsage m w').
Proof.
  split.
  { intros w now m ts claudePane content.
    destruct (discover_sessions w now m ts claudePane content) as (r & Hr & Hid).
    exists r. rewrite Hr. split; [apply lookup_insert_eq | exact Hid]. }
  split; [exact applyOp_keeps_id|].
  split; [intros ops; apply run_keeps_id|].
  split.
  { intros m w name s H. exists (refreshUsage w s).
    split; [now apply updateUsage_lookup|].
    split; [apply refreshUsage_id|].
    unfold refreshUsage. destruct (String.eqb (WorkingDir s) ""); [reflexivity|].
    destruct (usageGetSessionByID w (WorkingDir s) (ClaudeSessionID s)); reflexivity. }
  intros m w w' H. unfold updateUsage. f_equal.
  apply map_fmap_ext. intros name s _. unfold refreshUsage. now rewrite H.
Qed.

(** The session "work" is discovered with the newest transcript "abc123";
    at the next poll a newer transcript "def456" exists, and the record
    still carries "abc123" after that poll and a usage refresh. *)
Lemma ClaudeSessionID_locked_witness :
  let ops := [OpPoll Fixtures.worldPrompt; OpUpdateUsage Fixtures.worldPrompt] in
  exists s',
    sessions (fold_left applyOp ops Fixtures.monitorThinking) !! "work"
      = Some s'
    /\ ClaudeSessionID s' = "abc123"
    /\ usageFindActiveSessionID Fixtures.worldPrompt "/home/u/proj" = "def456".
Proof.
  intros ops.
  destruct ClaudeSessionID_locked as (_ & _ & Hrun & _).
  eexists. split; [vm_compute; reflexivity|]. split; [|reflexivity].
  apply (Hrun ops Fixtures.monitorThinking "work" Fixtures.recordThinking).
  - vm_compute. reflexivity.
  - vm_compute. repeat split; eexists; reflexivity.
  - vm_compute. reflexivity.
Defined.

(** Three polls in a row: the session is discovered while thinking, then
    shows a bare prompt, then is gone from the tmux listing. *)
Example three_polls :
  let m0 := NewMonitor true false in
  let r1 := poll m0 Fixtures.worldThinking in
  let r2 := poll (fst r1) Fixtures.worldPrompt in
  let r3 := poll (fst r2) Fixtures.worldGone in
  sentEvents (snd r1) =
    [mkEvent EventSessionDiscovered "work" Claude.StateThinking 5 ""]
  /\ sentEvents (snd r2) =
    [mkEvent EventStateChanged "work" Claude.StateIdle 6 "";
     mkEvent EventTaskCompleted "work" Claude.StateIdle 6 ""]
  /\ sentEvents (snd r3) =
    [mkEvent EventSessionClosed "work" Claude.StateUnknown 7 ""]
  /\ sessions (fst r3) !! "work" = None.
Proof. vm_compute. repeat split; reflexivity. Qed.

(** *** What a poll does to the table of sessions *)

(** One loop body leaves the table alone or writes the entry of its own
    session; the record it writes is named after the session when the
    entry is new, and keeps the name of the old record otherwise. *)
Lemma pollOne_sessions w now m ts :
  sessions (fst (pollOne w now m ts)) = sessions m
  \/ exists record,
       sessions (fst (pollOne w now m ts)) = <[Tmux.Name ts := record]> (sessions m)
       /\ Name record = match sessions m !! Tmux.Name ts with
                        | Some existing => Name existing
                        | None => Tmux.Name ts
                        end.
Proof.
  unfold pollOne.
  destruct (locate w m ts) as [[[claudePane content]|] effs0]; [|now left].
  right. destruct (sessions m !! Tmux.Name ts) as [existing|] eqn:L.
  - unfold track; simpl. eexists. split; reflexivity.
  - unfold discover.
    destruct (String.eqb _ "" && _); simpl; eexists; split; reflexivity.
Qed.

Lemma pollOne_settings w now m ts :
  hasStore (fst (pollOne w now m ts)) = hasStore m
  /\ debug (fst (pollOne w now m ts)) = debug m
  /\ usagePollTick (fst (pollOne w now m ts)) = usagePollTick m.
Proof.
  unfold pollOne.
  destruct (locate w m ts) as [[[claudePane content]|] effs0]; [|now repeat split].
  destruct (sessions m !! Tmux.Name ts) as [existing|].
  - unfold track; simpl. now repeat split.
  - unfold discover. destruct (String.eqb _ "" && _); simpl; now repeat split.
Qed.

(** The events of one loop body bear the name of its session and are
    never closures. *)
Lemma pollOne_events w now m ts e :
  In e (sentEvents (snd (pollOne w now m ts))) ->
  evSession e = Tmux.Name ts /\ evType e <> EventSessionClosed.
Proof.
  unfold pollOne. pose proof (locate_silent w m ts) as Hs.
  destruct (locate w m ts) as [[[claudePane content]|] effs0]; simpl in Hs |- *;
    [|rewrite Hs; intros []].
  destruct (sessions m !! Tmux.Name ts) as [existing|].
  - unfold track; simpl. rewrite !sentEvents_app, Hs. simpl.
    destruct (Claude.SessionState_eqb _ _); simpl; [intros []|].
    rewrite !sentEvents_app. simpl.
    destruct (_ && _); destruct (Claude.SessionState_eqb _ Claude.StateUrgent); simpl;
      intros H; repeat (destruct H as [<-|H]; [split; [reflexivity|discriminate]|]);
      destruct H.
  - unfold discover.
    destruct (String.eqb _ "" && _); simpl; rewrite !sentEvents_app, Hs; simpl;
      rewrite !sentEvents_app; simpl.
    + destruct (hasStore m && _); destruct (negb (String.eqb _ "")); simpl;
        intros H; repeat (destruct H as [<-|H]; [split; [reflexivity|discriminate]|]);
        destruct H.
    + destruct (negb (String.eqb _ "")); simpl;
        intros H; repeat (destruct H as [<-|H]; [split; [reflexivity|discriminate]|]);
        destruct H.
Qed.

(** What the loop over the listed sessions yields: the table, the set of
    names seen and the effects, from any starting point. *)
Lemma pollAll_cons w now ts tss m seen effs :
  pollAll w now (ts :: tss) (m, seen, effs)
  = pollAll w now tss (fst (pollOne w now m ts), {[Tmux.Name ts]} ∪ seen,
                       (effs ++ snd (pollOne w now m ts))%list).
Proof. unfold pollAll. simpl. destruct (pollOne w now m ts). reflexivity. Qed.

Lemma pollAll_frame w now tss : forall m seen effs n,
  ~ In n (map Tmux.Name tss) ->
  sessions (fst (fst (pollAll w now tss (m, seen, effs)))) !! n = sessions m !! n.
Proof.
  induction tss as [|ts tss IH]; intros m seen effs n H; [reflexivity|].
  rewrite pollAll_cons, IH by (intros I; apply H; now right).
  destruct (pollOne_sessions w now m ts) as [E|(r & E & _)]; rewrite E; [reflexivity|].
  apply lookup_insert_ne. intros E'. apply H. now left.
Qed.

Lemma pollAll_seen w now tss : forall m seen effs n,
  n ∈ snd (fst (pollAll w now tss (m, seen, effs)))
  <-> In n (map Tmux.Name tss) \/ n ∈ seen.
Proof.
  induction tss as [|ts tss IH]; intros m seen effs n.
  - simpl. tauto.
  - rewrite pollAll_cons, IH. simpl. rewrite elem_of_union, elem_of_singleton.
    split.
    + intros [H|[H|H]]; [left; now right | left; left; now symmetry | now right].
    + intros [[H|H]|H]; [right; left; now symmetry | now left | right; now right].
Qed.

Lemma pollAll_tracked w now tss : forall m seen effs n,
  is_Some (sessions (fst (fst (pollAll w now tss (m, seen, effs)))) !! n) ->
  is_Some (sessions m !! n) \/ In n (map Tmux.Name tss).
Proof.
  induction tss as [|ts tss IH]; intros m seen effs n H; [now left|].
  rewrite pollAll_cons in H. apply IH in H. destruct H as [H|H]; [|right; now right].
  destruct (pollOne_sessions w now m ts) as [E|(r & E & _)]; rewrite E in H; [now left|].
  destruct (decide (Tmux.Name ts = n)) as [<-|N]; [right; now left|].
  rewrite lookup_insert_ne in H by exact N. now left.
Qed.

Lemma pollAll_settings w now tss : forall m seen effs,
  hasStore (fst (fst (pollAll w now tss (m, seen, effs)))) = hasStore m
  /\ debug (fst (fst (pollAll w now tss (m, seen, effs)))) = debug m
  /\ usagePollTick (fst (fst (pollAll w now tss (m, seen, effs)))) = usagePollTick m.
Proof.
  induction tss as [|ts tss IH]; intros m seen effs; [now repeat split|].
  rewrite pollAll_cons.
  destruct (IH (fst (pollOne w now m ts)) ({[Tmux.Name ts]} ∪ seen)
               (effs ++ snd (pollOne w now m ts))%list) as (H1 & H2 & H3).
  destruct (pollOne_settings w now m ts) as (G1 & G2 & G3).
  repeat split; congruence.
Qed.

Lemma pollAll_events w now tss : forall m seen effs e,
  In e (sentEvents (snd (pollAll w now tss (m, seen, effs)))) ->
  In e (sentEvents effs)
  \/ (In (evSession e) (map Tmux.Name tss) /\ evType e <> EventSessionClosed).
Proof.
  induction tss as [|ts tss IH]; intros m seen effs e H; [now left|].
  rewrite pollAll_cons in H. apply IH in H. destruct H as [H|[H1 H2]].
  - rewrite sentEvents_app in H. apply in_app_or in H. destruct H as [H|H]; [now left|].
    apply pollOne_events in H. destruct H as [H1 H2].
    right. split; [left; now symmetry|exact H2].
  - right. split; [now right|exact H2].
Qed.

Lemma pollOne_filed w now m ts : filedByName m -> filedByName (fst (pollOne w now m ts)).
Proof.
  intros F n s. destruct (pollOne_sessions w now m ts) as [E|(r & E & Hr)]; rewrite E.
  - apply F.
  - destruct (decide (Tmux.Name ts = n)) as [<-|N].
    + rewrite lookup_insert_eq. intros [= <-]. rewrite Hr.
      destruct (sessions m !! Tmux.Name ts) as [existing|] eqn:L; [now apply F|reflexivity].
    + rewrite lookup_insert_ne by exact N. apply F.
Qed.

Lemma pollAll_filed w now tss : forall m seen effs,
  filedByName m -> filedByName (fst (fst (pollAll w now tss (m, seen, effs)))).
Proof.
  induction tss as [|ts tss IH]; intros m seen effs F; [exact F|].
  rewrite pollAll_cons. apply IH. now apply pollOne_filed.
Qed.

(** The parts of a poll that got a listing from tmux. *)
Lemma poll_listed m w tss :
  tmuxIsRunning w = true -> tmuxListSessions w = Some tss ->
  let r := pollAll w (timeNow w) tss (m, ∅, [DebugLog (MsgPoll (length tss))]) in
  poll m w = (fst (closeUnseen (timeNow w) (fst (fst r)) (snd (fst r))),
              (snd r ++ snd (closeUnseen (timeNow w) (fst (fst r)) (snd (fst r))))%list).
Proof.
  intros R L. unfold poll. rewrite R, L. simpl.
  destruct (pollAll _ _ _ _) as [[m1 seen] effs]. reflexivity.
Qed.

Lemma poll_filed m w : filedByName m -> filedByName (fst (poll m w)).
Proof.
  intros F. unfold poll.
  destruct (tmuxIsRunning w); [|exact F].
  destruct (tmuxListSessions w) as [tss|]; [|exact F]. simpl.
  pose proof (pollAll_filed w (timeNow w) tss m ∅ [DebugLog (MsgPoll (length tss))] F) as F1.
  destruct (pollAll _ _ _ _) as [[m1 seen] effs]. simpl in *.
  intros n s H. apply map_lookup_filter_Some in H. apply F1. tauto.
Qed.

Lemma refreshUsage_name w s : Name (refreshUsage w s) = Name s.
Proof.
  unfold refreshUsage. destruct (String.eqb (WorkingDir s) ""); [reflexivity|].
  destruct (usageGetSessionByID w (WorkingDir s) (ClaudeSessionID s)); reflexivity.
Qed.

Lemma updateUsage_filed m w : filedByName m -> filedByName (updateUsage m w).
Proof.
  intros F n s H. unfold updateUsage in H; simpl in H. rewrite lookup_fmap in H.
  destruct (sessions m !! n) as [s0|] eqn:L; [|discriminate].
  simpl in H. injection H as <-. rewrite refreshUsage_name. now apply F.
Qed.

Lemma applyOp_filed m o : filedByName m -> filedByName (applyOp m o).
Proof.
  intros F. destruct o as [w|w|w wu]; simpl.
  - now apply poll_filed.
  - now apply updateUsage_filed.
  - unfold loopIteration. pose proof (poll_filed m w F) as F1.
    destruct (poll m w) as [m1 effs]. simpl in F1.
    destruct (5 <=? add64 (usagePollTick m1) 1); simpl.
    + apply updateUsage_filed. exact F1.
    + exact F1.
Qed.

(** X25. In every state the monitor can reach from its creation, by any
    sequence of polls, usage refreshes and loop turns, each record of the
    table is filed under its own name: looking a session up by name gives
    the record of that session. *)
Theorem records_filed_by_name (st dbg : bool) (ops : list Op) (n : string) (s : SessionState) :
  sessions (fold_left applyOp ops (NewMonitor st dbg)) !! n = Some s -> Name s = n.
Proof.
  assert (F : filedByName (fold_left applyOp ops (NewMonitor st dbg))).
  { assert (F0 : filedByName (NewMonitor st dbg)).
    { intros k r H. simpl in H. now rewrite lookup_empty in H. }
    revert F0. generalize (NewMonitor st dbg).
    induction ops as [|o ops IH]; intros m F0; [exact F0|].
    simpl. apply IH. now apply applyOp_filed. }
  apply F.
Qed.

Lemma poll_settings m w :
  hasStore (fst (poll m w)) = hasStore m
  /\ debug (fst (poll m w)) = debug m
  /\ usagePollTick (fst (poll m w)) = usagePollTick m.
Proof.
  unfold poll.
  destruct (tmuxIsRunning w); [|now repeat split].
  destruct (tmuxListSessions w) as [tss|]; [|now repeat split]. simpl.
  pose proof (pollAll_settings w (timeNow w) tss m ∅ [DebugLog (MsgPoll (length tss))]) as S.
  destruct (pollAll _ _ _ _) as [[m1 seen] effs]. exact S.
Qed.

(** X23. After a poll that got a listing from tmux, the tracked sessions
    are among the listed ones, every session that was tracked and is still
    listed is still tracked, and nothing but the table has changed in the
    monitor. *)
Theorem poll_tracks_listed (m : Monitor) (w : World) (tss : list Tmux.Session) :
  tmuxIsRunning w = true -> tmuxListSessions w = Some tss ->
  (forall n, is_Some (sessions (fst (poll m w)) !! n) -> In n (map Tmux.Name tss))
  /\ (forall n, In n (map Tmux.Name tss) -> is_Some (sessions m !! n) ->
        is_Some (sessions (fst (poll m w)) !! n))
  /\ (forall n, is_Some (sessions (fst (poll m w)) !! n) ->
        ~ is_Some (sessions m !! n) ->
        exists ts, In ts tss /\ Tmux.Name ts = n)
  /\ hasStore (fst (poll m w)) = hasStore m
  /\ debug (fst (poll m w)) = debug m
  /\ usagePollTick (fst (poll m w)) = usagePollTick m.
Proof.
  intros R L.
  assert (A : forall n, is_Some (sessions (fst (poll m w)) !! n) -> In n (map Tmux.Name tss)).
  { intros n [s H]. rewrite (poll_listed m w tss R L) in H. simpl in H.
    apply map_lookup_filter_Some in H. destruct H as [_ H]. simpl in H.
    apply pollAll_seen in H. destruct H as [H|H]; [exact H|].
    now apply not_elem_of_empty in H. }
  split; [exact A|]. split; [|split; [|apply poll_settings]].
  - intros n I [s H]. rewrite (poll_listed m w tss R L). simpl.
    destruct (pollAll_keeps w (timeNow w) tss m ∅ [DebugLog (MsgPoll (length tss))] n s H)
      as (s' & H' & _).
    exists s'. apply map_lookup_filter_Some. split; [exact H'|]. simpl.
    apply pollAll_seen. now left.
  - intros n H _. apply A in H. apply in_map_iff in H.
    destruct H as (ts & E & I). now exists ts.
Qed.

Lemma no_closures_filter n l :
  (forall e, In e (sentEvents l) -> evType e <> EventSessionClosed) ->
  List.filter (closes n) l = [].
Proof.
  induction l as [|x l IH]; intros H; [reflexivity|]. simpl.
  assert (C : closes n x = false).
  { destruct x as [ev| | | | |]; try reflexivity. simpl.
    destruct (evType ev) eqn:T; try reflexivity.
    exfalso. apply (H ev); [simpl; now left|exact T]. }
  rewrite C. apply IH. intros e I. apply H.
  unfold sentEvents in *. simpl. apply in_or_app. now right.
Qed.

Lemma closing_count now n : forall gone : list string,
  List.NoDup gone ->
  (In n gone ->
   length (List.filter (closes n)
             (flat_map (fun name => [UnwatchSession name; Send (closedEvent now name)])
                       gone)) = 1%nat)
  /\ (~ In n gone ->
      length (List.filter (closes n)
                (flat_map (fun name => [UnwatchSession name; Send (closedEvent now name)])
                          gone)) = 0%nat).
Proof.
  induction gone as [|x gone IH]; intros ND; [split; [intros []|reflexivity]|].
  inversion ND as [|? ? NI ND']; subst. destruct (IH ND') as [IH1 IH0].
  simpl flat_map. simpl List.filter.
  destruct (String.eqb_spec x n) as [->|N]; simpl length.
  - split; [intros _; now rewrite IH0|intros H; exfalso; apply H; now left].
  - split.
    + intros [E|I]; [congruence|now apply IH1].
    + intros H. apply IH0. intros I. apply H. now right.
Qed.

Lemma closeUnseen_effects now m seen :
  snd (closeUnseen now m seen)
  = flat_map (fun name => [UnwatchSession name; Send (closedEvent now name)])
             (List.filter (fun name => bool_decide (name ∉ seen))
                          (map fst (map_to_list (sessions m)))).
Proof. reflexivity. Qed.

Lemma gone_NoDup (m : Monitor) (seen : gset string) :
  List.NoDup (List.filter (fun name => bool_decide (name ∉ seen))
                          (map fst (map_to_list (sessions m)))).
Proof.
  apply List.NoDup_filter. apply NoDup_ListNoDup. apply NoDup_fst_map_to_list.
Qed.

Lemma gone_In (m : Monitor) (seen : gset string) n :
  In n (List.filter (fun name => bool_decide (name ∉ seen))
                    (map fst (map_to_list (sessions m))))
  <-> is_Some (sessions m !! n) /\ n ∉ seen.
Proof.
  rewrite List.filter_In, bool_decide_eq_true, in_map_iff. split.
  - intros [([k s] & E & I) H]. simpl in E. subst k. split; [|exact H].
    apply list_elem_of_In, elem_of_map_to_list in I. now exists s.
  - intros [[s H] H']. split; [|exact H'].
    exists (n, s). split; [reflexivity|].
    now apply list_elem_of_In, elem_of_map_to_list.
Qed.

(** X24. A session that was tracked and that tmux no longer lists is
    retired by the poll: its record is removed, its watcher is stopped
    and exactly one closure event is sent for it.  Closure events are
    sent for such sessions only. *)
Theorem session_retired (m : Monitor) (w : World) (tss : list Tmux.Session) :
  tmuxIsRunning w = true -> tmuxListSessions w = Some tss ->
  (forall n, is_Some (sessions m !! n) -> ~ In n (map Tmux.Name tss) ->
     sessions (fst (poll m w)) !! n = None
     /\ length (List.filter (closes n) (snd (poll m w))) = 1%nat
     /\ In (Send (closedEvent (timeNow w) n)) (snd (poll m w))
     /\ In (UnwatchSession n) (snd (poll m w)))
  /\ (forall e, In e (sentEvents (snd (poll m w))) -> evType e = EventSessionClosed ->
        is_Some (sessions m !! evSession e) /\ ~ In (evSession e) (map Tmux.Name tss)
        /\ e = closedEvent (timeNow w) (evSession e)).
Proof.
  intros R L. rewrite (poll_listed m w tss R L). cbv zeta.
  set (r := pollAll w (timeNow w) tss (m, ∅, [DebugLog (MsgPoll (length tss))])).
  assert (Seen : forall n, n ∈ snd (fst r) <-> In n (map Tmux.Name tss)).
  { intros n. unfold r. rewrite pollAll_seen. split; [|now left].
    intros [H|H]; [exact H|]. now apply not_elem_of_empty in H. }
  assert (Loop : forall e, In e (sentEvents (snd r)) -> evType e <> EventSessionClosed).
  { intros e H. apply pollAll_events in H. destruct H as [[]|[_ H]]. exact H. }
  split.
  - intros n T NL. cbn [fst snd].
    assert (G : In n (List.filter (fun name => bool_decide (name ∉ snd (fst r)))
                        (map fst (map_to_list (sessions (fst (fst r))))))).
    { apply gone_In. split; [|now rewrite Seen].
      unfold r. now rewrite pollAll_frame. }
    split; [|split; [|split]].
    + unfold closeUnseen; cbn [fst sessions withSessions].
      apply map_lookup_filter_None. right. intros s _. simpl. now rewrite Seen.
    + rewrite List.filter_app, length_app, (no_closures_filter n (snd r) Loop).
      rewrite closeUnseen_effects.
      now rewrite (proj1 (closing_count _ n _ (gone_NoDup _ _)) G).
    + apply in_or_app. right. rewrite closeUnseen_effects. apply in_flat_map.
      exists n. split; [exact G|]. right. now left.
    + apply in_or_app. right. rewrite closeUnseen_effects. apply in_flat_map.
      exists n. split; [exact G|]. now left.
  - intros e H T. cbn [fst snd] in H. rewrite sentEvents_app in H.
    apply in_app_or in H. destruct H as [H|H]; [now apply Loop in H|].
    rewrite closeUnseen_effects in H. unfold sentEvents in H.
    apply in_flat_map in H. destruct H as (x & Hx & He).
    apply in_flat_map in Hx. destruct Hx as (n & Hn & Hx).
    destruct Hx as [<-|[<-|[]]]; simpl in He; [destruct He|].
    destruct He as [<-|[]]. simpl.
    apply gone_In in Hn. destruct Hn as [Hn Hs].
    split; [|split; [now rewrite <- Seen|reflexivity]].
    unfold r in Hn. apply pollAll_tracked in Hn. destruct Hn as [Hn|Hn]; [exact Hn|].
    exfalso. apply Hs. now apply Seen.
Qed.

Lemma locate_local w m m' ts :
  sessions m !! Tmux.Name ts = sessions m' !! Tmux.Name ts ->
  locate w m ts = locate w m' ts.
Proof. intros H. unfold locate. rewrite H. reflexivity. Qed.

Lemma pollAll_unreadable w now n s : forall tss m0 m seen effs,
  sessions m0 !! n = Some s -> sessions m !! n = Some s ->
  (forall ts, In ts tss -> Tmux.Name ts = n -> fst (locate w m0 ts) = None) ->
  (forall e, In e (sentEvents effs) -> evSession e <> n) ->
  sessions (fst (fst (pollAll w now tss (m, seen, effs)))) !! n = Some s
  /\ (forall e, In e (sentEvents (snd (pollAll w now tss (m, seen, effs)))) ->
        evSession e <> n).
Proof.
  induction tss as [|ts tss IH]; intros m0 m seen effs H0 H U E; [now split|].
  rewrite pollAll_cons. apply (IH m0).
  - exact H0.
  - destruct (decide (Tmux.Name ts = n)) as [En|N].
    + unfold pollOne. rewrite (locate_local w m m0 ts) by (rewrite En; congruence).
      specialize (U ts (or_introl eq_refl) En).
      destruct (locate w m0 ts) as [[x|] effs0]; [discriminate U|exact H].
    + destruct (pollOne_sessions w now m ts) as [E1|(r & E1 & _)]; rewrite E1; [exact H|].
      now rewrite lookup_insert_ne.
  - intros ts' I. apply U. now right.
  - intros e I. rewrite sentEvents_app in I. apply in_app_or in I.
    destruct I as [I|I]; [now apply E|].
    destruct (decide (Tmux.Name ts = n)) as [En|N].
    + unfold pollOne in I. rewrite (locate_local w m m0 ts) in I by (rewrite En; congruence).
      pose proof (locate_silent w m0 ts) as Hs.
      specialize (U ts (or_introl eq_refl) En).
      destruct (locate w m0 ts) as [[x|] effs0]; [discriminate U|].
      simpl in I, Hs. rewrite Hs in I. destruct I.
    + apply pollOne_events in I. destruct I as [I _]. congruence.
Qed.


Lemma poll_tracks_listed_witness :
  is_Some (sessions (fst (poll Fixtures.monitorThinking Fixtures.worldPrompt)) !! "work")
  /\ usagePollTick (fst (poll Fixtures.monitorThinking Fixtures.worldPrompt)) = 0.
Proof.
  destruct (poll_tracks_listed Fixtures.monitorThinking Fixtures.worldPrompt
              [Fixtures.workSession] eq_refl eq_refl) as (_ & H & _ & _ & _ & T).
  split; [|exact T].
  apply H; [now left|]. exists Fixtures.recordThinking. vm_compute. reflexivity.
Defined.

Lemma session_retired_witness :
  sessions (fst (poll Fixtures.monitorThinking Fixtures.worldGone)) !! "work" = None
  /\ In (Send (closedEvent 7 "work")) (snd (poll Fixtures.monitorThinking Fixtures.worldGone)).
Proof.
  destruct (session_retired Fixtures.monitorThinking Fixtures.worldGone [] eq_refl eq_refl)
    as (H & _).
  destruct (H "work") as (H1 & _ & H3 & _).
  - exists Fixtures.recordThinking. vm_compute. reflexivity.
  - intros [].
  - split; [exact H1|exact H3].
Defined.

Lemma records_filed_by_name_witness : Name Fixtures.recordThinking = "work".
Proof.
  apply (records_filed_by_name true false [OpPoll Fixtures.worldThinking] "work"
           Fixtures.recordThinking).
  vm_compute. reflexivity.
Defined.

(** The session of the fixtures, listed but with a pane that tmux cannot
    capture: nothing changes and nothing is sent. *)
Example unreadable_pane_scenario :
  let w := {| tmuxIsRunning := true;
              tmuxListSessions := Some [Fixtures.workSession];
              tmuxListPanes := fun _ => None;
              tmuxCapturePane := fun _ _ _ => None;
              tmuxCapturePaneDefault := fun _ => None;
              tmuxGetSessionPath := fun _ => "/home/u/proj";
              storeGetClaudeSessionID := fun _ => "";
              usageFindActiveSessionID := fun _ => "";
              usageGetSessionByID := fun _ _ => None;
              timeNow := 8 |} in
  sessions (fst (poll Fixtures.monitorThinking w)) !! "work" = Some Fixtures.recordThinking
  /\ sentEvents (snd (poll Fixtures.monitorThinking w)) = [].
Proof. vm_compute. split; reflexivity. Qed.

(** *** The usage refresh *)

Lemma refreshUsage_idem w s : refreshUsage w (refreshUsage w s) = refreshUsage w s.
Proof.
  unfold refreshUsage at 2.
  destruct (String.eqb (WorkingDir s) "") eqn:E.
  - unfold refreshUsage. now rewrite E.
  - destruct (usageGetSessionByID w (WorkingDir s) (ClaudeSessionID s)) as [u|] eqn:G.
    + unfold refreshUsage; simpl. now rewrite E, G.
    + unfold refreshUsage. now rewrite E, G.
Qed.

(** X27. A usage refresh touches nothing but the usage of the records:
    the same sessions are tracked, every other field of every record is
    as before, and the usage is replaced by what [GetSessionByID] answers
    for the record's own directory and identifier, or kept when the
    record has no directory or nothing is answered.  Refreshing twice from
    the same answers is refreshing once. *)
Theorem updateUsage_only_usage (m : Monitor) (w : World) :
  (forall n, sessions (updateUsage m w) !! n = refreshUsage w <$> sessions m !! n)
  /\ (forall s,
        let s' := refreshUsage w s in
        Name s' = Name s /\ State s' = State s /\ LastContent s' = LastContent s
        /\ LastCapture s' = LastCapture s /\ Tokens s' = Tokens s
        /\ ThinkingTime s' = ThinkingTime s /\ LastLine s' = LastLine s
        /\ Created s' = Created s /\ Attached s' = Attached s
        /\ ClaudePane s' = ClaudePane s /\ WorkingDir s' = WorkingDir s
        /\ ClaudeSessionID s' = ClaudeSessionID s
        /\ Usage s' = if String.eqb (WorkingDir s) "" then Usage s
                      else match usageGetSessionByID w (WorkingDir s) (ClaudeSessionID s) with
                           | Some u => Some u
                           | None => Usage s
                           end)
  /\ updateUsage (updateUsage m w) w = updateUsage m w
  /\ hasStore (updateUsage m w) = hasStore m
  /\ debug (updateUsage m w) = debug m
  /\ usagePollTick (updateUsage m w) = usagePollTick m.
Proof.
  split; [intros n; unfold updateUsage; simpl; apply lookup_fmap|].
  split.
  { intros s. cbv zeta. unfold refreshUsage.
    destruct (String.eqb (WorkingDir s) ""); [repeat split; reflexivity|].
    destruct (usageGetSessionByID w (WorkingDir s) (ClaudeSessionID s));
      repeat split; reflexivity. }
  split; [|repeat split; reflexivity].
  unfold updateUsage, withSessions; simpl. f_equal.
  rewrite <- map_fmap_compose. apply map_fmap_ext.
  intros n s _. simpl. apply refreshUsage_idem.
Qed.

(** X28. The loop turn refreshes the usage on every fifth turn and on no
    other: with the counter between 0 and 4 it advances modulo 5; on the
    turn that takes it from 4 back to 0 the table is the refreshed table
    of the poll, on the others it is the table of the poll; the effects
    are those of the poll in both cases. *)
Theorem usage_refresh_cadence (m : Monitor) (w wu : World) :
  0 <= usagePollTick m <= 4 ->
  let m' := fst (loopIteration m w wu) in
  usagePollTick m' = (usagePollTick m + 1) mod 5
  /\ 0 <= usagePollTick m' <= 4
  /\ (usagePollTick m = 4 -> sessions m' = sessions (updateUsage (fst (poll m w)) wu))
  /\ (usagePollTick m < 4 -> sessions m' = sessions (fst (poll m w)))
  /\ snd (loopIteration m w wu) = snd (poll m w).
Proof.
  intros H. cbv zeta. unfold loopIteration.
  destruct (poll_settings m w) as (_ & _ & T).
  destruct (poll m w) as [m1 effs]. simpl in T. rewrite T.
  assert (A : add64 (usagePollTick m) 1 = usagePollTick m + 1).
  { apply wrap64_small. unfold inInt64, minInt64, maxInt64. lia. }
  rewrite A.
  destruct (Z.leb_spec 5 (usagePollTick m + 1)); simpl.
  - assert (usagePollTick m = 4) as -> by lia.
    repeat split; try reflexivity; try lia.
  - rewrite Z.mod_small by lia. repeat split; try reflexivity; lia.
Qed.

Lemma usage_refresh_cadence_witness :
  usagePollTick (fst (loopIteration (NewMonitor true false) Fixtures.worldThinking
                        Fixtures.worldThinking)) = 1.
Proof.
  destruct (usage_refresh_cadence (NewMonitor true false) Fixtures.worldThinking
              Fixtures.worldThinking) as (H & _).
  - simpl. lia.
  - rewrite H. reflexivity.
Defined.

(** *** First sight of a session *)

Lemma findClaudePane_debug w session : Forall isDebugLog (snd (findClaudePane w session)).
Proof.
  unfold findClaudePane. destruct (tmuxListPanes w session); simpl; repeat constructor.
Qed.

(** Locating the pane does nothing but debug output. *)
Lemma locate_debug w m ts : Forall isDebugLog (snd (locate w m ts)).
Proof.
  unfold locate.
  set (known := match sessions m !! Tmux.Name ts with
                | Some existing => ClaudePane existing | None => None end).
  assert (H : forall r : (option Tmux.Pane * string) * list Effect,
             Forall isDebugLog (snd r) ->
             Forall isDebugLog (snd (let '((claudePane, content), effs) := r in
               match claudePane with
               | Some _ => (Some (claudePane, content), effs)
               | None =>
                   match tmuxCapturePaneDefault w (Tmux.Name ts) with
                   | None => (None, (effs ++ [DebugLog (MsgCaptureError (Tmux.Name ts))])%list)
                   | Some c =>
                       if Claude.IsClaudeSession c then (Some (None, c), effs)
                       else (None, effs)
                   end
               end))).
  { intros [[pane content] effs] He; simpl in He.
    destruct pane; [exact He|].
    destruct (tmuxCapturePaneDefault w (Tmux.Name ts)) as [c|]; simpl.
    - destruct (Claude.IsClaudeSession c); exact He.
    - apply Forall_app. split; [exact He|repeat constructor]. }
  apply H.
  destruct known as [kp|]; [|apply findClaudePane_debug].
  destruct (tmuxCapturePane w (Tmux.Name ts) (Tmux.WindowIndex kp) (Tmux.PaneIndex kp)) as [c|];
    [|apply findClaudePane_debug].
  destruct (Claude.IsClaudeSession c); [constructor | apply findClaudePane_debug].
Qed.



End DaemonProps.

(* ===================================================================== *)
(** ** internal/tui                                                       *)
(* ===================================================================== *)
Module TuiProps.
Import Go Tui.

Lemma substring_length s : forall n m,
  (n + m <= String.length s)%nat -> String.length (String.substring n m s) = m.
Proof.
  induction s as [|c s IH]; intros n m H; simpl in H.
  - assert (n = 0 /\ m = 0)%nat as [-> ->] by lia. reflexivity.
  - destruct n as [|n]; simpl.
    + destruct m as [|m]; [reflexivity|]. simpl. rewrite IH by lia. reflexivity.
    + apply IH. lia.
Qed.

Lemma append_length a b : String.length (a ++ b) = (String.length a + String.length b)%nat.
Proof.
  induction a as [|c a IH]; [reflexivity|].
  change (String c a ++ b)%string with (String c (a ++ b)). simpl. now rewrite IH.
Qed.


Example truncatePath_examples :
  truncatePath "/home/user/projects/ccmanager" 15 = "...ts/ccmanager"%string
  /\ truncatePath "a-very-long-directory-name" 10 = "a-very-..."%string
  /\ truncatePath "/tmp" 10 = "/tmp"%string
  /\ truncatePath "/home/user" 2 = "..."%string.
Proof. vm_compute. repeat split; reflexivity. Qed.

End TuiProps.
